(** * The Fish Speech tokenizer ([tokenization_fish.py]), embedded in Rocq

    The Python module builds a special-token registry on top of a tiktoken
    merge table, cuts long texts into chunks and hands them to tiktoken.
    The embedding follows the module statement by statement:

    - Python values are a small universe [pyval]; a [str] is its list of
      Unicode code points, [bytes] a list of 8-bit characters, an [int] is
      a [Z], a [dict] is an association list in insertion order;
    - a raised exception is the [Err] of a result monad, named by its
      Python class;
    - the file system and the module namespace are passed explicitly;
    - what the module gets from libraries whose code is not in it
      (tiktoken's native BPE core, [base64.b64decode], [int]) is a record
      of parameters, [pylib]; the part of their contract that a theorem
      uses is a hypothesis of that theorem, and [reference_lib] is an
      instance that meets it.

    Line 65 of the source writes the class header without its final colon;
    the embedding reads it as the header of the class body that follows. *)

From Stdlib Require Import String Ascii.
From Stdlib Require Import List ZArith NArith Lia Bool.
From Stdlib Require Import DecimalString DecimalZ DecimalPos.
Import ListNotations.

Set Implicit Arguments.
Set Warnings "-register-all".
Local Open Scope Z_scope.

(* ================================================================== *)
(** ** Exceptions and results *)

Inductive pyexn : Type :=
| TypeError
| NameError
| AssertionError
| UnboundLocalError
| KeyError
| AttributeError
| ValueError
| BinasciiError
| DisallowedSpecialToken   (* the ValueError of tiktoken's raise_disallowed_special_token *)
| FileNotFoundError
| IsADirectoryError
| NotADirectoryError
| FileExistsError
| IndexError
| LibraryError.            (* any failure inside tiktoken's native core *)

Inductive result (A : Type) : Type :=
| Ok (a : A)
| Err (e : pyexn).
Arguments Ok {A} a.
Arguments Err {A} e.

Definition bind {A B} (r : result A) (k : A -> result B) : result B :=
  match r with
  | Ok a => k a
  | Err e => Err e
  end.

Declare Scope py_scope.
Delimit Scope py_scope with py.
Notation "x <- c ;; k" := (bind c (fun x => k))
  (at level 61, c at next level, right associativity) : py_scope.
Local Open Scope py_scope.

(** [[f(x) for x in xs]] where [f] may raise: the first exception in list
    order ends the loop. *)
Fixpoint mapM {A B} (f : A -> result B) (xs : list A) : result (list B) :=
  match xs with
  | [] => Ok []
  | x :: xs' => y <- f x ;; ys <- mapM f xs' ;; Ok (y :: ys)
  end.

(* ================================================================== *)
(** ** Strings, bytes and the value universe *)

Definition codepoint := N.
Definition pystr := list codepoint.
Definition bytes := list ascii.

(** A source literal of ASCII characters, as a Python [str]. *)
Definition lit (s : string) : pystr := map N_of_ascii (list_ascii_of_string s).

Definition len {A} (l : list A) : Z := Z.of_nat (length l).

Fixpoint pystr_eqb (a b : pystr) : bool :=
  match a, b with
  | [], [] => true
  | x :: a', y :: b' => N.eqb x y && pystr_eqb a' b'
  | _, _ => false
  end.

Fixpoint bytes_eqb (a b : bytes) : bool :=
  match a, b with
  | [], [] => true
  | x :: a', y :: b' => Ascii.eqb x y && bytes_eqb a' b'
  | _, _ => false
  end.

Inductive pyval : Type :=
| VNone
| VBool (b : bool)
| VInt (z : Z)
| VStr (s : pystr)
| VBytes (b : bytes)
| VList (l : list pyval)
| VTuple (l : list pyval)
| VPath (p : list pystr)
| VModule (name : string)
| VObject (class : string).

Definition isinstance_str (v : pyval) : bool :=
  match v with VStr _ => true | _ => false end.

Definition isinstance_list (v : pyval) : bool :=
  match v with VList _ => true | _ => false end.

(** [str(n)] and [f"{n}"] for an [int]. *)
Definition str_of_int (z : Z) : pystr := lit (NilZero.string_of_int (Z.to_int z)).

(* ================================================================== *)
(** ** Calls and names *)

(** A call of a [def] whose positional parameters are [params] with the
    positional arguments [args]: Python binds them one to one and raises
    TypeError when the numbers differ.  A method reached through an
    instance receives the instance as its first argument. *)
Definition call {A} (params : list string) (args : list pyval)
    (body : result A) : result A :=
  if Nat.eqb (length params) (length args) then body
  else Err TypeError.

(** The module namespace.  [module_names] are the names the file binds at
    top level (imports, constants, the loop variable [i] of line 42, the
    class); [builtin_names] are the builtins its functions use.  A caller
    may have added further bindings [extra] to the module; a name found in
    none of the three raises NameError. *)
Definition module_names : list string :=
  ["base64"; "json"; "Path"; "tiktoken"; "Union"; "List";
   "PreTrainedTokenizer"; "FISH_TIKTOKEN_PATTERN";
   "TIKTOKEN_MAX_ENCODE_CHARS"; "BOS_TOKEN"; "EOS_TOKEN"; "PAD_TOKEN";
   "IM_START_TOKEN"; "IM_END_TOKEN"; "MODALITY_TEXT_TOKEN";
   "MODALITY_VOICE_TOKEN"; "MODALITY_INTERLEAVE_TOKEN"; "MODALITY_TOKENS";
   "PLACEHOLDER_TOKEN"; "i"; "SEMANTIC_TOKEN_TEMPLATE"; "SEMANTIC_TOKENS";
   "ALL_SPECIAL_TOKENS"; "FishTokenizer"]%string.

Definition builtin_names : list string :=
  ["open"; "len"; "range"; "enumerate"; "int"; "sum"; "set"; "isinstance";
   "str"; "list"; "dict"; "bytes"; "bool"]%string.

Definition namespace := list (string * pyval).

Fixpoint assoc (name : string) (ns : namespace) : option pyval :=
  match ns with
  | [] => None
  | (n, v) :: ns' => if String.eqb n name then Some v else assoc name ns'
  end.

Definition mem_string (name : string) (l : list string) : bool :=
  existsb (String.eqb name) l.

(** Reading a global name inside a function of the module. *)
Definition load_global (extra : namespace) (name : string) : result pyval :=
  match assoc name extra with
  | Some v => Ok v
  | None =>
      if mem_string name module_names || mem_string name builtin_names
      then Ok (VObject name)
      else Err NameError
  end.

(** The module as the file leaves it: nothing added. *)
Definition module_globals : namespace := [].

(* ================================================================== *)
(** ** Ranges and slices *)

(** [range(start, stop, step)] for a positive [step]: its length is
    [ceil((stop - start) / step)] and its [k]-th item [start + k * step]. *)
Definition py_range (start stop step : Z) : list Z :=
  map (fun k => start + Z.of_nat k * step)
      (seq 0 (Z.to_nat ((stop - start + step - 1) / step))).

(** [l[i:j]] for [0 <= i]: both bounds are clamped to the length. *)
Definition py_slice {A} (l : list A) (i j : Z) : list A :=
  firstn (Z.to_nat (j - i)) (skipn (Z.to_nat i) l).

(* ================================================================== *)
(** ** Chunking: [tokenize] (lines 98 to 102)

    The function is declared in the class body with the one parameter
    [text]. *)

Definition TIKTOKEN_MAX_ENCODE_CHARS : Z := 400000.

Definition tokenize_params : list string := ["text"]%string.

Definition tokenize (text : pystr) : list pystr :=
  fold_left
    (fun subs i => subs ++ [py_slice text i (i + TIKTOKEN_MAX_ENCODE_CHARS)])
    (py_range 0 (len text) TIKTOKEN_MAX_ENCODE_CHARS)
    [].

(* ================================================================== *)
(** ** Dictionaries

    A Python [dict] keeps its keys in the order of their first insertion;
    assigning to a key that is present replaces the value in place. *)

Section Dict.
Variables K V : Type.
Variable eqb : K -> K -> bool.

Definition dict := list (K * V).

Fixpoint dict_set (d : dict) (k : K) (v : V) : dict :=
  match d with
  | [] => [(k, v)]
  | (k', v') :: d' =>
      if eqb k' k then (k', v) :: d' else (k', v') :: dict_set d' k v
  end.

Fixpoint dict_get (d : dict) (k : K) : result V :=
  match d with
  | [] => Err KeyError
  | (k', v') :: d' => if eqb k' k then Ok v' else dict_get d' k
  end.

Definition dict_keys (d : dict) : list K := map fst d.
End Dict.

(** [enumerate(l)] *)
Definition enumerate {A} (l : list A) : list (Z * A) :=
  combine (map Z.of_nat (seq 0 (length l))) l.

(** [l[i]], with Python's negative indices. *)
Definition py_index {A} (l : list A) (i : Z) : result A :=
  let j := if i <? 0 then i + len l else i in
  if (0 <=? j) && (j <? len l) then
    match nth_error l (Z.to_nat j) with
    | Some x => Ok x
    | None => Err IndexError
    end
  else Err IndexError.

(** [l[i] = x] for an index in range. *)
Definition list_assign {A} (l : list A) (i : Z) (x : A) : list A :=
  firstn (Z.to_nat i) l ++ x :: skipn (S (Z.to_nat i)) l.

(** [sep.join(parts)] *)
Fixpoint join (sep : pystr) (parts : list pystr) : pystr :=
  match parts with
  | [] => []
  | [x] => x
  | x :: rest => x ++ sep ++ join sep rest
  end.

(* ================================================================== *)
(** ** Module constants (lines 12 to 63) *)

Definition FISH_TIKTOKEN_PATTERN : pystr :=
  join (lit "|")
    [ lit "(?i:'s|'t|'re|'ve|'m|'ll|'d)";
      lit "\p{P}";
      lit "[^\r\n\p{L}\p{N}]?\p{L}+";
      lit "\p{N}";
      lit " ?[^\s\p{L}\p{N}]+[\r\n]*";
      lit "\s*[\r\n]+";
      lit "\s+(\?!\S)";
      lit "\s+" ].

Definition BOS_TOKEN : pystr := lit "<|begin_of_text|>".
Definition EOS_TOKEN : pystr := lit "<|end_of_text|>".
Definition PAD_TOKEN : pystr := lit "<|pad|>".
Definition IM_START_TOKEN : pystr := lit "<|im_start|>".
Definition IM_END_TOKEN : pystr := lit "<|im_end|>".

Definition MODALITY_TEXT_TOKEN : pystr := lit "<|text|>".
Definition MODALITY_VOICE_TOKEN : pystr := lit "<|voice|>".
Definition MODALITY_INTERLEAVE_TOKEN : pystr := lit "<|interleave|>".
Definition MODALITY_TOKENS : dict pystr pystr :=
  [ (lit "text", MODALITY_TEXT_TOKEN);
    (lit "voice", MODALITY_VOICE_TOKEN);
    (lit "interleave", MODALITY_INTERLEAVE_TOKEN) ].

Definition PLACEHOLDER_TOKEN : list pystr :=
  fold_left
    (fun l i => list_assign l i (lit "<|placeholder:" ++ str_of_int i ++ lit "|>"))
    (py_range 0 4 1)
    (repeat (lit "") 4).

(** [SEMANTIC_TOKEN_TEMPLATE.format(i=i)] *)
Definition SEMANTIC_TOKEN_TEMPLATE (i : Z) : pystr :=
  lit "<|semantic:" ++ str_of_int i ++ lit "|>".

Definition SEMANTIC_TOKENS : list pystr :=
  map SEMANTIC_TOKEN_TEMPLATE (py_range 0 1024 1).

Definition ALL_SPECIAL_TOKENS : list pystr :=
  [ BOS_TOKEN;
    EOS_TOKEN;
    PAD_TOKEN;
    IM_START_TOKEN;
    IM_END_TOKEN;
    nth 0 PLACEHOLDER_TOKEN [];
    nth 1 PLACEHOLDER_TOKEN [];
    nth 2 PLACEHOLDER_TOKEN [];
    nth 3 PLACEHOLDER_TOKEN [];
    MODALITY_TEXT_TOKEN;
    MODALITY_VOICE_TOKEN;
    MODALITY_INTERLEAVE_TOKEN ] ++ SEMANTIC_TOKENS.

(* ================================================================== *)
(** ** Files

    A [pathlib.Path] is its sequence of components.  A file holds the text
    that [read()] returns and [write()] receives. *)

Definition path := list pystr.

Inductive node : Type :=
| File (text : pystr)
| Dir.

Definition filesystem := path -> option node.

Fixpoint path_eqb (p q : path) : bool :=
  match p, q with
  | [], [] => true
  | x :: p', y :: q' => pystr_eqb x y && path_eqb p' q'
  | _, _ => false
  end.

Definition fs_put (fs : filesystem) (p : path) (n : node) : filesystem :=
  fun q => if path_eqb p q then Some n else fs q.

Definition is_file_node (o : option node) : bool :=
  match o with Some (File _) => true | _ => false end.

(** The proper ancestors of [p], the nearest to the root first. *)
Definition ancestors (p : path) : list path :=
  map (fun n => firstn n p) (seq 1 (length p - 1)).

Definition under_a_file (fs : filesystem) (p : path) : bool :=
  existsb (fun q => is_file_node (fs q)) (ancestors p).

(** [os.path.isfile(p)] *)
Definition isfile (fs : filesystem) (p : path) : bool :=
  negb (under_a_file fs p) && is_file_node (fs p).

(** [open(p).read()] *)
Definition read_text (fs : filesystem) (p : path) : result pystr :=
  if under_a_file fs p then Err NotADirectoryError
  else match fs p with
       | Some (File text) => Ok text
       | Some Dir => Err IsADirectoryError
       | None => Err FileNotFoundError
       end.

(** [with open(p, "w") as f: f.write(text)] *)
Definition write_text (fs : filesystem) (p : path) (text : pystr)
    : result filesystem :=
  if under_a_file fs p then Err NotADirectoryError
  else match fs p with
       | Some Dir => Err IsADirectoryError
       | _ =>
           match fs (removelast p) with
           | Some Dir => Ok (fs_put fs p (File text))
           | _ => Err FileNotFoundError
           end
       end.

(** [p.mkdir(parents=True, exist_ok=True)]: every missing directory on the
    way is created; a file on the way stops it. *)
Definition mkdir_parents (fs : filesystem) (p : path) : result filesystem :=
  fold_left
    (fun acc q =>
       fs' <- acc ;;
       match fs' q with
       | Some Dir => Ok fs'
       | Some (File _) =>
           Err (if path_eqb q p then FileExistsError else NotADirectoryError)
       | None => Ok (fs_put fs' q Dir)
       end)
    (ancestors p ++ [p])
    (Ok fs).

(** [s.rfind(".")], or [-1]. *)
Fixpoint rfind_dot (s : pystr) (pos : Z) (found : Z) : Z :=
  match s with
  | [] => found
  | c :: s' => rfind_dot s' (pos + 1) (if N.eqb c 46 then pos else found)
  end.

(** [Path(p).stem]: the last component without its last suffix. *)
Definition stem (p : path) : pystr :=
  let name := last p [] in
  let i := rfind_dot name 0 (-1) in
  if (0 <? i) && (i <? len name - 1) then py_slice name 0 i else name.

(* ================================================================== *)
(** ** Lines and fields *)

(** The line boundaries of [str.splitlines]. *)
Definition is_linebreak (c : codepoint) : bool :=
  existsb (N.eqb c) [10; 11; 12; 13; 28; 29; 30; 133; 8232; 8233]%N.

(** [s.splitlines()]: [cur] holds the current line, reversed; a carriage
    return followed by a line feed is one boundary; there is no empty last
    line. *)
Fixpoint splitlines_from (cur : pystr) (s : pystr) : list pystr :=
  match s with
  | [] => match cur with [] => [] | _ => [rev cur] end
  | c :: s' =>
      if is_linebreak c then
        match s' with
        | d :: s'' =>
            if N.eqb c 13 && N.eqb d 10
            then rev cur :: splitlines_from [] s''
            else rev cur :: splitlines_from [] s'
        | [] => [rev cur]
        end
      else splitlines_from (c :: cur) s'
  end.

Definition splitlines (s : pystr) : list pystr := splitlines_from [] s.

(** [str.isspace] on one character. *)
Definition is_space (c : codepoint) : bool :=
  ((9 <=? c) && (c <=? 13) || (28 <=? c) && (c <=? 32)
   || (c =? 133) || (c =? 160) || (c =? 5760)
   || (8192 <=? c) && (c <=? 8202)
   || (c =? 8232) || (c =? 8233) || (c =? 8239) || (c =? 8287)
   || (c =? 12288))%N.

(** [s.split()]: the maximal runs of characters that are not white space. *)
Fixpoint split_from (cur : pystr) (s : pystr) : list pystr :=
  match s with
  | [] => match cur with [] => [] | _ => [rev cur] end
  | c :: s' =>
      if is_space c then
        match cur with
        | [] => split_from [] s'
        | _ => rev cur :: split_from [] s'
        end
      else split_from (c :: cur) s'
  end.

Definition split (s : pystr) : list pystr := split_from [] s.

(* ================================================================== *)
(** ** Base64 ([base64.b64encode], standard alphabet) *)

Definition b64_alphabet : pystr :=
  lit "ABCDEFGHIJKLMNOPQRSTUVWXYZabcdefghijklmnopqrstuvwxyz0123456789+/".

Definition b64_pad : codepoint := 61%N.

(** Six bits, the most significant first. *)
Inductive sextet : Type :=
| Sextet (b5 b4 b3 b2 b1 b0 : bool).

Definition sextet_index (x : sextet) : nat :=
  let 'Sextet b5 b4 b3 b2 b1 b0 := x in
  let bit (b : bool) (w : nat) : nat := if b then w else 0%nat in
  (bit b5 32 + bit b4 16 + bit b3 8 + bit b2 4 + bit b1 2 + bit b0 1)%nat.

Definition b64_char (x : sextet) : codepoint :=
  nth (sextet_index x) b64_alphabet b64_pad.

(** Three bytes make four sextets; one or two bytes left at the end are
    filled with zero bits and padded with [=]. *)
Fixpoint b64encode (data : bytes) : pystr :=
  match data with
  | [] => []
  | [Ascii a0 a1 a2 a3 a4 a5 a6 a7] =>
      [ b64_char (Sextet a7 a6 a5 a4 a3 a2);
        b64_char (Sextet a1 a0 false false false false);
        b64_pad; b64_pad ]
  | [Ascii a0 a1 a2 a3 a4 a5 a6 a7; Ascii b0 b1 b2 b3 b4 b5 b6 b7] =>
      [ b64_char (Sextet a7 a6 a5 a4 a3 a2);
        b64_char (Sextet a1 a0 b7 b6 b5 b4);
        b64_char (Sextet b3 b2 b1 b0 false false);
        b64_pad ]
  | Ascii a0 a1 a2 a3 a4 a5 a6 a7 :: Ascii b0 b1 b2 b3 b4 b5 b6 b7
      :: Ascii c0 c1 c2 c3 c4 c5 c6 c7 :: rest =>
      b64_char (Sextet a7 a6 a5 a4 a3 a2)
      :: b64_char (Sextet a1 a0 b7 b6 b5 b4)
      :: b64_char (Sextet b3 b2 b1 b0 c7 c6)
      :: b64_char (Sextet c5 c4 c3 c2 c1 c0)
      :: b64encode rest
  end.

(* ================================================================== *)
(** ** JSON ([json.dump] of a [dict] from [str] to [int], with [indent=2]
       and [ensure_ascii=False]) *)

Definition hex_digit (n : N) : codepoint :=
  nth (N.to_nat n) (lit "0123456789abcdef") 48%N.

(** What the encoder writes for one character of a string: the quote, the
    backslash and the control characters are escaped, every other
    character, ASCII or not, is written as it is. *)
Definition json_escape_char (c : codepoint) : pystr :=
  if N.eqb c 34 then [92; 34]%N
  else if N.eqb c 92 then [92; 92]%N
  else if N.eqb c 10 then lit "\n"
  else if N.eqb c 13 then lit "\r"
  else if N.eqb c 9 then lit "\t"
  else if N.eqb c 8 then lit "\b"
  else if N.eqb c 12 then lit "\f"
  else if N.ltb c 32 then lit "\u00" ++ [hex_digit (c / 16); hex_digit (c mod 16)]
  else [c].

Definition json_string (s : pystr) : pystr :=
  [34%N] ++ flat_map json_escape_char s ++ [34%N].

Definition newline : pystr := [10%N].

Definition json_dump_indent2 (d : dict pystr Z) : pystr :=
  match d with
  | [] => lit "{}"
  | _ =>
      lit "{" ++ newline ++ lit "  "
      ++ join (lit "," ++ newline ++ lit "  ")
           (map (fun kv => json_string (fst kv) ++ lit ": " ++ str_of_int (snd kv)) d)
      ++ newline ++ lit "}"
  end.

(* ================================================================== *)
(** ** The libraries

    [CoreBPE] stands for tiktoken's native object: how it cuts ordinary
    text with the pattern and merges bytes, and how it maps ids back to
    text, is not part of this module.  [pylib] gathers what the module gets
    from outside: [base64.b64decode], [int] on a [str], and the
    construction of the native object, which may reject a table. *)

Record CoreBPE : Type := {
  encode_ordinary : pystr -> option (list Z);
  decode_ids : list Z -> option pystr
}.

(** A call into the native object: [None] is a failure inside it. *)
Definition native {A} (r : option A) : result A :=
  match r with
  | Some a => Ok a
  | None => Err LibraryError
  end.

Record pylib : Type := {
  b64decode : pystr -> result bytes;
  int_of_str : pystr -> result Z;
  CoreBPE_new : pystr -> dict bytes Z -> dict pystr Z -> result CoreBPE
}.

(* ================================================================== *)
(** ** [tiktoken.core.Encoding]

    The part of tiktoken that the module calls: the Python wrapper with
    its check for disallowed special tokens, and the way the core cuts a
    text at the special tokens that are allowed. *)

Record Encoding : Type := {
  name : pystr;
  pat_str : pystr;
  _mergeable_ranks : dict bytes Z;
  _special_tokens : dict pystr Z;
  _core_bpe : CoreBPE
}.

Definition special_tokens_set (enc : Encoding) : list pystr :=
  dict_keys (_special_tokens enc).

Definition mem (x : pystr) (set : list pystr) : bool :=
  existsb (pystr_eqb x) set.

Fixpoint is_prefix (p s : pystr) : bool :=
  match p, s with
  | [], _ => true
  | x :: p', y :: s' => N.eqb x y && is_prefix p' s'
  | _ :: _, [] => false
  end.

(** The alternation of the escaped literals, tried at the head of [s]: the
    first literal, in the order of [literals], that [s] starts with. *)
Definition match_literal (literals : list pystr) (s : pystr) : option pystr :=
  find (fun t => is_prefix t s) literals.

(** The leftmost occurrence of one of [literals] in [s]. *)
Fixpoint search_literal (literals : list pystr) (s : pystr) : option pystr :=
  match match_literal literals s with
  | Some t => Some t
  | None =>
      match s with
      | [] => None
      | _ :: s' => search_literal literals s'
      end
  end.

(** The native core looks for the next special token that is allowed: an
    occurrence of a special token that is not allowed is passed over by
    one character.  The result is the text before the token, the token and
    the text after it. *)
Fixpoint next_allowed (specials allowed : list pystr) (s : pystr)
    : option (pystr * pystr * pystr) :=
  let pass_over :=
    match s with
    | [] => None
    | c :: s' =>
        match next_allowed specials allowed s' with
        | Some (before, t, rest) => Some (c :: before, t, rest)
        | None => None
        end
    end in
  match match_literal specials s with
  | Some t =>
      if mem t allowed then Some ([], t, skipn (length t) s)
      else pass_over
  | None => pass_over
  end.

(** [_core_bpe.encode(text, allowed_special)]: ordinary text between the
    allowed special tokens, each special token as its id.  [fuel] bounds
    the number of special tokens emitted; the length of the text is
    enough, a special token being at least one character long. *)
Fixpoint core_encode (fuel : nat) (enc : Encoding) (allowed : list pystr)
    (text : pystr) : result (list Z) :=
  match next_allowed (dict_keys (_special_tokens enc)) allowed text with
  | None => native (encode_ordinary (_core_bpe enc) text)
  | Some (before, t, rest) =>
      ids <- native (encode_ordinary (_core_bpe enc) before) ;;
      id <- dict_get pystr_eqb (_special_tokens enc) t ;;
      match fuel with
      | O => Err LibraryError
      | S fuel' =>
          more <- core_encode fuel' enc allowed rest ;;
          Ok (ids ++ id :: more)
      end
  end.

Definition is_empty {A} (l : list A) : bool :=
  match l with [] => true | _ => false end.

(** [Encoding.encode(text, allowed_special=..., disallowed_special=...)]
    with both arguments given as sets: a non-empty [disallowed_special] is
    searched for in the text first. *)
Definition Encoding_encode (enc : Encoding) (text : pystr)
    (allowed_special disallowed_special : list pystr) : result (list Z) :=
  if negb (is_empty disallowed_special) then
    match search_literal disallowed_special text with
    | Some _ => Err DisallowedSpecialToken
    | None => core_encode (length text) enc allowed_special text
    end
  else core_encode (length text) enc allowed_special text.

(** [Encoding.encode_batch]: each element is encoded on its own; an element
    that is not a [str] is a TypeError. *)
Definition Encoding_encode_batch (enc : Encoding) (text : list pyval)
    (allowed_special disallowed_special : list pystr)
    : result (list (list Z)) :=
  mapM (fun v =>
          match v with
          | VStr s => Encoding_encode enc s allowed_special disallowed_special
          | _ => Err TypeError
          end) text.

Definition Encoding_decode (enc : Encoding) (tokens : list Z) : result pystr :=
  native (decode_ids (_core_bpe enc) tokens).

(** What iterating a value gives, where the value can be iterated. *)
Definition iterate (v : pyval) : result (list pyval) :=
  match v with
  | VList l => Ok l
  | VTuple l => Ok l
  | VStr s => Ok (map (fun c => VStr [c]) s)
  | VBytes b => Ok (map (fun c => VInt (Z.of_N (N_of_ascii c))) b)
  | _ => Err TypeError
  end.

(* ================================================================== *)
(** ** [class FishTokenizer] *)

Record FishTokenizer : Type := {
  all_special_tokens_with_ids : dict pystr Z;
  semantic_id_to_token_id : dict Z Z;
  semantic_begin_id : Z;
  semantic_end_id : Z;
  tkt_model : Encoding
}.

(** The instance, where only its being an argument matters. *)
Definition self_object : pyval := VObject "FishTokenizer".

(** [allowed_special: bool | set[str]] *)
Inductive allowed_arg : Type :=
| AllowedBool (b : bool)
| AllowedSet (names : list pystr).

Definition allowed_value (a : allowed_arg) : pyval :=
  match a with
  | AllowedBool b => VBool b
  | AllowedSet _ => VObject "set"
  end.

(** *** [load_tiktoken_bpe] (lines 86 to 93)

    In [data[base64.b64decode(token)] = int(rank)] the right-hand side is
    evaluated first. *)
Definition load_tiktoken_bpe_params : list string := ["tiktoken_bpe_file"]%string.

Definition load_tiktoken_bpe (L : pylib) (fs : filesystem)
    (tiktoken_bpe_file : path) : result (dict bytes Z) :=
  text <- read_text fs tiktoken_bpe_file ;;
  fold_left
    (fun acc line =>
       data <- acc ;;
       if is_empty line then Ok data
       else
         match split line with
         | [token; rank] =>
             r <- int_of_str L rank ;;
             t <- b64decode L token ;;
             Ok (dict_set bytes_eqb data t r)
         | _ => Err ValueError
         end)
    (splitlines text)
    (Ok []).

(** *** [__init__] (lines 66 to 84)

    [init_registry] is the constructor from line 68 on, once
    [mergeable_ranks] is there. *)
Definition __init___params : list string := ["self"; "model_path"]%string.

Definition init_registry (L : pylib) (mergeable_ranks : dict bytes Z)
    (model_path : path) : result FishTokenizer :=
  let special_token_begin := len mergeable_ranks in
  let all_special_tokens_with_ids :=
    fold_left
      (fun d it => dict_set pystr_eqb d (snd it) (special_token_begin + fst it))
      (enumerate ALL_SPECIAL_TOKENS) [] in
  semantic_id_to_token_id <-
    fold_left
      (fun acc it =>
         d <- acc ;;
         id <- dict_get pystr_eqb all_special_tokens_with_ids (snd it) ;;
         Ok (dict_set Z.eqb d (fst it) id))
      (enumerate SEMANTIC_TOKENS) (Ok []) ;;
  first <- py_index SEMANTIC_TOKENS 0 ;;
  semantic_begin_id <- dict_get pystr_eqb all_special_tokens_with_ids first ;;
  last <- py_index SEMANTIC_TOKENS (-1) ;;
  semantic_end_id <- dict_get pystr_eqb all_special_tokens_with_ids last ;;
  core <- CoreBPE_new L FISH_TIKTOKEN_PATTERN mergeable_ranks
            all_special_tokens_with_ids ;;
  Ok {| all_special_tokens_with_ids := all_special_tokens_with_ids;
        semantic_id_to_token_id := semantic_id_to_token_id;
        semantic_begin_id := semantic_begin_id;
        semantic_end_id := semantic_end_id;
        tkt_model :=
          {| name := stem model_path;
             pat_str := FISH_TIKTOKEN_PATTERN;
             _mergeable_ranks := mergeable_ranks;
             _special_tokens := all_special_tokens_with_ids;
             _core_bpe := core |} |}.

Definition __init__ (L : pylib) (fs : filesystem) (model_path : path)
    : result FishTokenizer :=
  mergeable_ranks <-
    call load_tiktoken_bpe_params [self_object; VPath model_path]
      (load_tiktoken_bpe L fs model_path) ;;
  init_registry L mergeable_ranks model_path.

(** [FishTokenizer(model_path)] *)
Definition FishTokenizer_new (L : pylib) (fs : filesystem) (model_path : path)
    : result FishTokenizer :=
  call __init___params [self_object; VPath model_path] (__init__ L fs model_path).

(** *** [get_token_id] (lines 95 and 96) *)
Definition get_token_id (self : FishTokenizer) (token : pystr) : result Z :=
  dict_get pystr_eqb (all_special_tokens_with_ids self) token.

(** *** [convert_tokens_to_ids] (lines 104 to 115)

    The argument of [encode_batch] is the name [subs], which the function
    neither receives nor assigns: it is read from the module namespace.
    The parameter [tokens] is not used. *)
Definition convert_tokens_to_ids_params : list string :=
  ["self"; "tokens"; "allowed_special"]%string.

Definition convert_tokens_to_ids (extra : namespace) (self : FishTokenizer)
    (tokens : pyval) (allowed_special : allowed_arg) : result (list Z) :=
  let allowed_special :=
    match allowed_special with
    | AllowedBool true => special_tokens_set (tkt_model self)
    | AllowedBool false => []
    | AllowedSet names => names
    end in
  subs <- load_global extra "subs" ;;
  texts <- iterate subs ;;
  batches <- Encoding_encode_batch (tkt_model self) texts allowed_special [] ;;
  Ok (concat batches).

(** *** [encode] (lines 117 to 126)

    [optimized] is Python's [-O], under which the [assert] is not run; the
    [return] then finds [ids] unbound. *)
Definition encode (extra : namespace) (optimized : bool) (self : FishTokenizer)
    (text : pyval) (allowed_special : allowed_arg) : result (list Z) :=
  if isinstance_str text then
    tokens <-
      call tokenize_params [self_object; text]
        (match text with
         | VStr s => Ok (VList (map VStr (tokenize s)))
         | _ => Err TypeError
         end) ;;
    call convert_tokens_to_ids_params
      [self_object; tokens; allowed_value allowed_special]
      (convert_tokens_to_ids extra self tokens allowed_special)
  else if isinstance_list text then
    call convert_tokens_to_ids_params
      [self_object; text; allowed_value allowed_special]
      (convert_tokens_to_ids extra self text allowed_special)
  else if optimized then Err UnboundLocalError
  else if isinstance_str text && isinstance_list text then Err UnboundLocalError
  else Err AssertionError.

(** *** [decode] (lines 128 and 129) *)
Definition decode (self : FishTokenizer) (tokens : list Z) : result pystr :=
  Encoding_decode (tkt_model self) tokens.

(** *** [save_pretrained] (lines 131 to 145) *)
Definition model_line (entry : bytes * Z) : pystr :=
  b64encode (fst entry) ++ lit " " ++ str_of_int (snd entry) ++ newline.

Definition save_pretrained (self : FishTokenizer) (fs : filesystem)
    (save_directory : path) : result filesystem :=
  let path := save_directory in
  fs <- mkdir_parents fs path ;;
  fs <- write_text fs (path ++ [lit "tokenizer.tiktoken"])
          (concat (map model_line (_mergeable_ranks (tkt_model self)))) ;;
  write_text fs (path ++ [lit "special_tokens.json"])
    (json_dump_indent2 (all_special_tokens_with_ids self)).

(** *** [from_pretrained] (lines 147 to 152)

    The function has no [self] and is called on the class.  It reads the
    name [os], which the file does not import. *)
Definition from_pretrained (L : pylib) (extra : namespace) (fs : filesystem)
    (pretrained_model_name_or_path : path) : result FishTokenizer :=
  _ <- load_global extra "Path" ;;
  let path := pretrained_model_name_or_path in
  os <- load_global extra "os" ;;
  is_file <-
    match os with
    | VModule "os" => Ok (isfile fs path)
    | _ => Err AttributeError
    end ;;
  if is_file then FishTokenizer_new L fs path
  else FishTokenizer_new L fs (path ++ [lit "tokenizer.tiktoken"]).

(* ================================================================== *)
(** ** A reference instance of the libraries

    Strict readers for the two text formats that [save_pretrained] writes
    (standard Base64, decimal integers), and a native core without merges
    whose tokens are single bytes.  They stand for the Python and tiktoken
    functions on the inputs used in the examples below. *)

Fixpoint index_of (c : codepoint) (l : pystr) (i : nat) : option nat :=
  match l with
  | [] => None
  | x :: l' => if N.eqb x c then Some i else index_of c l' (S i)
  end.

Definition sextet_of_index (n : nat) : sextet :=
  let m := N.of_nat n in
  Sextet (N.testbit m 5) (N.testbit m 4) (N.testbit m 3)
         (N.testbit m 2) (N.testbit m 1) (N.testbit m 0).

Definition b64_value (c : codepoint) : option sextet :=
  option_map sextet_of_index (index_of c b64_alphabet 0).

Fixpoint b64decode_strict (s : pystr) : result bytes :=
  match s with
  | [] => Ok []
  | c1 :: c2 :: c3 :: c4 :: rest =>
      match b64_value c1, b64_value c2 with
      | Some (Sextet a7 a6 a5 a4 a3 a2), Some (Sextet a1 a0 b7 b6 b5 b4) =>
          let a := Ascii a0 a1 a2 a3 a4 a5 a6 a7 in
          if N.eqb c3 b64_pad && N.eqb c4 b64_pad && is_empty rest
          then Ok [a]
          else
            match b64_value c3 with
            | Some (Sextet b3 b2 b1 b0 c7 c6) =>
                let b := Ascii b0 b1 b2 b3 b4 b5 b6 b7 in
                if N.eqb c4 b64_pad && is_empty rest then Ok [a; b]
                else
                  match b64_value c4 with
                  | Some (Sextet c5 c4' c3' c2' c1' c0) =>
                      let c := Ascii c0 c1' c2' c3' c4' c5 c6 c7 in
                      more <- b64decode_strict rest ;;
                      Ok (a :: b :: c :: more)
                  | None => Err BinasciiError
                  end
            | None => Err BinasciiError
            end
      | _, _ => Err BinasciiError
      end
  | _ => Err BinasciiError
  end.

(** A [str] of characters below 256 as a Rocq string. *)
Fixpoint string_of_pystr (s : pystr) : option string :=
  match s with
  | [] => Some EmptyString
  | c :: s' =>
      if (c <? 256)%N
      then option_map (String (ascii_of_N c)) (string_of_pystr s')
      else None
  end.

(** An optional minus sign and decimal digits, at least one. *)
Definition int_of_str_strict (s : pystr) : result Z :=
  match string_of_pystr s with
  | Some digits =>
      match NilZero.int_of_string digits with
      | Some d => Ok (Z.of_int d)
      | None => Err ValueError
      end
  | None => Err ValueError
  end.

Fixpoint map_option {A B} (f : A -> option B) (xs : list A) : option (list B) :=
  match xs with
  | [] => Some []
  | x :: xs' =>
      match f x, map_option f xs' with
      | Some y, Some ys => Some (y :: ys)
      | _, _ => None
      end
  end.

Definition single_byte_core (ranks : dict bytes Z) (specials : dict pystr Z)
    : CoreBPE :=
  {| encode_ordinary := fun text =>
       map_option
         (fun c =>
            if (c <? 128)%N then
              match dict_get bytes_eqb ranks [ascii_of_N c] with
              | Ok r => Some r
              | Err _ => None
              end
            else None) text;
     decode_ids := fun ids =>
       option_map (@concat codepoint)
         (map_option
            (fun id =>
               match find (fun kv => Z.eqb (snd kv) id) ranks with
               | Some (b, _) => Some (map N_of_ascii b)
               | None =>
                   match find (fun kv => Z.eqb (snd kv) id) specials with
                   | Some (t, _) => Some t
                   | None => None
                   end
               end) ids) |}.

Definition reference_lib : pylib :=
  {| b64decode := b64decode_strict;
     int_of_str := int_of_str_strict;
     CoreBPE_new := fun _ ranks specials =>
       if is_empty ranks then Err ValueError
       else Ok (single_byte_core ranks specials) |}.

(** A model file with an empty line in it, and the file system that
    holds it as [model/tokenizer.tiktoken].  Its tokens are the bytes
    [a b < | p d >]. *)
Definition sample_model_text : pystr :=
  lit "YQ== 0" ++ newline ++ newline
  ++ lit "Yg== 1" ++ newline
  ++ lit "PA== 2" ++ newline
  ++ lit "fA== 3" ++ newline
  ++ lit "cA== 4" ++ newline
  ++ lit "ZA== 5" ++ newline
  ++ lit "Pg== 6" ++ newline.

Definition sample_dir : path := [lit "model"].

Definition sample_file : path := [lit "model"; lit "tokenizer.tiktoken"].

Definition sample_fs : filesystem :=
  fs_put (fs_put (fun _ => None) sample_dir Dir) sample_file
    (File sample_model_text).

Definition sample_ranks : dict bytes Z :=
  [ (["a"%char], 0); (["b"%char], 1); (["<"%char], 2); (["|"%char], 3);
    (["p"%char], 4); (["d"%char], 5); ([">"%char], 6) ].

(* ================================================================== *)
(** ** Definitions used in the statements *)

(** The [k]-th window of [m] elements of a list. *)
Definition window {A} (m : nat) (l : list A) (k : nat) : list A :=
  firstn m (skipn (k * m) l).

(** [tokenize] with the chunk size as a parameter. *)
Definition chunks_of (M : Z) (text : pystr) : list pystr :=
  fold_left (fun subs i => subs ++ [py_slice text i (i + M)])
    (py_range 0 (len text) M) [].

Definition chunk_count (M : Z) (text : pystr) : nat :=
  Z.to_nat ((len text + M - 1) / M).

(** The exceptions a result may carry are among [es]. *)
Definition raises_only {A} (es : list pyexn) (r : result A) : Prop :=
  forall e, r = Err e -> In e es.

(** What the tiktoken call of [convert_tokens_to_ids] can raise. *)
Definition conversion_errors : list pyexn :=
  [TypeError; NameError; KeyError; LibraryError].

(** [allowed_special] as the set that reaches tiktoken. *)
Definition allowed_set (tk : FishTokenizer) (a : allowed_arg) : list pystr :=
  match a with
  | AllowedBool true => special_tokens_set (tkt_model tk)
  | AllowedBool false => []
  | AllowedSet names => names
  end.

(** A namespace in which the name [subs] is bound. *)
Definition with_subs (subs : pyval) : namespace := [("subs"%string, subs)].

(** A text of 400001 characters. *)
Definition long_text : pystr := repeat 97%N (Z.to_nat 400001).

(** A line of the model file without its end. *)
Definition line_body (entry : bytes * Z) : pystr :=
  b64encode (fst entry) ++ lit " " ++ str_of_int (snd entry).

(** The loop of [load_tiktoken_bpe] over the lines, from the table [acc]. *)
Definition load_lines (L : pylib) (lines : list pystr)
    (acc : result (dict bytes Z)) : result (dict bytes Z) :=
  fold_left
    (fun acc line =>
       data <- acc ;;
       if is_empty line then Ok data
       else
         match split line with
         | [token; rank] =>
             r <- int_of_str L rank ;;
             t <- b64decode L token ;;
             Ok (dict_set bytes_eqb data t r)
         | _ => Err ValueError
         end)
    lines acc.

Definition no_space (s : pystr) : bool :=
  forallb (fun c => negb (is_space c)) s.

Definition no_linebreak (s : pystr) : bool :=
  forallb (fun c => negb (is_linebreak c)) s.

Definition is_dir_node (o : option node) : bool :=
  match o with Some Dir => true | _ => false end.

Definition model_file_of (dir : path) : path := dir ++ [lit "tokenizer.tiktoken"].

Definition json_file_of (dir : path) : path := dir ++ [lit "special_tokens.json"].

(** [save_pretrained] can write below [dir]: no file stands where a
    directory is needed, no directory where a file is written. *)
Definition save_ready (fs : filesystem) (dir : path) : bool :=
  forallb (fun q => negb (is_file_node (fs q))) (ancestors dir ++ [dir])
  && negb (is_dir_node (fs (model_file_of dir)))
  && negb (is_dir_node (fs (json_file_of dir))).

(** The text of [special_tokens.json] for a merge table of [B] entries:
    one entry a line, two spaces in front, in the order of
    [ALL_SPECIAL_TOKENS]. *)
Definition special_tokens_json (B : Z) : pystr :=
  lit "{" ++ newline
  ++ join (lit "," ++ newline)
       (map (fun it => lit "  " ++ [34%N] ++ snd it ++ [34%N] ++ lit ": "
                       ++ str_of_int (B + fst it))
          (enumerate ALL_SPECIAL_TOKENS))
  ++ newline ++ lit "}".

(** The characters that the JSON encoder writes as they are. *)
Definition json_plain (s : pystr) : bool :=
  forallb (fun c => pystr_eqb (json_escape_char c) [c]) s.

Definition out_dir : path := [lit "out"].

(** The model file that [save_pretrained] writes for [sample_ranks]. *)
Definition sample_saved_text : pystr :=
  lit "YQ== 0" ++ newline
  ++ lit "Yg== 1" ++ newline
  ++ lit "PA== 2" ++ newline
  ++ lit "fA== 3" ++ newline
  ++ lit "cA== 4" ++ newline
  ++ lit "ZA== 5" ++ newline
  ++ lit "Pg== 6" ++ newline.

(** No literal of [l] is a proper prefix of another. *)
Definition prefix_free (l : list pystr) : bool :=
  forallb (fun s => forallb (fun t => implb (is_prefix t s) (pystr_eqb t s)) l) l.

Fixpoint nodupb (l : list pystr) : bool :=
  match l with
  | [] => true
  | x :: r => negb (mem x r) && nodupb r
  end.

(** The dictionary of line 69 for a merge table of [B] entries. *)
Definition registry (B : Z) : dict pystr Z :=
  map (fun it => (snd it, B + fst it)) (enumerate ALL_SPECIAL_TOKENS).

(** The dictionary of line 72. *)
Definition semantic_ids (B : Z) : dict Z Z :=
  fold_left (fun d it => dict_set Z.eqb d (fst it) (B + 12 + fst it))
    (enumerate SEMANTIC_TOKENS) [].

(** The tokenizer that lines 68 to 84 build from a merge table. *)
Definition tokenizer_of (mergeable_ranks : dict bytes Z) (model_path : path)
    (core : CoreBPE) : FishTokenizer :=
  {| all_special_tokens_with_ids := registry (len mergeable_ranks);
     semantic_id_to_token_id := semantic_ids (len mergeable_ranks);
     semantic_begin_id := len mergeable_ranks + 12;
     semantic_end_id := len mergeable_ranks + 1035;
     tkt_model :=
       {| name := stem model_path;
          pat_str := FISH_TIKTOKEN_PATTERN;
          _mergeable_ranks := mergeable_ranks;
          _special_tokens := registry (len mergeable_ranks);
          _core_bpe := core |} |}.

Definition sample_tokenizer : FishTokenizer :=
  tokenizer_of sample_ranks sample_file
    (single_byte_core sample_ranks (registry (len sample_ranks))).

(** The lines of a model file that the loader does not skip. *)
Definition nonempty_lines (text : pystr) : list pystr :=
  filter (fun l => negb (is_empty l)) (splitlines text).

(** What the conversion can raise, whatever the tokenizer. *)
Definition reachable_errors : list pyexn := [TypeError; NameError; LibraryError].

(** No character of the text is [<], with which every special token
    starts. *)
Definition no_angle (s : pystr) : bool :=
  forallb (fun c => negb (N.eqb c 60)) s.

(** The native core reads back what it wrote. *)
Definition core_round_trip (core : CoreBPE) : Prop :=
  decode_ids core [] = Some []
  /\ (forall (s : pystr) ids,
        encode_ordinary core s = Some ids -> decode_ids core ids = Some s)
  /\ (forall a b (a' b' : pystr),
        decode_ids core a = Some a' -> decode_ids core b = Some b' ->
        decode_ids core (a ++ b) = Some (a' ++ b')).

(** The sample model file once more, under another name and already in the
    form in which it is saved. *)
Definition sample_saved_file : path := [lit "model"; lit "saved.tiktoken"].

Definition sample_fs_two : filesystem :=
  fs_put sample_fs sample_saved_file (File sample_saved_text).

(** A model file whose second line has one field only. *)
Definition sample_bad_text : pystr :=
  lit "YQ== 0" ++ newline ++ lit "Yg==" ++ newline ++ lit "PA== 2" ++ newline.

Definition sample_bad_fs : filesystem :=
  fs_put (fs_put (fun _ => None) sample_dir Dir) sample_file
    (File sample_bad_text).

(** A table with an empty token. *)
Definition sample_ranks_empty_token : dict bytes Z :=
  [ (["a"%char], 0); ([], 1); (["b"%char], 2) ].

(** The tokenizer of that table. *)
Definition sample_tokenizer_empty_token : FishTokenizer :=
  tokenizer_of sample_ranks_empty_token sample_file
    (single_byte_core sample_ranks_empty_token
       (registry (len sample_ranks_empty_token))).

(** A model file whose second line has neither a Base64 token nor a
    rank, and the file system that holds it. *)
Definition sample_bad_rank_text : pystr :=
  lit "YQ== 0" ++ newline ++ lit "!! x" ++ newline.

Definition sample_bad_rank_fs : filesystem :=
  fs_put (fs_put (fun _ => None) sample_dir Dir) sample_file
    (File sample_bad_rank_text).

(** In the sample file system [model/tokenizer.tiktoken] is a file: a
    directory cannot be made in its place. *)
Definition blocked_dir : path := sample_file.

Arguments ALL_SPECIAL_TOKENS : simpl never.
Arguments SEMANTIC_TOKENS : simpl never.
Arguments SEMANTIC_TOKEN_TEMPLATE : simpl never.
Arguments FISH_TIKTOKEN_PATTERN : simpl never.
Arguments registry : simpl never.
Arguments semantic_ids : simpl never.
Arguments TIKTOKEN_MAX_ENCODE_CHARS : simpl never.
Arguments tokenize : simpl never.

(* ================================================================== *)
(** * Theorems *)

Unset Implicit Arguments.

(* ================================================================== *)
(** * Chunking *)

Section Windows.
Context {A : Type}.
Implicit Types l : list A.

Lemma fold_left_snoc_map {B : Type} (f : B -> list A) (xs : list B)
    (start : list (list A)) :
  fold_left (fun subs i => subs ++ [f i]) xs start = start ++ map f xs.
Proof.
  revert start. induction xs as [|x xs IH]; intros start; simpl.
  - now rewrite app_nil_r.
  - rewrite IH, <- app_assoc. reflexivity.
Qed.

Lemma window_succ m l k : window m l (S k) = window m (skipn m l) k.
Proof.
  unfold window. rewrite skipn_skipn. f_equal. f_equal. lia.
Qed.

Lemma concat_windows m (Hm : (0 < m)%nat) :
  forall K l, (length l <= K * m)%nat ->
    concat (map (window m l) (seq 0 K)) = l.
Proof.
  induction K as [|K IH]; intros l Hl.
  - destruct l; [reflexivity | simpl in Hl; lia].
  - rewrite <- cons_seq, <- seq_shift. cbn [map concat]. rewrite map_map.
    rewrite (map_ext _ (window m (skipn m l))) by (intros; apply window_succ).
    rewrite IH.
    + unfold window. simpl. apply firstn_skipn.
    + rewrite length_skipn. lia.
Qed.

Lemma length_window m l k :
  length (window m l k) = Nat.min m (length l - k * m).
Proof. unfold window. now rewrite length_firstn, length_skipn. Qed.

Lemma py_slice_window l (M : Z) (k : nat) :
  0 < M ->
  py_slice l (Z.of_nat k * M) (Z.of_nat k * M + M) = window (Z.to_nat M) l k.
Proof.
  intros HM. unfold py_slice, window. f_equal; [f_equal; lia|].
  f_equal. lia.
Qed.
End Windows.

Lemma chunks_of_windows M text :
  0 < M ->
  chunks_of M text = map (window (Z.to_nat M) text) (seq 0 (chunk_count M text)).
Proof.
  intros HM. unfold chunks_of, py_range, chunk_count.
  rewrite fold_left_snoc_map. simpl. rewrite map_map.
  replace (len text - 0 + M - 1) with (len text + M - 1) by lia.
  apply map_ext. intros k. simpl. apply py_slice_window. exact HM.
Qed.

Lemma chunk_count_covers M (text : pystr) :
  0 < M -> (length text <= chunk_count M text * Z.to_nat M)%nat.
Proof.
  intros HM. unfold chunk_count, len.
  pose proof (Z.mul_succ_div_gt (Z.of_nat (length text) + M - 1) M HM).
  assert (0 <= (Z.of_nat (length text) + M - 1) / M)
    by (apply Z.div_pos; lia).
  nia.
Qed.

Lemma chunk_count_tight M (text : pystr) k :
  0 < M -> (S k < chunk_count M text)%nat ->
  (S k * Z.to_nat M < length text)%nat.
Proof.
  intros HM Hk. unfold chunk_count, len in Hk.
  pose proof (Z.mul_div_le (Z.of_nat (length text) + M - 1) M HM).
  nia.
Qed.

Lemma chunks_of_spec M text :
  0 < M ->
  concat (chunks_of M text) = text
  /\ (forall k, (k < length (chunks_of M text))%nat ->
        nth k (chunks_of M text) [] =
        py_slice text (Z.of_nat k * M) (Z.of_nat k * M + M))
  /\ Forall (fun c => len c <= M) (chunks_of M text)
  /\ (forall k, (S k < length (chunks_of M text))%nat ->
        len (nth k (chunks_of M text) []) = M).
Proof.
  intros HM. rewrite (chunks_of_windows M text HM).
  set (m := Z.to_nat M). set (K := chunk_count M text).
  assert (Hlen : length (map (window m text) (seq 0 K)) = K)
    by now rewrite length_map, length_seq.
  assert (Hnth : forall k, (k < K)%nat ->
            nth k (map (window m text) (seq 0 K)) [] = window m text k).
  { intros k Hk.
    rewrite (nth_indep _ [] (window m text 0%nat))
      by (rewrite Hlen; exact Hk).
    rewrite map_nth, seq_nth by exact Hk. reflexivity. }
  repeat split.
  - apply concat_windows; [subst m; lia | apply chunk_count_covers; exact HM].
  - intros k Hk. assert (Hk' : (k < K)%nat) by (rewrite <- Hlen; exact Hk).
    rewrite Hnth by exact Hk'.
    symmetry. apply py_slice_window. exact HM.
  - apply Forall_forall. intros c Hc. apply in_map_iff in Hc.
    destruct Hc as (k & <- & _). unfold len. rewrite length_window. subst m. lia.
  - intros k Hk. assert (Hk' : (S k < K)%nat) by (rewrite <- Hlen; exact Hk).
    rewrite Hnth by lia.
    unfold len. rewrite length_window.
    pose proof (chunk_count_tight M text k HM Hk'). subst m. lia.
Qed.

(** C6.  For every text, the chunks that [tokenize] returns, concatenated in
    order, give the text back; the [k]-th chunk is the slice of the text
    from [k * 400000] to [(k + 1) * 400000], so that the chunks follow one
    another without overlap or gap; every chunk has at most 400000
    characters, and every chunk except possibly the last has exactly
    400000. *)
Theorem C6_tokenize_partitions_text (text : pystr) :
  concat (tokenize text) = text
  /\ (forall k, (k < length (tokenize text))%nat ->
        nth k (tokenize text) [] =
        py_slice text (Z.of_nat k * TIKTOKEN_MAX_ENCODE_CHARS)
          (Z.of_nat k * TIKTOKEN_MAX_ENCODE_CHARS + TIKTOKEN_MAX_ENCODE_CHARS))
  /\ Forall (fun chunk => len chunk <= 400000) (tokenize text)
  /\ (forall k, (S k < length (tokenize text))%nat ->
        len (nth k (tokenize text) []) = 400000).
Proof.
  exact (chunks_of_spec TIKTOKEN_MAX_ENCODE_CHARS text eq_refl).
Qed.

(* ================================================================== *)
(** * Results *)

Lemma bind_Ok_inv {A B} (r : result A) (k : A -> result B) (b : B) :
  bind r k = Ok b -> exists a, r = Ok a /\ k a = Ok b.
Proof. destruct r as [a|e]; simpl; [|discriminate]. intros H. now exists a. Qed.

Lemma Ok_inj {A} (a b : A) : Ok a = Ok b -> a = b.
Proof. intros H. injection H as H. exact H. Qed.

(* ================================================================== *)
(** * Strings *)

Lemma pystr_eqb_eq (a b : pystr) : pystr_eqb a b = true <-> a = b.
Proof.
  revert b. induction a as [|x a IH]; destruct b as [|y b]; simpl;
    try (split; [discriminate | discriminate]); try tauto.
  rewrite andb_true_iff, N.eqb_eq, IH. split.
  - intros [-> ->]. reflexivity.
  - intros [= -> ->]. tauto.
Qed.

Lemma pystr_eqb_refl (a : pystr) : pystr_eqb a a = true.
Proof. now apply pystr_eqb_eq. Qed.

Lemma mem_In (x : pystr) (l : list pystr) : mem x l = true <-> In x l.
Proof.
  unfold mem. rewrite existsb_exists. split.
  - intros (y & Hy & E). apply pystr_eqb_eq in E. now subst.
  - intros H. exists x. split; [exact H | apply pystr_eqb_refl].
Qed.

Lemma nodupb_NoDup (l : list pystr) : nodupb l = true -> NoDup l.
Proof.
  induction l as [|x r IH]; simpl; intros H; constructor.
  - apply andb_true_iff in H. destruct H as [H _].
    apply negb_true_iff in H. intros Hin. apply mem_In in Hin. congruence.
  - apply IH. apply andb_true_iff in H. tauto.
Qed.

(* ================================================================== *)
(** * Dictionaries *)

Section DictFacts.
Context {K V : Type}.
Variable eqb : K -> K -> bool.
Hypothesis eqb_eq : forall x y, eqb x y = true <-> x = y.

Lemma eqb_neq x y : x <> y -> eqb x y = false.
Proof.
  intros H. destruct (eqb x y) eqn:E; [|reflexivity].
  apply eqb_eq in E. contradiction.
Qed.

Lemma dict_set_fresh (d : dict K V) k v :
  ~ In k (dict_keys d) -> dict_set eqb d k v = d ++ [(k, v)].
Proof.
  induction d as [|[k' v'] d IH]; simpl; intros H; [reflexivity|].
  rewrite eqb_neq by tauto. rewrite IH by tauto. reflexivity.
Qed.

Lemma dict_set_keys (d : dict K V) k v :
  dict_keys (dict_set eqb d k v)
  = if existsb (fun k' => eqb k' k) (dict_keys d) then dict_keys d
    else dict_keys d ++ [k].
Proof.
  induction d as [|[k' v'] d IH]; simpl; [reflexivity|].
  destruct (eqb k' k); simpl; [reflexivity|].
  unfold dict_keys in *. rewrite IH.
  now destruct (existsb _ _).
Qed.

Lemma dict_set_NoDup (d : dict K V) k v :
  NoDup (dict_keys d) -> NoDup (dict_keys (dict_set eqb d k v)).
Proof.
  intros Hnd. rewrite dict_set_keys.
  destruct (existsb _ _) eqn:E; [exact Hnd|].
  apply NoDup_app; [exact Hnd | repeat constructor; simpl; tauto |].
  intros x Hx [<-|[]].
  assert (existsb (fun k' => eqb k' k) (dict_keys d) = true); [|congruence].
  apply existsb_exists. exists k. split; [exact Hx | now apply eqb_eq].
Qed.

Lemma dict_get_fresh (d : dict K V) k :
  ~ In k (dict_keys d) -> dict_get eqb d k = Err KeyError.
Proof.
  induction d as [|[k' v'] d IH]; simpl; intros H; [reflexivity|].
  rewrite eqb_neq by tauto. apply IH. tauto.
Qed.

Lemma dict_get_In (d : dict K V) k v :
  NoDup (dict_keys d) -> In (k, v) d -> dict_get eqb d k = Ok v.
Proof.
  induction d as [|[k' v'] d IH]; simpl; intros Hnd Hin; [contradiction|].
  inversion Hnd as [|? ? Hk' Hnd']; subst.
  destruct Hin as [[= -> ->] | Hin].
  - now rewrite (proj2 (eqb_eq k k) eq_refl).
  - rewrite eqb_neq; [now apply IH|].
    intros ->. apply Hk'. apply in_map_iff. now exists (k, v).
Qed.

(** A comprehension [{key(x): value(x) for x in xs}] whose keys are all
    different lists its items in the order of [xs]. *)
Lemma comprehension_distinct {X : Type} (key : X -> K) (value : X -> V)
    (xs : list X) (d : dict K V) :
  NoDup (dict_keys d ++ map key xs) ->
  fold_left (fun d x => dict_set eqb d (key x) (value x)) xs d
  = d ++ map (fun x => (key x, value x)) xs.
Proof.
  revert d. induction xs as [|x xs IH]; intros d Hnd; simpl.
  - now rewrite app_nil_r.
  - assert (Hx : ~ In (key x) (dict_keys d)).
    { intros Hin. simpl in Hnd. apply NoDup_remove_2 in Hnd.
      apply Hnd. apply in_or_app. now left. }
    rewrite dict_set_fresh by exact Hx. rewrite IH.
    + now rewrite <- app_assoc.
    + unfold dict_keys in *. rewrite map_app. simpl.
      rewrite <- app_assoc. exact Hnd.
Qed.

(** The same when each value is itself looked up, and every lookup
    succeeds. *)
Lemma fold_lookup_total {X : Type} (key : X -> K) (get : X -> result V)
    (value : X -> V) (xs : list X) (d : dict K V) :
  (forall x, In x xs -> get x = Ok (value x)) ->
  fold_left
    (fun acc x => d <- acc ;; v <- get x ;; Ok (dict_set eqb d (key x) v))
    xs (Ok d)
  = Ok (fold_left (fun d x => dict_set eqb d (key x) (value x)) xs d).
Proof.
  revert d. induction xs as [|x xs IH]; intros d Hget; simpl; [reflexivity|].
  rewrite (Hget x) by now left. simpl. apply IH.
  intros y Hy. apply Hget. now right.
Qed.
End DictFacts.

Lemma enumerate_from_In {A} (l : list A) (s : nat) (i : Z) (x : A) :
  In (i, x) (combine (map Z.of_nat (seq s (length l))) l) <->
  exists n, i = Z.of_nat (s + n) /\ nth_error l n = Some x.
Proof.
  revert s. induction l as [|y l IH]; intros s; simpl.
  - split; [contradiction | intros ([|n] & _ & H); discriminate].
  - rewrite IH. split.
    + intros [[= <- <-] | (n & -> & Hn)].
      * exists 0%nat. split; [f_equal; lia | reflexivity].
      * exists (S n). split; [f_equal; lia | exact Hn].
    + intros ([|n] & -> & Hn); simpl in Hn.
      * left. injection Hn as ->. f_equal. f_equal. lia.
      * right. exists n. split; [f_equal; lia | exact Hn].
Qed.

Lemma enumerate_In {A} (l : list A) (i : Z) (x : A) :
  In (i, x) (enumerate l) <->
  exists n, i = Z.of_nat n /\ nth_error l n = Some x.
Proof. unfold enumerate. now rewrite enumerate_from_In. Qed.

Lemma enumerate_snd {A} (l : list A) : map snd (enumerate l) = l.
Proof.
  unfold enumerate. generalize 0%nat as s.
  induction l as [|y l IH]; intros s; simpl; [reflexivity|].
  now rewrite IH.
Qed.

(* ================================================================== *)
(** * The registry *)

Lemma ALL_SPECIAL_TOKENS_NoDup : NoDup ALL_SPECIAL_TOKENS.
Proof. apply nodupb_NoDup. vm_compute. reflexivity. Qed.

Lemma registry_keys B : dict_keys (registry B) = ALL_SPECIAL_TOKENS.
Proof.
  unfold registry, dict_keys. rewrite map_map.
  rewrite (map_ext _ snd) by reflexivity. apply enumerate_snd.
Qed.

Lemma registry_fold B :
  fold_left (fun d it => dict_set pystr_eqb d (snd it) (B + fst it))
    (enumerate ALL_SPECIAL_TOKENS) []
  = registry B.
Proof.
  rewrite (comprehension_distinct pystr_eqb pystr_eqb_eq).
  - reflexivity.
  - cbn [dict_keys map app]. rewrite enumerate_snd.
    apply ALL_SPECIAL_TOKENS_NoDup.
Qed.

Lemma registry_get B (n : nat) (t : pystr) :
  nth_error ALL_SPECIAL_TOKENS n = Some t ->
  dict_get pystr_eqb (registry B) t = Ok (B + Z.of_nat n).
Proof.
  intros H. apply (dict_get_In pystr_eqb pystr_eqb_eq).
  - rewrite registry_keys. apply ALL_SPECIAL_TOKENS_NoDup.
  - unfold registry. apply in_map_iff. exists (Z.of_nat n, t).
    split; [reflexivity|]. apply enumerate_In. now exists n.
Qed.

Lemma registry_get_unknown B (t : pystr) :
  ~ In t ALL_SPECIAL_TOKENS ->
  dict_get pystr_eqb (registry B) t = Err KeyError.
Proof.
  intros H. apply (dict_get_fresh pystr_eqb pystr_eqb_eq).
  now rewrite registry_keys.
Qed.

Lemma SEMANTIC_TOKENS_length : length SEMANTIC_TOKENS = 1024%nat.
Proof. vm_compute. reflexivity. Qed.

Lemma SEMANTIC_TOKENS_nth (i : nat) :
  (i < 1024)%nat ->
  nth_error SEMANTIC_TOKENS i = Some (SEMANTIC_TOKEN_TEMPLATE (Z.of_nat i)).
Proof.
  intros Hi. unfold SEMANTIC_TOKENS, py_range.
  change (Z.to_nat ((1024 - 0 + 1 - 1) / 1)) with 1024%nat.
  rewrite map_map, nth_error_map, nth_error_seq.
  destruct (Nat.ltb_spec i 1024); [|lia]. simpl. do 2 f_equal. lia.
Qed.

Lemma ALL_SPECIAL_TOKENS_semantic (i : nat) :
  (i < 1024)%nat ->
  nth_error ALL_SPECIAL_TOKENS (12 + i)
  = Some (SEMANTIC_TOKEN_TEMPLATE (Z.of_nat i)).
Proof.
  intros Hi. unfold ALL_SPECIAL_TOKENS.
  rewrite nth_error_app2 by (simpl; lia).
  replace (12 + i - _)%nat with i by (simpl; lia).
  now apply SEMANTIC_TOKENS_nth.
Qed.

Lemma registry_get_template B (i : Z) :
  0 <= i < 1024 ->
  dict_get pystr_eqb (registry B) (SEMANTIC_TOKEN_TEMPLATE i) = Ok (B + 12 + i).
Proof.
  intros Hi. rewrite <- (Z2Nat.id i) at 1 by lia.
  rewrite (registry_get B (12 + Z.to_nat i)).
  - f_equal. lia.
  - apply ALL_SPECIAL_TOKENS_semantic. lia.
Qed.

Lemma semantic_ids_fold B :
  fold_left
    (fun acc it =>
       d <- acc ;;
       id <- dict_get pystr_eqb (registry B) (snd it) ;;
       Ok (dict_set Z.eqb d (fst it) id))
    (enumerate SEMANTIC_TOKENS) (Ok [])
  = Ok (semantic_ids B).
Proof.
  unfold semantic_ids.
  apply (fold_lookup_total Z.eqb (fun it : Z * pystr => fst it)
           (fun it => dict_get pystr_eqb (registry B) (snd it))
           (fun it => B + 12 + fst it)).
  intros [i t] Hin. apply enumerate_In in Hin. destruct Hin as (n & -> & Hn).
  cbn [fst snd]. assert (Hlt : (n < 1024)%nat).
  { rewrite <- SEMANTIC_TOKENS_length. apply nth_error_Some. congruence. }
  rewrite SEMANTIC_TOKENS_nth in Hn by exact Hlt. injection Hn as <-.
  apply registry_get_template. lia.
Qed.

Lemma SEMANTIC_TOKENS_first :
  py_index SEMANTIC_TOKENS 0 = Ok (SEMANTIC_TOKEN_TEMPLATE 0).
Proof. vm_compute. reflexivity. Qed.

Lemma SEMANTIC_TOKENS_last :
  py_index SEMANTIC_TOKENS (-1) = Ok (SEMANTIC_TOKEN_TEMPLATE 1023).
Proof. vm_compute. reflexivity. Qed.

Lemma init_registry_unfold (L : pylib) ranks model_path :
  init_registry L ranks model_path
  = (core <- CoreBPE_new L FISH_TIKTOKEN_PATTERN ranks (registry (len ranks)) ;;
     Ok (tokenizer_of ranks model_path core)).
Proof.
  unfold init_registry.
  rewrite registry_fold, semantic_ids_fold.
  rewrite SEMANTIC_TOKENS_first, SEMANTIC_TOKENS_last. cbn [bind].
  rewrite (registry_get_template (len ranks) 0) by lia.
  rewrite (registry_get_template (len ranks) 1023) by lia.
  cbn [bind]. unfold tokenizer_of.
  replace (len ranks + 12 + 0) with (len ranks + 12) by lia.
  replace (len ranks + 12 + 1023) with (len ranks + 1035) by lia.
  reflexivity.
Qed.

Lemma init_registry_inv (L : pylib) ranks model_path tk :
  init_registry L ranks model_path = Ok tk ->
  exists core,
    CoreBPE_new L FISH_TIKTOKEN_PATTERN ranks (registry (len ranks)) = Ok core
    /\ tk = tokenizer_of ranks model_path core.
Proof.
  intros H. rewrite init_registry_unfold in H.
  apply bind_Ok_inv in H. destruct H as (core & E & H).
  exists core. split; [exact E|]. apply Ok_inj in H. symmetry. exact H.
Qed.

Lemma sample_tokenizer_built :
  init_registry reference_lib sample_ranks sample_file = Ok sample_tokenizer.
Proof. rewrite init_registry_unfold. reflexivity. Qed.

Lemma get_token_id_position ranks model_path core (n : nat) (t : pystr) :
  nth_error ALL_SPECIAL_TOKENS n = Some t ->
  get_token_id (tokenizer_of ranks model_path core) t
  = Ok (len ranks + Z.of_nat n).
Proof.
  intros H. unfold get_token_id, tokenizer_of.
  cbn [all_special_tokens_with_ids]. now apply registry_get.
Qed.

(* ================================================================== *)
(** * Which exceptions a call can raise *)

Lemma raises_only_Ok {A} es (a : A) : raises_only es (Ok a).
Proof. intros e H. discriminate H. Qed.

Lemma raises_only_Err {A} es e : In e es -> raises_only es (@Err A e).
Proof. intros H e' [= <-]. exact H. Qed.

Lemma raises_only_bind {A B} es (r : result A) (k : A -> result B) :
  raises_only es r -> (forall a, raises_only es (k a)) ->
  raises_only es (bind r k).
Proof.
  intros Hr Hk. destruct r as [a|e]; simpl; [apply Hk|].
  intros e' [= <-]. now apply Hr.
Qed.

Lemma raises_only_mapM {A B} es (f : A -> result B) (xs : list A) :
  (forall x, raises_only es (f x)) -> raises_only es (mapM f xs).
Proof.
  intros Hf. induction xs as [|x xs IH]; simpl; [apply raises_only_Ok|].
  apply raises_only_bind; [apply Hf|]. intros y.
  apply raises_only_bind; [exact IH|]. intros ys. apply raises_only_Ok.
Qed.

Lemma raises_only_native {A} (r : option A) :
  raises_only conversion_errors (native r).
Proof.
  destruct r; [apply raises_only_Ok|].
  apply raises_only_Err. simpl. tauto.
Qed.

Lemma raises_only_dict_get (d : dict pystr Z) (k : pystr) :
  raises_only conversion_errors (dict_get pystr_eqb d k).
Proof.
  induction d as [|[k' v] d IH]; simpl.
  - apply raises_only_Err. simpl. tauto.
  - destruct (pystr_eqb k' k); [apply raises_only_Ok | exact IH].
Qed.

Lemma raises_only_call {A} es params args (body : result A) :
  In TypeError es -> raises_only es body ->
  raises_only es (call params args body).
Proof.
  intros HT Hb. unfold call.
  destruct (Nat.eqb _ _); [exact Hb | now apply raises_only_Err].
Qed.

Lemma raises_only_core_encode fuel enc allowed text :
  raises_only conversion_errors (core_encode fuel enc allowed text).
Proof.
  revert text. induction fuel as [|fuel IH]; intros text; simpl;
    destruct (next_allowed _ allowed text) as [[[before t] rest]|];
    try apply raises_only_native;
    (apply raises_only_bind; [apply raises_only_native|]; intros ids;
     apply raises_only_bind; [apply raises_only_dict_get|]; intros id).
  - apply raises_only_Err. simpl. tauto.
  - apply raises_only_bind; [apply IH|]. intros more. apply raises_only_Ok.
Qed.

Lemma raises_only_load_global extra name :
  raises_only conversion_errors (load_global extra name).
Proof.
  unfold load_global. destruct (assoc name extra); [apply raises_only_Ok|].
  destruct (_ || _); [apply raises_only_Ok|].
  apply raises_only_Err. simpl. tauto.
Qed.

Lemma raises_only_iterate v : raises_only conversion_errors (iterate v).
Proof.
  destruct v; simpl; try apply raises_only_Ok;
    apply raises_only_Err; simpl; tauto.
Qed.

Lemma raises_only_convert extra tk tokens allowed :
  raises_only conversion_errors (convert_tokens_to_ids extra tk tokens allowed).
Proof.
  unfold convert_tokens_to_ids.
  apply raises_only_bind; [apply raises_only_load_global|]. intros subs.
  apply raises_only_bind; [apply raises_only_iterate|]. intros texts.
  apply raises_only_bind; [|intros; apply raises_only_Ok].
  apply raises_only_mapM. intros [| | |s| | | | | |];
    try (apply raises_only_Err; simpl; tauto).
  unfold Encoding_encode. simpl. apply raises_only_core_encode.
Qed.

(** The first two branches of [encode] raise what the conversion raises. *)
Lemma raises_only_encode extra optimized tk text allowed :
  isinstance_str text = true \/ isinstance_list text = true ->
  raises_only conversion_errors (encode extra optimized tk text allowed).
Proof.
  intros H. unfold encode.
  destruct (isinstance_str text).
  - apply raises_only_bind.
    + apply raises_only_call; [simpl; tauto|].
      destruct text; try (apply raises_only_Err; simpl; tauto).
      apply raises_only_Ok.
    + intros tokens. apply raises_only_call; [simpl; tauto|].
      apply raises_only_convert.
  - destruct H as [H|H]; [discriminate|]. rewrite H.
    apply raises_only_call; [simpl; tauto|]. apply raises_only_convert.
Qed.

(* ================================================================== *)
(** * The methods that are called with one argument too many *)

Lemma encode_str extra optimized tk (text : pystr) allowed :
  encode extra optimized tk (VStr text) allowed = Err TypeError.
Proof. reflexivity. Qed.

Lemma __init___TypeError L fs model_path : __init__ L fs model_path = Err TypeError.
Proof. reflexivity. Qed.

Lemma FishTokenizer_new_TypeError L fs model_path :
  FishTokenizer_new L fs model_path = Err TypeError.
Proof. reflexivity. Qed.

Lemma encode_list extra optimized tk (l : list pyval) allowed :
  encode extra optimized tk (VList l) allowed
  = convert_tokens_to_ids extra tk (VList l) allowed.
Proof. reflexivity. Qed.

Lemma convert_module_globals tk tokens allowed :
  convert_tokens_to_ids module_globals tk tokens allowed = Err NameError.
Proof. reflexivity. Qed.

(* ================================================================== *)
(** * Special tokens in the text *)

Lemma is_prefix_refl (s : pystr) : is_prefix s s = true.
Proof. induction s as [|c s IH]; simpl; [reflexivity|]. now rewrite N.eqb_refl. Qed.

Lemma find_unique {A} (f : A -> bool) (l : list A) (x : A) :
  In x l -> f x = true -> (forall y, In y l -> f y = true -> y = x) ->
  find f l = Some x.
Proof.
  induction l as [|y l IH]; simpl; intros Hin Hx Hu; [contradiction|].
  destruct (f y) eqn:Ey.
  - f_equal. apply Hu; [now left | exact Ey].
  - destruct Hin as [->|Hin]; [congruence|].
    apply IH; [exact Hin | exact Hx |]. intros z Hz. apply Hu. now right.
Qed.

Lemma prefix_free_spec (l : list pystr) (s t : pystr) :
  prefix_free l = true -> In s l -> In t l -> is_prefix t s = true -> t = s.
Proof.
  unfold prefix_free. intros H Hs Ht Hp.
  rewrite forallb_forall in H. specialize (H s Hs).
  rewrite forallb_forall in H. specialize (H t Ht).
  rewrite Hp in H. simpl in H. now apply pystr_eqb_eq.
Qed.

Lemma ALL_SPECIAL_TOKENS_prefix_free : prefix_free ALL_SPECIAL_TOKENS = true.
Proof. vm_compute. reflexivity. Qed.

Lemma ALL_SPECIAL_TOKENS_not_empty :
  forallb (fun s => negb (is_empty s)) ALL_SPECIAL_TOKENS = true.
Proof. vm_compute. reflexivity. Qed.

Lemma match_literal_registered (s : pystr) :
  In s ALL_SPECIAL_TOKENS -> match_literal ALL_SPECIAL_TOKENS s = Some s.
Proof.
  intros Hs. unfold match_literal. apply find_unique.
  - exact Hs.
  - apply is_prefix_refl.
  - intros t Ht Hp.
    exact (prefix_free_spec _ s t ALL_SPECIAL_TOKENS_prefix_free Hs Ht Hp).
Qed.

Lemma match_literal_at_end : match_literal ALL_SPECIAL_TOKENS [] = None.
Proof. vm_compute. reflexivity. Qed.

Lemma next_allowed_unfold specials allowed (s : pystr) :
  next_allowed specials allowed s =
  let pass_over :=
    match s with
    | [] => None
    | c :: s' =>
        match next_allowed specials allowed s' with
        | Some (before, t, rest) => Some (c :: before, t, rest)
        | None => None
        end
    end in
  match match_literal specials s with
  | Some t =>
      if mem t allowed then Some ([], t, skipn (length t) s) else pass_over
  | None => pass_over
  end.
Proof. destruct s; reflexivity. Qed.

(** With nothing allowed, no special token is found. *)
Lemma next_allowed_nothing specials (s : pystr) :
  next_allowed specials [] s = None.
Proof.
  induction s as [|c s IH]; rewrite next_allowed_unfold; cbv zeta;
    destruct (match_literal specials _); simpl; try reflexivity;
    now rewrite IH.
Qed.

(** Only the members of the allowed set matter. *)
Lemma next_allowed_ext specials a1 a2 (s : pystr) :
  (forall x, mem x a1 = mem x a2) ->
  next_allowed specials a1 s = next_allowed specials a2 s.
Proof.
  intros H. induction s as [|c s IH];
    rewrite (next_allowed_unfold specials a1), (next_allowed_unfold specials a2);
    cbv zeta; destruct (match_literal specials _); try rewrite H;
    try rewrite IH; reflexivity.
Qed.

Lemma core_encode_ext fuel enc a1 a2 text :
  (forall x, mem x a1 = mem x a2) ->
  core_encode fuel enc a1 text = core_encode fuel enc a2 text.
Proof.
  intros H. revert text. induction fuel as [|fuel IH]; intros text; simpl;
    rewrite (next_allowed_ext _ a1 a2 text H);
    destruct (next_allowed _ a2 text) as [[[before t] rest]|]; try reflexivity.
  now rewrite IH.
Qed.

Lemma mapM_ext {A B} (f g : A -> result B) (xs : list A) :
  (forall x, f x = g x) -> mapM f xs = mapM g xs.
Proof.
  intros H. induction xs as [|x xs IH]; simpl; [reflexivity|].
  now rewrite H, IH.
Qed.

Lemma Encoding_encode_batch_ext enc texts a1 a2 disallowed :
  (forall x, mem x a1 = mem x a2) ->
  Encoding_encode_batch enc texts a1 disallowed
  = Encoding_encode_batch enc texts a2 disallowed.
Proof.
  intros H. unfold Encoding_encode_batch. apply mapM_ext.
  intros [| | |s| | | | | |]; try reflexivity.
  unfold Encoding_encode. now rewrite (core_encode_ext _ enc a1 a2 s H).
Qed.

Lemma convert_ext extra tk tokens a1 a2 :
  (forall x, mem x (allowed_set tk a1) = mem x (allowed_set tk a2)) ->
  convert_tokens_to_ids extra tk tokens a1
  = convert_tokens_to_ids extra tk tokens a2.
Proof.
  intros H. unfold convert_tokens_to_ids.
  destruct (load_global extra "subs") as [subs|e]; [|reflexivity].
  cbn [bind]. destruct (iterate subs) as [texts|e]; [|reflexivity].
  cbn [bind].
  now rewrite (Encoding_encode_batch_ext _ texts _ _ [] H).
Qed.

Lemma encode_ext extra optimized tk text a1 a2 :
  (forall tokens, convert_tokens_to_ids extra tk tokens a1
                  = convert_tokens_to_ids extra tk tokens a2) ->
  encode extra optimized tk text a1 = encode extra optimized tk text a2.
Proof.
  intros H. unfold encode.
  destruct (isinstance_str text).
  - destruct (call tokenize_params _ _) as [tokens|e]; [|reflexivity].
    cbn [bind]. unfold call. simpl. apply H.
  - destruct (isinstance_list text); [|reflexivity].
    unfold call. simpl. apply H.
Qed.

Lemma mem_same_members (a b : list pystr) :
  (forall x, In x a <-> In x b) -> forall x, mem x a = mem x b.
Proof.
  intros H x. apply eq_true_iff_eq. rewrite !mem_In. apply H.
Qed.

(** One text, nothing allowed: the text is encoded as ordinary text. *)
Lemma Encoding_encode_nothing_allowed enc (text : pystr) :
  Encoding_encode enc text [] [] = native (encode_ordinary (_core_bpe enc) text).
Proof.
  unfold Encoding_encode. cbn [is_empty negb].
  destruct (length text); cbn [core_encode];
    now rewrite next_allowed_nothing.
Qed.

(** One text that is a registered special token, that token allowed. *)
Lemma Encoding_encode_special ranks model_path core (s : pystr) :
  In s ALL_SPECIAL_TOKENS ->
  encode_ordinary core [] = Some [] ->
  exists n,
    nth_error ALL_SPECIAL_TOKENS n = Some s
    /\ Encoding_encode (tkt_model (tokenizer_of ranks model_path core)) s [s] []
       = Ok [len ranks + Z.of_nat n].
Proof.
  intros Hs Hnil. destruct (In_nth_error _ _ Hs) as (n & Hn).
  exists n. split; [exact Hn|].
  unfold Encoding_encode. cbn [is_empty negb].
  assert (Hne : s <> []).
  { pose proof ALL_SPECIAL_TOKENS_not_empty as H.
    rewrite forallb_forall in H. specialize (H s Hs).
    intros ->. discriminate H. }
  assert (Hm : mem s [s] = true) by (apply mem_In; now left).
  assert (Hend : forall fuel,
            core_encode fuel (tkt_model (tokenizer_of ranks model_path core))
              [s] [] = Ok []).
  { intros fuel.
    destruct fuel; cbn [core_encode tokenizer_of tkt_model _special_tokens _core_bpe];
      rewrite registry_keys, next_allowed_unfold; cbv zeta;
      rewrite match_literal_at_end, Hnil; reflexivity. }
  destruct (length s) as [|fuel] eqn:El.
  { apply length_zero_iff_nil in El. contradiction. }
  cbn [core_encode]. rewrite next_allowed_unfold. cbv zeta.
  cbn [tokenizer_of tkt_model _special_tokens _core_bpe].
  rewrite registry_keys, (match_literal_registered _ Hs), Hm, skipn_all.
  rewrite Hnil. cbn [native bind].
  rewrite (registry_get _ n _ Hn). cbn [bind].
  change {| name := stem model_path; pat_str := FISH_TIKTOKEN_PATTERN;
            _mergeable_ranks := ranks;
            _special_tokens := registry (len ranks);
            _core_bpe := core |}
    with (tkt_model (tokenizer_of ranks model_path core)).
  rewrite Hend. reflexivity.
Qed.

(* ================================================================== *)
(** * The claims on the registry *)

(** C3 (as the code has it).  The semantic tokens are registered under the
    names [<|semantic:i|>] that [SEMANTIC_TOKEN_TEMPLATE] produces.  For a
    tokenizer built from any merge table and every [i] from 0 to 1023,
    [get_token_id] of that name returns [semantic_begin_id + i], which lies
    in [[semantic_begin_id, semantic_end_id]]; different [i] give different
    ids, and the ids are exactly the integers of that interval. *)
Theorem C3_semantic_ids_by_template
    (L : pylib) (ranks : dict bytes Z) (model_path : path) (tk : FishTokenizer) :
  init_registry L ranks model_path = Ok tk ->
  semantic_end_id tk = semantic_begin_id tk + 1023
  /\ (forall i, 0 <= i < 1024 ->
        SEMANTIC_TOKEN_TEMPLATE i = lit "<|semantic:" ++ str_of_int i ++ lit "|>"
        /\ get_token_id tk (SEMANTIC_TOKEN_TEMPLATE i)
           = Ok (semantic_begin_id tk + i)
        /\ semantic_begin_id tk <= semantic_begin_id tk + i <= semantic_end_id tk)
  /\ (forall i j id, 0 <= i < 1024 -> 0 <= j < 1024 ->
        get_token_id tk (SEMANTIC_TOKEN_TEMPLATE i) = Ok id ->
        get_token_id tk (SEMANTIC_TOKEN_TEMPLATE j) = Ok id -> i = j)
  /\ (forall id, semantic_begin_id tk <= id <= semantic_end_id tk ->
        exists i, 0 <= i < 1024
                  /\ get_token_id tk (SEMANTIC_TOKEN_TEMPLATE i) = Ok id).
Proof.
  intros H. apply init_registry_inv in H. destruct H as (core & _ & ->).
  assert (Hget : forall i, 0 <= i < 1024 ->
            get_token_id (tokenizer_of ranks model_path core)
              (SEMANTIC_TOKEN_TEMPLATE i) = Ok (len ranks + 12 + i)).
  { intros i Hi. unfold get_token_id, tokenizer_of.
    cbn [all_special_tokens_with_ids]. now apply registry_get_template. }
  assert (Hb : semantic_begin_id (tokenizer_of ranks model_path core)
               = len ranks + 12) by reflexivity.
  assert (He : semantic_end_id (tokenizer_of ranks model_path core)
               = len ranks + 1035) by reflexivity.
  rewrite Hb, He. split; [lia|]. split; [|split].
  - intros i Hi. split; [reflexivity|]. split; [now apply Hget | lia].
  - intros i j id Hi Hj Ei Ej. rewrite Hget in Ei, Ej by assumption.
    injection Ei as Ei. injection Ej as Ej. lia.
  - intros id Hid. exists (id - (len ranks + 12)). split; [lia|].
    rewrite Hget by lia. f_equal. lia.
Qed.

(** C3 (as the code has it) at the tokenizer of the sample table. *)
Lemma C3_semantic_ids_by_template_witness :
  semantic_end_id sample_tokenizer = semantic_begin_id sample_tokenizer + 1023
  /\ (forall i, 0 <= i < 1024 ->
        SEMANTIC_TOKEN_TEMPLATE i = lit "<|semantic:" ++ str_of_int i ++ lit "|>"
        /\ get_token_id sample_tokenizer (SEMANTIC_TOKEN_TEMPLATE i)
           = Ok (semantic_begin_id sample_tokenizer + i)
        /\ semantic_begin_id sample_tokenizer
           <= semantic_begin_id sample_tokenizer + i
           <= semantic_end_id sample_tokenizer)
  /\ (forall i j id, 0 <= i < 1024 -> 0 <= j < 1024 ->
        get_token_id sample_tokenizer (SEMANTIC_TOKEN_TEMPLATE i) = Ok id ->
        get_token_id sample_tokenizer (SEMANTIC_TOKEN_TEMPLATE j) = Ok id ->
        i = j)
  /\ (forall id,
        semantic_begin_id sample_tokenizer <= id
        <= semantic_end_id sample_tokenizer ->
        exists i, 0 <= i < 1024
                  /\ get_token_id sample_tokenizer (SEMANTIC_TOKEN_TEMPLATE i)
                     = Ok id).
Proof.
  apply (C3_semantic_ids_by_template reference_lib sample_ranks sample_file).
  rewrite init_registry_unfold. reflexivity.
Defined.

(** C3, as the spec writes the name: [get_token_id("semantic:0")] raises
    KeyError, the registered name being [<|semantic:0|>]. *)
Lemma C3_counterexample_plain_name :
  init_registry reference_lib sample_ranks sample_file = Ok sample_tokenizer
  /\ get_token_id sample_tokenizer (lit "semantic:" ++ str_of_int 0)
     = Err KeyError
  /\ get_token_id sample_tokenizer (lit "<|semantic:" ++ str_of_int 0 ++ lit "|>")
     = Ok 19.
Proof.
  split; [apply sample_tokenizer_built|]. split.
  - apply registry_get_unknown. intros Hin. apply mem_In in Hin.
    vm_compute in Hin. discriminate Hin.
  - apply (registry_get_template (len sample_ranks) 0). lia.
Qed.

(** C4.  [FishTokenizer(model_path)] raises TypeError for every model
    path and file system: [__init__] calls [self.load_tiktoken_bpe(model_path)],
    two arguments for a function declared with the one parameter
    [tiktoken_bpe_file], so no identifier is assigned. *)
Theorem C4_constructor_raises_TypeError
    (L : pylib) (fs : filesystem) (model_path : path) :
  List.length load_tiktoken_bpe_params = 1%nat
  /\ __init__ L fs model_path = Err TypeError
  /\ FishTokenizer_new L fs model_path = Err TypeError.
Proof. repeat split. Qed.

(** What lines 68 to 71 do once the merge table is there: every registered
    token gets the size of the table plus its position in
    [ALL_SPECIAL_TOKENS]. *)
Lemma registry_ids_by_position (L : pylib) ranks model_path tk :
  init_registry L ranks model_path = Ok tk ->
  dict_keys (all_special_tokens_with_ids tk) = ALL_SPECIAL_TOKENS
  /\ (forall n t, nth_error ALL_SPECIAL_TOKENS n = Some t ->
        get_token_id tk t = Ok (len ranks + Z.of_nat n))
  /\ get_token_id tk BOS_TOKEN = Ok (len ranks + 0).
Proof.
  intros H. apply init_registry_inv in H. destruct H as (core & _ & ->).
  split; [apply registry_keys|]. split.
  - intros n t Hn. now apply get_token_id_position.
  - apply (get_token_id_position ranks model_path core 0). reflexivity.
Qed.

(* ================================================================== *)
(** * The claims on [encode] and [convert_tokens_to_ids] *)

Lemma convert_one_text tk tokens allowed (s : pystr) :
  convert_tokens_to_ids (with_subs (VList [VStr s])) tk tokens allowed
  = (ids <- Encoding_encode (tkt_model tk) s (allowed_set tk allowed) [] ;;
     Ok (ids ++ [])).
Proof.
  unfold convert_tokens_to_ids.
  change (load_global (with_subs (VList [VStr s])) "subs")
    with (Ok (VList [VStr s])).
  cbn [bind iterate Encoding_encode_batch mapM].
  fold (allowed_set tk allowed).
  destruct (Encoding_encode _ _ _ _); reflexivity.
Qed.

(** C1 (as the code has it).  [convert_tokens_to_ids] calls tiktoken with
    [disallowed_special=set()], which switches the check for disallowed
    special tokens off.  So no call of [encode] or of
    [convert_tokens_to_ids] fails with the error for a disallowed special
    token, whatever the input and [allowed_special]; where the chunk list
    [subs] it encodes is the one-element list holding a registered special
    token [s], [allowed_special = {}] gives the ordinary encoding of the
    text [s], and [allowed_special = {s}] gives exactly the one-element
    list holding the id of [s]. *)
Theorem C1_special_token_gating_as_coded
    (L : pylib) (ranks : dict bytes Z) (model_path : path)
    (tk : FishTokenizer) (s : pystr) (tokens : pyval) :
  init_registry L ranks model_path = Ok tk ->
  In s ALL_SPECIAL_TOKENS ->
  encode_ordinary (_core_bpe (tkt_model tk)) [] = Some [] ->
  (forall extra optimized text allowed,
      encode extra optimized tk text allowed <> Err DisallowedSpecialToken
      /\ convert_tokens_to_ids extra tk text allowed
         <> Err DisallowedSpecialToken)
  /\ convert_tokens_to_ids (with_subs (VList [VStr s])) tk tokens (AllowedSet [])
     = native (encode_ordinary (_core_bpe (tkt_model tk)) s)
  /\ exists id,
       get_token_id tk s = Ok id
       /\ convert_tokens_to_ids (with_subs (VList [VStr s])) tk tokens
            (AllowedSet [s])
          = Ok [id].
Proof.
  intros H Hs Hnil. apply init_registry_inv in H. destruct H as (core & _ & ->).
  split; [|split].
  - intros extra optimized text allowed. split.
    + unfold encode.
      destruct (isinstance_str text) eqn:Es;
        [|destruct (isinstance_list text) eqn:El].
      * intros E.
        pose proof (raises_only_encode extra optimized
                      (tokenizer_of ranks model_path core) text allowed
                      (or_introl Es) DisallowedSpecialToken) as R.
        unfold encode in R. rewrite Es in R. specialize (R E).
        simpl in R. intuition discriminate.
      * intros E.
        pose proof (raises_only_encode extra optimized
                      (tokenizer_of ranks model_path core) text allowed
                      (or_intror El) DisallowedSpecialToken) as R.
        unfold encode in R. rewrite Es, El in R. specialize (R E).
        simpl in R. intuition discriminate.
      * destruct optimized; [discriminate|].
        destruct (_ && _); discriminate.
    + intros E. apply raises_only_convert in E. simpl in E.
      intuition discriminate.
  - rewrite convert_one_text. cbn [allowed_set].
    rewrite Encoding_encode_nothing_allowed.
    destruct (encode_ordinary _ s) as [ids|]; cbn [native bind]; [|reflexivity].
    now rewrite app_nil_r.
  - destruct (Encoding_encode_special ranks model_path core s Hs Hnil)
      as (n & Hn & E).
    exists (len ranks + Z.of_nat n). split.
    + now apply get_token_id_position.
    + rewrite convert_one_text. cbn [allowed_set]. rewrite E. reflexivity.
Qed.

(** C1 (as the code has it) at the token [<|pad|>] and the tokenizer of
    the sample table. *)
Lemma C1_special_token_gating_as_coded_witness :
  (forall extra optimized text allowed,
      encode extra optimized sample_tokenizer text allowed
      <> Err DisallowedSpecialToken
      /\ convert_tokens_to_ids extra sample_tokenizer text allowed
         <> Err DisallowedSpecialToken)
  /\ convert_tokens_to_ids (with_subs (VList [VStr PAD_TOKEN])) sample_tokenizer
       VNone (AllowedSet [])
     = native (encode_ordinary (_core_bpe (tkt_model sample_tokenizer)) PAD_TOKEN)
  /\ exists id,
       get_token_id sample_tokenizer PAD_TOKEN = Ok id
       /\ convert_tokens_to_ids (with_subs (VList [VStr PAD_TOKEN]))
            sample_tokenizer VNone (AllowedSet [PAD_TOKEN])
          = Ok [id].
Proof.
  apply (C1_special_token_gating_as_coded reference_lib sample_ranks
           sample_file sample_tokenizer PAD_TOKEN VNone).
  - rewrite init_registry_unfold. reflexivity.
  - apply (nth_error_In _ 2). reflexivity.
  - reflexivity.
Defined.

(** C1, as the spec states it, at the token [<|pad|>]: with
    [allowed_special = {}] and with [allowed_special = {"<|pad|>"}],
    [encode] raises TypeError, neither the error for a disallowed special
    token nor a list of ids.  Where the conversion is reached (the name
    [subs] bound to the list holding the token), nothing allowed gives the
    ids of the seven bytes of the text, no error. *)
Lemma C1_counterexample_pad_token :
  encode module_globals false sample_tokenizer (VStr PAD_TOKEN) (AllowedSet [])
  = Err TypeError
  /\ encode module_globals false sample_tokenizer (VStr PAD_TOKEN)
       (AllowedSet [PAD_TOKEN])
     = Err TypeError
  /\ convert_tokens_to_ids (with_subs (VList [VStr PAD_TOKEN])) sample_tokenizer
       (VList [VStr PAD_TOKEN]) (AllowedSet [])
     = Ok [2; 3; 4; 0; 5; 3; 6].
Proof.
  split; [reflexivity|]. split; [reflexivity|].
  rewrite convert_one_text. cbn [allowed_set].
  rewrite Encoding_encode_nothing_allowed. vm_compute. reflexivity.
Qed.

(** C2.  [encode] of a string raises TypeError before anything is encoded:
    it calls [self.tokenize(text)], two arguments for a function declared
    with the one parameter [text].  So [decode(encode(text))] raises
    TypeError for every text, instead of returning the text. *)
Theorem C2_encode_of_a_string_raises_TypeError
    (extra : namespace) (optimized : bool) (tk : FishTokenizer)
    (text : pystr) (allowed : allowed_arg) :
  List.length tokenize_params = 1%nat
  /\ encode extra optimized tk (VStr text) allowed = Err TypeError
  /\ (ids <- encode extra optimized tk (VStr text) allowed ;; decode tk ids)
     = Err TypeError.
Proof. repeat split. Qed.

(** C5.  For the text of 400001 characters [a], [encode] raises TypeError,
    and so does [encode] of each of its chunks: there is no id sequence on
    either side of the claimed equation.  (What the conversion does with
    the chunks where it is reached is [conversion_chunk_by_chunk].) *)
Theorem C5_encode_of_a_long_text_raises_TypeError
    (extra : namespace) (optimized : bool) (tk : FishTokenizer)
    (allowed : allowed_arg) :
  len long_text = 400001
  /\ encode extra optimized tk (VStr long_text) allowed = Err TypeError
  /\ Forall (fun chunk => encode extra optimized tk (VStr chunk) allowed
                          = Err TypeError)
       (tokenize long_text).
Proof.
  split; [|split].
  - unfold long_text, len. rewrite repeat_length. lia.
  - reflexivity.
  - apply Forall_forall. intros chunk _. reflexivity.
Qed.

(** C7.  [from_pretrained] raises NameError for every path and file
    system, the file [tokenizer.tiktoken] being there or not: it reads the
    name [os], which the module does not import. *)
Theorem C7_from_pretrained_raises_NameError
    (L : pylib) (fs : filesystem) (p : path) :
  mem_string "os" module_names = false
  /\ from_pretrained L module_globals fs p = Err NameError.
Proof. split; reflexivity. Qed.

(** C9.  For a tokenizer built from any merge table, every namespace and
    every input: [allowed_special=True] gives the same result as any set
    whose members are the registered special tokens, and
    [allowed_special=False] the same result as the empty set, in
    [convert_tokens_to_ids] and in [encode]. *)
Theorem C9_boolean_allowed_special
    (L : pylib) (ranks : dict bytes Z) (model_path : path) (tk : FishTokenizer)
    (names : list pystr) (extra : namespace) (optimized : bool)
    (text tokens : pyval) :
  init_registry L ranks model_path = Ok tk ->
  (forall x, In x names <-> In x ALL_SPECIAL_TOKENS) ->
  convert_tokens_to_ids extra tk tokens (AllowedBool true)
  = convert_tokens_to_ids extra tk tokens (AllowedSet names)
  /\ encode extra optimized tk text (AllowedBool true)
     = encode extra optimized tk text (AllowedSet names)
  /\ convert_tokens_to_ids extra tk tokens (AllowedBool false)
     = convert_tokens_to_ids extra tk tokens (AllowedSet [])
  /\ encode extra optimized tk text (AllowedBool false)
     = encode extra optimized tk text (AllowedSet []).
Proof.
  intros H Hnames. apply init_registry_inv in H. destruct H as (core & _ & ->).
  assert (Htrue : forall x,
            mem x (allowed_set (tokenizer_of ranks model_path core)
                     (AllowedBool true))
            = mem x (allowed_set (tokenizer_of ranks model_path core)
                       (AllowedSet names))).
  { apply mem_same_members. intros x. cbn [allowed_set].
    unfold special_tokens_set, tokenizer_of.
    cbn [tkt_model _special_tokens]. rewrite registry_keys.
    symmetry. apply Hnames. }
  split; [|split; [|split]].
  - now apply convert_ext.
  - apply encode_ext. intros t. now apply convert_ext.
  - reflexivity.
  - reflexivity.
Qed.

(** C9 at the tokenizer of the sample table, the set of names being the
    registration list read backwards. *)
Lemma C9_boolean_allowed_special_witness :
  convert_tokens_to_ids (with_subs (VList [VStr PAD_TOKEN])) sample_tokenizer
    VNone (AllowedBool true)
  = convert_tokens_to_ids (with_subs (VList [VStr PAD_TOKEN])) sample_tokenizer
      VNone (AllowedSet (rev ALL_SPECIAL_TOKENS))
  /\ encode (with_subs (VList [VStr PAD_TOKEN])) false sample_tokenizer
       (VList []) (AllowedBool true)
     = encode (with_subs (VList [VStr PAD_TOKEN])) false sample_tokenizer
         (VList []) (AllowedSet (rev ALL_SPECIAL_TOKENS))
  /\ convert_tokens_to_ids (with_subs (VList [VStr PAD_TOKEN])) sample_tokenizer
       VNone (AllowedBool false)
     = convert_tokens_to_ids (with_subs (VList [VStr PAD_TOKEN]))
         sample_tokenizer VNone (AllowedSet [])
  /\ encode (with_subs (VList [VStr PAD_TOKEN])) false sample_tokenizer
       (VList []) (AllowedBool false)
     = encode (with_subs (VList [VStr PAD_TOKEN])) false sample_tokenizer
         (VList []) (AllowedSet []).
Proof.
  apply (C9_boolean_allowed_special reference_lib sample_ranks sample_file).
  - rewrite init_registry_unfold. reflexivity.
  - intros x. symmetry. apply in_rev.
Defined.

(** C10.  For an argument that is neither a [str] nor a [list], [encode]
    returns no value: it raises AssertionError (under [-O], where the
    [assert] is not run, UnboundLocalError at the [return]).  The asserted
    condition, the argument being a [str] and a [list] at once, holds for
    no value.  For a [str] or a [list] argument the branch is not reached:
    neither of the two exceptions is raised. *)
Theorem C10_encode_of_another_type_fails
    (extra : namespace) (optimized : bool) (tk : FishTokenizer)
    (text : pyval) (allowed : allowed_arg) :
  isinstance_str text = false ->
  isinstance_list text = false ->
  encode extra optimized tk text allowed
  = Err (if optimized then UnboundLocalError else AssertionError)
  /\ (forall v, isinstance_str v && isinstance_list v = false)
  /\ (forall v, isinstance_str v = true \/ isinstance_list v = true ->
        encode extra optimized tk v allowed <> Err AssertionError
        /\ encode extra optimized tk v allowed <> Err UnboundLocalError).
Proof.
  intros Hs Hl. split; [|split].
  - unfold encode. rewrite Hs, Hl. now destruct optimized.
  - intros v. now destruct v.
  - intros v Hv.
    pose proof (raises_only_encode extra optimized tk v allowed Hv) as R.
    split; intros E; apply R in E; simpl in E; intuition discriminate.
Qed.

(** C10 at the argument [7], an [int]. *)
Lemma C10_encode_of_another_type_fails_witness :
  encode module_globals false sample_tokenizer (VInt 7) (AllowedBool true)
  = Err AssertionError
  /\ (forall v, isinstance_str v && isinstance_list v = false)
  /\ (forall v, isinstance_str v = true \/ isinstance_list v = true ->
        encode module_globals false sample_tokenizer v (AllowedBool true)
        <> Err AssertionError
        /\ encode module_globals false sample_tokenizer v (AllowedBool true)
           <> Err UnboundLocalError).
Proof.
  apply (C10_encode_of_another_type_fails module_globals false sample_tokenizer
           (VInt 7) (AllowedBool true)); reflexivity.
Defined.

(* ================================================================== *)
(** * Chunk by chunk

    What the conversion does with the chunks of a text where it is reached
    (the name [subs] bound to them): the ids of the text are the ids of its
    chunks, one chunk after the other. *)

Lemma chunk_count_one M (chunk : pystr) :
  0 < len chunk <= M -> chunk_count M chunk = 1%nat.
Proof.
  intros H. unfold chunk_count.
  replace ((len chunk + M - 1) / M) with 1; [reflexivity|].
  apply (Z.div_unique_pos _ _ 1 (len chunk - 1)); lia.
Qed.

Lemma chunks_of_one M (chunk : pystr) :
  0 < len chunk <= M -> chunks_of M chunk = [chunk].
Proof.
  intros H. rewrite chunks_of_windows by lia.
  rewrite (chunk_count_one M chunk H). cbn [seq map]. unfold window.
  cbn [Nat.mul skipn]. rewrite firstn_all2; [reflexivity|].
  unfold len in H. lia.
Qed.

Lemma chunks_of_sizes M (text chunk : pystr) :
  0 < M -> In chunk (chunks_of M text) -> 0 < len chunk <= M.
Proof.
  intros HM Hin. rewrite chunks_of_windows in Hin by exact HM.
  apply in_map_iff in Hin. destruct Hin as (k & <- & Hk).
  apply in_seq in Hk. unfold len. rewrite length_window.
  assert (Hlt : (k * Z.to_nat M < length text)%nat).
  { unfold chunk_count, len in Hk.
    pose proof (Z.mul_div_le (Z.of_nat (length text) + M - 1) M HM).
    nia. }
  lia.
Qed.

(** A chunk of a text is its own only chunk. *)
Lemma tokenize_chunk (text chunk : pystr) :
  In chunk (tokenize text) -> tokenize chunk = [chunk].
Proof.
  intros Hin. apply (chunks_of_one TIKTOKEN_MAX_ENCODE_CHARS).
  apply (chunks_of_sizes TIKTOKEN_MAX_ENCODE_CHARS text); [reflexivity|].
  exact Hin.
Qed.

Lemma mapM_map {A B C} (f : B -> result C) (g : A -> B) (xs : list A) :
  mapM f (map g xs) = mapM (fun x => f (g x)) xs.
Proof.
  induction xs as [|x xs IH]; [reflexivity|]. cbn [map mapM]. now rewrite IH.
Qed.

Lemma mapM_ext_in {A B} (f g : A -> result B) (xs : list A) :
  (forall x, In x xs -> f x = g x) -> mapM f xs = mapM g xs.
Proof.
  induction xs as [|x xs IH]; intros H; [reflexivity|]. cbn [mapM].
  rewrite (H x) by now left. rewrite IH; [reflexivity|].
  intros y Hy. apply H. now right.
Qed.

Lemma conversion_chunk_by_chunk tk tokens allowed (text : pystr) :
  convert_tokens_to_ids (with_subs (VList (map VStr (tokenize text)))) tk
    tokens allowed
  = (parts <-
       mapM (fun chunk =>
               convert_tokens_to_ids
                 (with_subs (VList (map VStr (tokenize chunk)))) tk
                 tokens allowed)
         (tokenize text) ;;
     Ok (concat parts)).
Proof.
  rewrite (mapM_ext_in _
             (fun chunk =>
                Encoding_encode (tkt_model tk) chunk (allowed_set tk allowed) [])).
  - unfold convert_tokens_to_ids at 1.
    change (load_global (with_subs (VList (map VStr (tokenize text)))) "subs")
      with (Ok (VList (map VStr (tokenize text)))).
    cbn [bind iterate]. unfold Encoding_encode_batch.
    rewrite mapM_map. reflexivity.
  - intros chunk Hin. rewrite (tokenize_chunk text chunk Hin). cbn [map].
    rewrite convert_one_text.
    destruct (Encoding_encode _ _ _ _) as [ids|e]; cbn [bind];
      [now rewrite app_nil_r | reflexivity].
Qed.

(* ================================================================== *)
(** * Base64 and decimal numbers

    Lists are taken three elements at a time, as [b64encode] does. *)

Lemma list_ind3 {A} (P : list A -> Prop) :
  P [] -> (forall a, P [a]) -> (forall a b, P [a; b]) ->
  (forall a b c l, P l -> P (a :: b :: c :: l)) ->
  forall l, P l.
Proof.
  intros H0 H1 H2 H3.
  assert (H : forall l, P l /\ (forall a, P (a :: l)) /\ (forall a b, P (a :: b :: l))).
  { induction l as [|x l (IH0 & IH1 & IH2)].
    - repeat split; auto.
    - repeat split; auto. }
  intros l. apply H.
Qed.

Lemma b64_value_char (x : sextet) : b64_value (b64_char x) = Some x.
Proof.
  destruct x as [[] [] [] [] [] []]; vm_compute; reflexivity.
Qed.

Lemma b64_char_not_pad (x : sextet) : N.eqb (b64_char x) b64_pad = false.
Proof.
  destruct x as [[] [] [] [] [] []]; vm_compute; reflexivity.
Qed.

Lemma b64encode_not_empty (data : bytes) : data <> [] -> b64encode data <> [].
Proof.
  destruct data as [|[] [|[] [|[] rest]]]; simpl; intros H; congruence.
Qed.

(** The strict reader gives back what [b64encode] was given. *)
Lemma b64decode_strict_b64encode (data : bytes) :
  b64decode_strict (b64encode data) = Ok data.
Proof.
  induction data as [|a|a b|a b c rest IH] using list_ind3.
  - reflexivity.
  - destruct a as [a0 a1 a2 a3 a4 a5 a6 a7].
    cbn [b64encode b64decode_strict].
    rewrite !b64_value_char, !N.eqb_refl. reflexivity.
  - destruct a as [a0 a1 a2 a3 a4 a5 a6 a7].
    destruct b as [b0 b1 b2 b3 b4 b5 b6 b7].
    cbn [b64encode b64decode_strict].
    rewrite !b64_value_char, b64_char_not_pad, !N.eqb_refl. reflexivity.
  - destruct a as [a0 a1 a2 a3 a4 a5 a6 a7].
    destruct b as [b0 b1 b2 b3 b4 b5 b6 b7].
    destruct c as [c0 c1 c2 c3 c4 c5 c6 c7].
    cbn [b64encode b64decode_strict].
    rewrite !b64_value_char, !b64_char_not_pad. cbn [andb].
    rewrite IH. reflexivity.
Qed.

Lemma string_of_pystr_lit (s : string) : string_of_pystr (lit s) = Some s.
Proof.
  unfold lit. induction s as [|a s IH]; [reflexivity|].
  cbn [list_ascii_of_string map string_of_pystr].
  pose proof (N_ascii_bounded a) as Hb.
  destruct (N.ltb_spec (N_of_ascii a) 256); [|lia].
  rewrite IH. cbn [option_map]. now rewrite ascii_N_embedding.
Qed.

(** The strict reader gives back the integer that [str] was given. *)
Lemma int_of_str_strict_str_of_int (z : Z) :
  int_of_str_strict (str_of_int z) = Ok z.
Proof.
  unfold int_of_str_strict, str_of_int. rewrite string_of_pystr_lit.
  rewrite NilZero.isi.
  - now rewrite DecimalZ.of_to.
  - destruct z; simpl; try discriminate.
    intros [= H]. now apply Unsigned.to_uint_nonnil in H.
  - destruct z; simpl; try discriminate.
    intros [= H]. now apply Unsigned.to_uint_nonnil in H.
Qed.

(* ================================================================== *)
(** * The lines of a model file *)

Lemma bytes_eqb_eq (a b : bytes) : bytes_eqb a b = true <-> a = b.
Proof.
  revert b. induction a as [|x a IH]; destruct b as [|y b]; simpl;
    try (split; [discriminate | discriminate]); try tauto.
  rewrite andb_true_iff, Ascii.eqb_eq, IH. split.
  - intros [-> ->]. reflexivity.
  - intros [= -> ->]. tauto.
Qed.

Lemma is_linebreak_is_space (c : codepoint) :
  is_linebreak c = true -> is_space c = true.
Proof.
  unfold is_linebreak. cbn [existsb].
  rewrite !orb_true_iff, !N.eqb_eq.
  intros [->|[->|[->|[->|[->|[->|[->|[->|[->|[->|H]]]]]]]]]];
    try reflexivity. discriminate H.
Qed.

Lemma not_space_not_linebreak (c : codepoint) :
  negb (is_space c) = true -> is_linebreak c = false.
Proof.
  intros H. destruct (is_linebreak c) eqn:E; [|reflexivity].
  apply is_linebreak_is_space in E. rewrite E in H. discriminate H.
Qed.

Lemma no_space_app (a b : pystr) :
  no_space (a ++ b) = no_space a && no_space b.
Proof. apply forallb_app. Qed.

Lemma b64_char_no_space (x : sextet) : negb (is_space (b64_char x)) = true.
Proof.
  destruct x as [[] [] [] [] [] []]; vm_compute; reflexivity.
Qed.

Lemma b64encode_no_space (data : bytes) : no_space (b64encode data) = true.
Proof.
  unfold no_space.
  induction data as [|a|a b|a b c rest IH] using list_ind3.
  - reflexivity.
  - destruct a. cbn [b64encode forallb]. now rewrite !b64_char_no_space.
  - destruct a, b. cbn [b64encode forallb]. now rewrite !b64_char_no_space.
  - destruct a, b, c. cbn [b64encode forallb].
    now rewrite !b64_char_no_space, IH.
Qed.

Lemma string_of_uint_no_space (u : Decimal.uint) :
  no_space (lit (NilEmpty.string_of_uint u)) = true.
Proof. induction u; simpl; auto. Qed.

Lemma str_of_int_no_space (z : Z) : no_space (str_of_int z) = true.
Proof.
  unfold str_of_int.
  assert (H : forall u, no_space (lit (NilZero.string_of_uint u)) = true).
  { intros u. destruct u; try apply string_of_uint_no_space. reflexivity. }
  destruct (Z.to_int z) as [u|u]; cbn [NilZero.string_of_int].
  - apply H.
  - change (lit (String "-" (NilZero.string_of_uint u)))
      with (45%N :: lit (NilZero.string_of_uint u)).
    unfold no_space in *. cbn [forallb]. now rewrite H.
Qed.

Lemma str_of_int_not_empty (z : Z) : str_of_int z <> [].
Proof.
  unfold str_of_int.
  destruct (Z.to_int z) as [u|u]; cbn [NilZero.string_of_int];
    [destruct u | ]; discriminate.
Qed.

Lemma no_space_no_linebreak (s : pystr) :
  no_space s = true -> no_linebreak s = true.
Proof.
  unfold no_space, no_linebreak. rewrite !forallb_forall.
  intros H c Hc. now rewrite (not_space_not_linebreak c (H c Hc)).
Qed.

Lemma splitlines_from_line (s cur rest : pystr) :
  no_linebreak s = true ->
  splitlines_from cur (s ++ newline ++ rest)
  = (rev cur ++ s) :: splitlines_from [] rest.
Proof.
  revert cur. induction s as [|c s IH]; intros cur Hs.
  - rewrite app_nil_r. destruct rest as [|d rest]; reflexivity.
  - cbn [no_linebreak forallb] in Hs. apply andb_true_iff in Hs.
    destruct Hs as [Hc Hs]. apply negb_true_iff in Hc.
    cbn [app splitlines_from]. rewrite Hc.
    rewrite IH by exact Hs. cbn [rev]. now rewrite <- app_assoc.
Qed.

Lemma model_line_body (e : bytes * Z) : model_line e = line_body e ++ newline.
Proof. unfold model_line, line_body. now rewrite <- !app_assoc. Qed.

Lemma line_body_no_linebreak (e : bytes * Z) :
  no_linebreak (line_body e) = true.
Proof.
  unfold line_body, no_linebreak. rewrite !forallb_app.
  fold (no_linebreak (b64encode (fst e))).
  fold (no_linebreak (str_of_int (snd e))).
  rewrite (no_space_no_linebreak _ (b64encode_no_space _)).
  rewrite (no_space_no_linebreak _ (str_of_int_no_space _)).
  reflexivity.
Qed.

(** The written text, cut into lines again. *)
Lemma splitlines_model_text (entries : dict bytes Z) :
  splitlines (concat (map model_line entries)) = map line_body entries.
Proof.
  unfold splitlines. induction entries as [|e es IH]; [reflexivity|].
  cbn [map concat]. rewrite model_line_body, <- app_assoc.
  rewrite splitlines_from_line by apply line_body_no_linebreak.
  cbn [rev app]. now rewrite IH.
Qed.

Lemma split_from_no_space (s cur rest : pystr) :
  no_space s = true ->
  split_from cur (s ++ rest) = split_from (rev s ++ cur) rest.
Proof.
  revert cur. induction s as [|c s IH]; intros cur Hs; [reflexivity|].
  cbn [no_space forallb] in Hs. apply andb_true_iff in Hs.
  destruct Hs as [Hc Hs]. apply negb_true_iff in Hc.
  cbn [app split_from]. rewrite Hc, IH by exact Hs.
  cbn [rev]. now rewrite <- app_assoc.
Qed.

(** Two fields with one space between them. *)
Lemma split_two_fields (a b : pystr) :
  no_space a = true -> no_space b = true -> a <> [] -> b <> [] ->
  split (a ++ lit " " ++ b) = [a; b].
Proof.
  intros Ha Hb Na Nb. unfold split.
  rewrite split_from_no_space by exact Ha. rewrite app_nil_r.
  change (lit " " ++ b) with (32%N :: b). cbn [split_from].
  change (is_space 32%N) with true. cbv iota.
  destruct (rev a) as [|x ra] eqn:Ea.
  { apply (f_equal (@rev _)) in Ea. rewrite rev_involutive in Ea.
    now subst a. }
  rewrite <- Ea, rev_involutive. f_equal.
  rewrite <- (app_nil_r b) at 1. rewrite split_from_no_space by exact Hb.
  rewrite app_nil_r. cbn [split_from].
  destruct (rev b) as [|y rb] eqn:Eb.
  { apply (f_equal (@rev _)) in Eb. rewrite rev_involutive in Eb.
    now subst b. }
  now rewrite <- Eb, rev_involutive.
Qed.

Lemma line_body_not_empty (e : bytes * Z) : is_empty (line_body e) = false.
Proof.
  unfold line_body. destruct (b64encode (fst e)); reflexivity.
Qed.

(* ================================================================== *)
(** * The file system *)

Lemma path_eqb_eq (p q : path) : path_eqb p q = true <-> p = q.
Proof.
  revert q. induction p as [|x p IH]; destruct q as [|y q]; simpl;
    try (split; [discriminate | discriminate]); try tauto.
  rewrite andb_true_iff, pystr_eqb_eq, IH. split.
  - intros [-> ->]. reflexivity.
  - intros [= -> ->]. tauto.
Qed.

Lemma fs_put_same fs p n : fs_put fs p n p = Some n.
Proof. unfold fs_put. now rewrite (proj2 (path_eqb_eq p p) eq_refl). Qed.

Lemma fs_put_other fs p n q : p <> q -> fs_put fs p n q = fs q.
Proof.
  intros H. unfold fs_put. destruct (path_eqb p q) eqn:E; [|reflexivity].
  apply path_eqb_eq in E. contradiction.
Qed.

(** The ancestors of a path below [dir] are [dir] and its ancestors. *)
Lemma ancestors_child (dir : path) (n : pystr) (q : path) :
  In q (ancestors (dir ++ [n])) -> In q (ancestors dir ++ [dir]).
Proof.
  unfold ancestors. rewrite length_app. cbn [length].
  rewrite in_map_iff. intros (k & <- & Hk). apply in_seq in Hk.
  rewrite firstn_app. replace (k - length dir)%nat with 0%nat by lia.
  cbn [firstn]. rewrite app_nil_r.
  apply in_or_app. destruct (Nat.eq_dec k (length dir)) as [->|Hne].
  - right. left. symmetry. apply firstn_all.
  - left. apply in_map_iff. exists k. split; [reflexivity|].
    apply in_seq. lia.
Qed.

Lemma ancestors_shorter (dir q : path) :
  In q (ancestors dir ++ [dir]) -> (length q <= length dir)%nat.
Proof.
  intros H. apply in_app_or in H. destruct H as [H|[<-|[]]]; [|lia].
  unfold ancestors in H. apply in_map_iff in H. destruct H as (k & <- & _).
  rewrite length_firstn. lia.
Qed.

Lemma child_not_ancestor (dir : path) (n : pystr) :
  ~ In (dir ++ [n]) (ancestors dir ++ [dir]).
Proof.
  intros H. apply ancestors_shorter in H. rewrite length_app in H.
  simpl in H. lia.
Qed.

Lemma under_a_file_false fs p :
  (forall q, In q (ancestors p) -> is_file_node (fs q) = false) ->
  under_a_file fs p = false.
Proof.
  intros H. unfold under_a_file.
  destruct (existsb _ _) eqn:E; [|reflexivity].
  apply existsb_exists in E. destruct E as (q & Hq & Hf).
  rewrite (H q Hq) in Hf. discriminate Hf.
Qed.

(** [mkdir] on a way without files: the directories are there afterwards,
    nothing else changes. *)
Lemma mkdir_steps (p : path) (qs : list path) (fs : filesystem) :
  (forall q, In q qs -> is_file_node (fs q) = false) ->
  exists fs1,
    fold_left
      (fun acc q =>
         fs' <- acc ;;
         match fs' q with
         | Some Dir => Ok fs'
         | Some (File _) =>
             Err (if path_eqb q p then FileExistsError else NotADirectoryError)
         | None => Ok (fs_put fs' q Dir)
         end) qs (Ok fs) = Ok fs1
    /\ (forall q, In q qs -> fs1 q = Some Dir)
    /\ (forall q, ~ In q qs -> fs1 q = fs q).
Proof.
  revert fs. induction qs as [|q0 qs IH]; intros fs Hfs.
  - exists fs. split; [reflexivity|]. split; [intros q [] | reflexivity].
  - cbn [fold_left bind].
    assert (Hq0 : is_file_node (fs q0) = false) by (apply Hfs; now left).
    destruct (fs q0) as [[text|]|] eqn:E0; [discriminate Hq0| |].
    + destruct (IH fs) as (fs1 & E1 & Hin & Hout).
      { intros q Hq. apply Hfs. now right. }
      exists fs1. split; [exact E1|]. split.
      * intros q [<-|Hq]; [|now apply Hin].
        destruct (in_dec (list_eq_dec (list_eq_dec N.eq_dec)) q0 qs) as [Hi|Hn];
          [now apply Hin | now rewrite Hout].
      * intros q Hq. apply Hout. intros Hi. apply Hq. now right.
    + destruct (IH (fs_put fs q0 Dir)) as (fs1 & E1 & Hin & Hout).
      { intros q Hq. unfold fs_put. destruct (path_eqb q0 q); [reflexivity|].
        apply Hfs. now right. }
      exists fs1. split; [exact E1|]. split.
      * intros q [<-|Hq]; [|now apply Hin].
        destruct (in_dec (list_eq_dec (list_eq_dec N.eq_dec)) q0 qs) as [Hi|Hn];
          [now apply Hin | rewrite Hout by exact Hn; apply fs_put_same].
      * intros q Hq. rewrite Hout by (intros Hi; apply Hq; now right).
        apply fs_put_other. intros ->. apply Hq. now left.
Qed.

Lemma mkdir_parents_ready fs dir :
  (forall q, In q (ancestors dir ++ [dir]) -> is_file_node (fs q) = false) ->
  exists fs1,
    mkdir_parents fs dir = Ok fs1
    /\ (forall q, In q (ancestors dir ++ [dir]) -> fs1 q = Some Dir)
    /\ (forall q, ~ In q (ancestors dir ++ [dir]) -> fs1 q = fs q).
Proof. apply mkdir_steps. Qed.

(** Writing a file below a directory that is there. *)
Lemma write_text_child fs dir (n text : pystr) :
  (forall q, In q (ancestors dir ++ [dir]) -> fs q = Some Dir) ->
  is_dir_node (fs (dir ++ [n])) = false ->
  write_text fs (dir ++ [n]) text = Ok (fs_put fs (dir ++ [n]) (File text)).
Proof.
  intros Hdirs Hn. unfold write_text.
  rewrite under_a_file_false.
  - rewrite removelast_last, (Hdirs dir) by (apply in_or_app; right; now left).
    destruct (fs (dir ++ [n])) as [[t|]|]; try reflexivity. discriminate Hn.
  - intros q Hq. apply ancestors_child in Hq. now rewrite (Hdirs q Hq).
Qed.

Lemma read_text_child fs dir (n text : pystr) :
  (forall q, In q (ancestors dir ++ [dir]) -> fs q = Some Dir) ->
  fs (dir ++ [n]) = Some (File text) ->
  read_text fs (dir ++ [n]) = Ok text.
Proof.
  intros Hdirs Hn. unfold read_text.
  rewrite under_a_file_false.
  - now rewrite Hn.
  - intros q Hq. apply ancestors_child in Hq. now rewrite (Hdirs q Hq).
Qed.

Lemma app_last_inj {A} (l : list A) (x y : A) : l ++ [x] = l ++ [y] -> x = y.
Proof. intros H. apply app_inv_head in H. now injection H. Qed.

Lemma model_file_not_json_file dir : model_file_of dir <> json_file_of dir.
Proof.
  unfold model_file_of, json_file_of. intros H. apply app_last_inj in H.
  vm_compute in H. discriminate H.
Qed.

(** What [save_pretrained] leaves, for the two texts it writes. *)
Lemma save_pretrained_ready tk fs dir :
  save_ready fs dir = true ->
  exists fs',
    save_pretrained tk fs dir = Ok fs'
    /\ fs' (model_file_of dir)
       = Some (File (concat (map model_line (_mergeable_ranks (tkt_model tk)))))
    /\ fs' (json_file_of dir)
       = Some (File (json_dump_indent2 (all_special_tokens_with_ids tk)))
    /\ (forall q, In q (ancestors dir ++ [dir]) -> fs' q = Some Dir).
Proof.
  unfold save_ready. rewrite !andb_true_iff, !negb_true_iff, forallb_forall.
  intros [[Hway Hm] Hj].
  destruct (mkdir_parents_ready fs dir) as (fs1 & E1 & Hin & Hout).
  { intros q Hq. apply negb_true_iff. now apply Hway. }
  set (text1 := concat (map model_line (_mergeable_ranks (tkt_model tk)))).
  set (text2 := json_dump_indent2 (all_special_tokens_with_ids tk)).
  set (fs2 := fs_put fs1 (model_file_of dir) (File text1)).
  set (fs3 := fs_put fs2 (json_file_of dir) (File text2)).
  assert (Hin2 : forall q, In q (ancestors dir ++ [dir]) -> fs2 q = Some Dir).
  { intros q Hq. unfold fs2. rewrite fs_put_other; [now apply Hin|].
    intros <-. now apply child_not_ancestor in Hq. }
  assert (Hin3 : forall q, In q (ancestors dir ++ [dir]) -> fs3 q = Some Dir).
  { intros q Hq. unfold fs3. rewrite fs_put_other; [now apply Hin2|].
    intros <-. now apply child_not_ancestor in Hq. }
  exists fs3. split; [|split; [|split]].
  - unfold save_pretrained. rewrite E1. cbn [bind].
    fold (model_file_of dir). fold (json_file_of dir). fold text1. fold text2.
    unfold model_file_of at 1.
    rewrite (write_text_child fs1 dir _ text1 Hin).
    + cbn [bind]. fold (model_file_of dir). fold fs2.
      unfold json_file_of at 1.
      rewrite (write_text_child fs2 dir _ text2 Hin2); [reflexivity|].
      fold (json_file_of dir). unfold fs2.
      rewrite fs_put_other by apply model_file_not_json_file.
      rewrite Hout by apply child_not_ancestor. exact Hj.
    + fold (model_file_of dir).
      rewrite Hout by apply child_not_ancestor. exact Hm.
  - unfold fs3. rewrite fs_put_other.
    + unfold fs2. apply fs_put_same.
    + intros H. symmetry in H. now apply model_file_not_json_file in H.
  - unfold fs3. apply fs_put_same.
  - exact Hin3.
Qed.

(* ================================================================== *)
(** * The special-tokens file *)

Lemma json_escape_char_non_ascii (c : codepoint) :
  (128 <= c)%N -> json_escape_char c = [c].
Proof.
  intros H. unfold json_escape_char.
  repeat match goal with
         | |- context [N.eqb c ?k] =>
             destruct (N.eqb_spec c k); [lia|]
         end.
  destruct (N.ltb_spec c 32); [lia | reflexivity].
Qed.

Lemma json_string_plain (s : pystr) :
  json_plain s = true -> json_string s = [34%N] ++ s ++ [34%N].
Proof.
  intros H. unfold json_string. do 2 f_equal.
  unfold json_plain in H. induction s as [|c s IH]; [reflexivity|].
  cbn [forallb] in H. apply andb_true_iff in H. destruct H as [Hc Hs].
  cbn [flat_map]. apply pystr_eqb_eq in Hc. rewrite Hc, IH by exact Hs.
  reflexivity.
Qed.

Lemma ALL_SPECIAL_TOKENS_json_plain :
  forallb json_plain ALL_SPECIAL_TOKENS = true.
Proof. vm_compute. reflexivity. Qed.

Lemma join_indent (sep p : pystr) (xs : list pystr) :
  xs <> [] ->
  p ++ join (sep ++ p) xs = join sep (map (app p) xs).
Proof.
  induction xs as [|x [|y xs] IH]; intros H; [contradiction|reflexivity|].
  cbn [join map] in *. rewrite <- IH by discriminate.
  now rewrite <- !app_assoc.
Qed.

Lemma json_entries_registry (B : Z) :
  lit "  "
  ++ join (lit "," ++ newline ++ lit "  ")
       (map (fun kv : pystr * Z =>
               json_string (fst kv) ++ lit ": " ++ str_of_int (snd kv))
          (registry B))
  = join (lit "," ++ newline)
      (map (fun it : Z * pystr =>
              lit "  " ++ [34%N] ++ snd it ++ [34%N] ++ lit ": "
              ++ str_of_int (B + fst it))
         (enumerate ALL_SPECIAL_TOKENS)).
Proof.
  assert (Hreg : registry B <> []).
  { intros H. apply (f_equal (@length _)) in H.
    unfold registry in H. rewrite length_map in H.
    assert (E : length (enumerate ALL_SPECIAL_TOKENS) = 1036%nat)
      by (vm_compute; reflexivity).
    rewrite E in H. discriminate H. }
  replace (lit "," ++ newline ++ lit "  ")
    with ((lit "," ++ newline) ++ lit "  ") by now rewrite <- app_assoc.
  rewrite join_indent.
  - apply (f_equal (join (lit "," ++ newline))).
    unfold registry. rewrite !map_map. apply map_ext_in.
    intros [i t] Hin. cbn [fst snd].
    assert (Ht : In t ALL_SPECIAL_TOKENS).
    { apply enumerate_In in Hin. destruct Hin as (n & _ & Hn).
      now apply nth_error_In in Hn. }
    pose proof ALL_SPECIAL_TOKENS_json_plain as Hp.
    rewrite forallb_forall in Hp.
    rewrite (json_string_plain t (Hp t Ht)). now rewrite <- !app_assoc.
  - intros H. apply map_eq_nil in H. contradiction.
Qed.

Lemma json_dump_registry (B : Z) :
  json_dump_indent2 (registry B) = special_tokens_json B.
Proof.
  unfold special_tokens_json. rewrite <- json_entries_registry.
  unfold json_dump_indent2.
  destruct (registry B) as [|kv reg] eqn:E.
  - apply (f_equal (@length _)) in E.
    unfold registry in E. rewrite length_map in E.
    assert (E' : length (enumerate ALL_SPECIAL_TOKENS) = 1036%nat)
      by (vm_compute; reflexivity).
    rewrite E' in E. discriminate E.
  - now rewrite <- !app_assoc.
Qed.

(* ================================================================== *)
(** * Loading what was saved *)

Lemma load_lines_Err L lines e : load_lines L lines (Err e) = Err e.
Proof. induction lines as [|l lines IH]; [reflexivity | exact IH]. Qed.

Lemma load_tiktoken_bpe_lines L fs file :
  load_tiktoken_bpe L fs file
  = (text <- read_text fs file ;; load_lines L (splitlines text) (Ok [])).
Proof. reflexivity. Qed.

Lemma split_line_body (e : bytes * Z) :
  fst e <> [] -> split (line_body e) = [b64encode (fst e); str_of_int (snd e)].
Proof.
  intros H. unfold line_body. apply split_two_fields.
  - apply b64encode_no_space.
  - apply str_of_int_no_space.
  - now apply b64encode_not_empty.
  - apply str_of_int_not_empty.
Qed.

Lemma load_lines_cons L (l : pystr) lines (acc : dict bytes Z) :
  load_lines L (l :: lines) (Ok acc)
  = load_lines L lines
      (if is_empty l then Ok acc
       else
         match split l with
         | [token; rank] =>
             r <- int_of_str L rank ;;
             t <- b64decode L token ;;
             Ok (dict_set bytes_eqb acc t r)
         | _ => Err ValueError
         end).
Proof. reflexivity. Qed.

(** The keys of a loaded table are all different. *)
Lemma load_lines_NoDup L lines acc ranks :
  NoDup (dict_keys acc) ->
  load_lines L lines (Ok acc) = Ok ranks -> NoDup (dict_keys ranks).
Proof.
  revert acc. induction lines as [|l lines IH]; intros acc Hnd H.
  - injection H as <-. exact Hnd.
  - rewrite load_lines_cons in H.
    destruct (is_empty l); [now apply (IH acc)|].
    destruct (split l) as [|token [|rank [|x fields]]]; cbv beta iota in H;
      try (rewrite load_lines_Err in H; discriminate H).
    destruct (int_of_str L rank) as [r|e]; cbn [bind] in H;
      [|rewrite load_lines_Err in H; discriminate H].
    destruct (b64decode L token) as [t|e]; cbn [bind] in H;
      [|rewrite load_lines_Err in H; discriminate H].
    apply (IH (dict_set bytes_eqb acc t r)); [|exact H].
    now apply (dict_set_NoDup bytes_eqb bytes_eqb_eq).
Qed.

Section SaveThenLoad.
Variable L : pylib.
Hypothesis b64decode_b64encode :
  forall data : bytes, data <> [] -> b64decode L (b64encode data) = Ok data.
Hypothesis int_of_str_str_of_int :
  forall z : Z, int_of_str L (str_of_int z) = Ok z.

Lemma load_lines_written (entries acc : dict bytes Z) :
  NoDup (dict_keys acc ++ dict_keys entries) ->
  Forall (fun e => fst e <> []) entries ->
  load_lines L (map line_body entries) (Ok acc) = Ok (acc ++ entries).
Proof.
  revert acc. induction entries as [|[t r] es IH]; intros acc Hnd Hne.
  - now rewrite app_nil_r.
  - inversion Hne as [|? ? Ht Hes]; subst. cbn [fst] in Ht.
    cbn [map]. rewrite load_lines_cons.
    rewrite line_body_not_empty, split_line_body by exact Ht.
    cbn [fst snd].
    rewrite int_of_str_str_of_int, b64decode_b64encode by exact Ht.
    cbn [bind].
    rewrite (dict_set_fresh bytes_eqb bytes_eqb_eq).
    + rewrite IH; [now rewrite <- app_assoc | | exact Hes].
      unfold dict_keys in *. rewrite map_app. cbn [map fst] in *.
      now rewrite <- app_assoc.
    + cbn [dict_keys map fst] in Hnd. apply NoDup_remove_2 in Hnd.
      intros Hin. apply Hnd. apply in_or_app. now left.
Qed.

Lemma load_written_text fs file (entries : dict bytes Z) :
  NoDup (dict_keys entries) ->
  Forall (fun e => fst e <> []) entries ->
  read_text fs file = Ok (concat (map model_line entries)) ->
  load_tiktoken_bpe L fs file = Ok entries.
Proof.
  intros Hnd Hne Hread. rewrite load_tiktoken_bpe_lines, Hread. cbn [bind].
  rewrite splitlines_model_text.
  exact (load_lines_written entries [] Hnd Hne).
Qed.
End SaveThenLoad.

Lemma load_tiktoken_bpe_NoDup L fs file ranks :
  load_tiktoken_bpe L fs file = Ok ranks -> NoDup (dict_keys ranks).
Proof.
  rewrite load_tiktoken_bpe_lines. intros H.
  apply bind_Ok_inv in H. destruct H as (text & _ & H).
  apply (load_lines_NoDup L (splitlines text) [] ranks); [constructor | exact H].
Qed.

(* ================================================================== *)
(** * The claim on [save_pretrained] *)

(** C8 (as the code has it).  Let [b64decode] and [int] read back what
    [b64encode] and [str] write.  For the table loaded from a model file
    and the tokenizer built from it, where nothing in the file system
    stands in the way, [save_pretrained] returns and leaves

    - as [tokenizer.tiktoken], one line for each entry of the table in
      table order: the Base64 text of the token, one space, the rank in
      decimal, a line feed.  Loading that file gives the same table where
      no token is empty, and the file equals the original where the
      original already consists of such lines for distinct, non-empty
      tokens;
    - as [special_tokens.json], the registry with each entry on a line of
      its own behind two spaces, in registration order, a character from
      128 on being written as it is. *)
Theorem C8_save_writes_canonical_files
    (L : pylib) (fs : filesystem) (file dir : path)
    (ranks : dict bytes Z) (tk : FishTokenizer) :
  (forall data : bytes, data <> [] -> b64decode L (b64encode data) = Ok data) ->
  (forall z : Z, int_of_str L (str_of_int z) = Ok z) ->
  load_tiktoken_bpe L fs file = Ok ranks ->
  init_registry L ranks file = Ok tk ->
  save_ready fs dir = true ->
  exists fs',
    save_pretrained tk fs dir = Ok fs'
    /\ fs' (model_file_of dir) = Some (File (concat (map model_line ranks)))
    /\ (Forall (fun e => fst e <> []) ranks ->
        load_tiktoken_bpe L fs' (model_file_of dir) = Ok ranks)
    /\ (forall entries : dict bytes Z,
          NoDup (dict_keys entries) ->
          Forall (fun e => fst e <> []) entries ->
          read_text fs file = Ok (concat (map model_line entries)) ->
          read_text fs' (model_file_of dir) = read_text fs file)
    /\ fs' (json_file_of dir) = Some (File (special_tokens_json (len ranks)))
    /\ (forall c, (128 <= c)%N -> json_escape_char c = [c]).
Proof.
  intros Hb64 Hint Hload Hinit Hready.
  apply init_registry_inv in Hinit. destruct Hinit as (core & _ & ->).
  destruct (save_pretrained_ready (tokenizer_of ranks file core) fs dir Hready)
    as (fs' & Hsave & Hm & Hj & Hdirs).
  change (_mergeable_ranks (tkt_model (tokenizer_of ranks file core)))
    with ranks in Hm.
  change (all_special_tokens_with_ids (tokenizer_of ranks file core))
    with (registry (len ranks)) in Hj.
  assert (Hread : read_text fs' (model_file_of dir)
                  = Ok (concat (map model_line ranks))).
  { unfold model_file_of. apply read_text_child; [exact Hdirs | exact Hm]. }
  exists fs'. split; [exact Hsave|]. split; [exact Hm|]. split; [|split; [|split]].
  - intros Hne. apply (load_written_text L Hb64 Hint); [|exact Hne|exact Hread].
    now apply (load_tiktoken_bpe_NoDup L fs file).
  - intros entries Hnd Hne Horig.
    pose proof (load_written_text L Hb64 Hint fs file entries Hnd Hne Horig) as E.
    rewrite Hload in E. apply Ok_inj in E. rewrite Hread, Horig, E.
    reflexivity.
  - rewrite Hj, json_dump_registry. reflexivity.
  - apply json_escape_char_non_ascii.
Qed.

(** C8 (as the code has it) at the sample model file, saved to [out],
    with the strict readers of [reference_lib]. *)
Lemma C8_save_writes_canonical_files_witness :
  exists fs',
    save_pretrained sample_tokenizer sample_fs out_dir = Ok fs'
    /\ fs' (model_file_of out_dir)
       = Some (File (concat (map model_line sample_ranks)))
    /\ (Forall (fun e => fst e <> []) sample_ranks ->
        load_tiktoken_bpe reference_lib fs' (model_file_of out_dir)
        = Ok sample_ranks)
    /\ (forall entries : dict bytes Z,
          NoDup (dict_keys entries) ->
          Forall (fun e => fst e <> []) entries ->
          read_text sample_fs sample_file
          = Ok (concat (map model_line entries)) ->
          read_text fs' (model_file_of out_dir)
          = read_text sample_fs sample_file)
    /\ fs' (json_file_of out_dir)
       = Some (File (special_tokens_json (len sample_ranks)))
    /\ (forall c, (128 <= c)%N -> json_escape_char c = [c]).
Proof.
  apply (C8_save_writes_canonical_files reference_lib sample_fs sample_file
           out_dir sample_ranks sample_tokenizer).
  - intros data _. apply b64decode_strict_b64encode.
  - apply int_of_str_strict_str_of_int.
  - vm_compute. reflexivity.
  - rewrite init_registry_unfold. reflexivity.
  - vm_compute. reflexivity.
Defined.

(** C8, as the spec states it, on a model file with an empty line: the
    file that [save_pretrained] writes for the table loaded from it has no
    empty line, so it is not the original. *)
Lemma C8_counterexample_empty_line :
  read_text sample_fs sample_file = Ok sample_model_text
  /\ load_tiktoken_bpe reference_lib sample_fs sample_file = Ok sample_ranks
  /\ init_registry reference_lib sample_ranks sample_file = Ok sample_tokenizer
  /\ exists fs',
       save_pretrained sample_tokenizer sample_fs out_dir = Ok fs'
       /\ read_text fs' (model_file_of out_dir) = Ok sample_saved_text
       /\ sample_saved_text <> sample_model_text.
Proof.
  split; [vm_compute; reflexivity|]. split; [vm_compute; reflexivity|].
  split; [apply sample_tokenizer_built|].
  destruct (save_pretrained_ready sample_tokenizer sample_fs out_dir)
    as (fs' & Hsave & Hm & _ & Hdirs); [vm_compute; reflexivity|].
  exists fs'. split; [exact Hsave|]. split.
  - unfold model_file_of. apply read_text_child; [exact Hdirs|].
    exact Hm.
  - intros H. vm_compute in H. discriminate H.
Qed.

(* ================================================================== *)
(** * More on [tokenize] *)

(** X1.  [tokenize] returns [ceil(len(text) / 400000)] chunks, none of them
    empty; so the empty text, and only it, has no chunk. *)
Theorem X1_tokenize_chunk_count (text : pystr) :
  len (tokenize text) = (len text + 399999) / 400000
  /\ Forall (fun chunk => 0 < len chunk) (tokenize text)
  /\ (tokenize text = [] <-> text = []).
Proof.
  assert (HM : 0 < TIKTOKEN_MAX_ENCODE_CHARS) by reflexivity.
  assert (Hlen : len (tokenize text) = (len text + 399999) / 400000).
  { change (tokenize text) with (chunks_of TIKTOKEN_MAX_ENCODE_CHARS text).
    rewrite (chunks_of_windows _ text HM). unfold len at 1.
    rewrite length_map, length_seq. unfold chunk_count.
    change TIKTOKEN_MAX_ENCODE_CHARS with 400000.
    replace (len text + 400000 - 1) with (len text + 399999) by lia.
    apply Z2Nat.id. apply Z.div_pos; unfold len; lia. }
  split; [exact Hlen|]. split.
  - apply Forall_forall. intros chunk Hin.
    apply (chunks_of_sizes TIKTOKEN_MAX_ENCODE_CHARS text chunk HM Hin).
  - split.
    + intros E.
      destruct (chunks_of_spec TIKTOKEN_MAX_ENCODE_CHARS text HM) as [Hc _].
      change (chunks_of TIKTOKEN_MAX_ENCODE_CHARS text) with (tokenize text) in Hc.
      rewrite E in Hc. symmetry. exact Hc.
    + intros ->. reflexivity.
Qed.

(** X2.  A text that is not empty and has at most 400000 characters is its
    own only chunk. *)
Theorem X2_tokenize_short_text (text : pystr) :
  0 < len text <= 400000 -> tokenize text = [text].
Proof.
  intros H. apply (chunks_of_one TIKTOKEN_MAX_ENCODE_CHARS text). exact H.
Qed.

(** X2 at the text [ab]. *)
Lemma X2_tokenize_short_text_witness : tokenize (lit "ab") = [lit "ab"].
Proof.
  apply (X2_tokenize_short_text (lit "ab")). unfold len. simpl. lia.
Defined.

(** X3.  Cutting a chunk again changes nothing: every chunk of a text is
    its own only chunk, so that [tokenize] applied to each chunk of a text
    gives the chunks of the text. *)
Theorem X3_tokenize_chunks_are_fixed (text : pystr) :
  flat_map tokenize (tokenize text) = tokenize text.
Proof.
  assert (H : forall chunks : list pystr,
            (forall c, In c chunks -> tokenize c = [c]) ->
            flat_map tokenize chunks = chunks).
  { induction chunks as [|c cs IH]; intros Hc; [reflexivity|].
    cbn [flat_map]. rewrite (Hc c) by now left.
    rewrite IH; [reflexivity|]. intros c' Hc'. apply Hc. now right. }
  apply H. intros c Hc. exact (tokenize_chunk text c Hc).
Qed.

(* ================================================================== *)
(** * More on [load_tiktoken_bpe] *)

Lemma load_lines_app L (a b : list pystr) acc :
  load_lines L (a ++ b) acc = load_lines L b (load_lines L a acc).
Proof. unfold load_lines. apply fold_left_app. Qed.

Lemma load_lines_skip L (l : pystr) lines acc :
  is_empty l = true -> load_lines L (l :: lines) acc = load_lines L lines acc.
Proof.
  intros H. destruct acc as [d|e].
  - rewrite load_lines_cons, H. reflexivity.
  - now rewrite !load_lines_Err.
Qed.

Lemma load_lines_nonempty L (lines : list pystr) acc :
  load_lines L (filter (fun l => negb (is_empty l)) lines) acc
  = load_lines L lines acc.
Proof.
  revert acc. induction lines as [|l lines IH]; intros acc; [reflexivity|].
  cbn [filter]. destruct (is_empty l) eqn:E; cbn [negb].
  - rewrite IH. symmetry. now apply load_lines_skip.
  - destruct acc as [d|e]; [|now rewrite !load_lines_Err].
    rewrite !load_lines_cons, E. apply IH.
Qed.

Lemma load_lines_bad_line L (l : pystr) lines (acc : dict bytes Z) :
  is_empty l = false -> length (split l) <> 2%nat ->
  load_lines L (l :: lines) (Ok acc) = Err ValueError.
Proof.
  intros He Hf. rewrite load_lines_cons, He.
  destruct (split l) as [|x [|y [|z fields]]]; cbv beta iota;
    try apply load_lines_Err.
  now destruct Hf.
Qed.

Lemma load_lines_length L (lines : list pystr) (acc ranks : dict bytes Z) :
  load_lines L lines (Ok acc) = Ok ranks ->
  (length ranks
   <= length acc + length (filter (fun l => negb (is_empty l)) lines))%nat.
Proof.
  revert acc. induction lines as [|l lines IH]; intros acc H.
  - injection H as <-. simpl. lia.
  - rewrite load_lines_cons in H. cbn [filter].
    destruct (is_empty l); cbn [negb].
    + now apply IH.
    + destruct (split l) as [|token [|rank [|x fields]]]; cbv beta iota in H;
        try (rewrite load_lines_Err in H; discriminate H).
      destruct (int_of_str L rank) as [r|e]; cbn [bind] in H;
        [|rewrite load_lines_Err in H; discriminate H].
      destruct (b64decode L token) as [t|e]; cbn [bind] in H;
        [|rewrite load_lines_Err in H; discriminate H].
      apply IH in H. cbn [length].
      assert (Hs : (length (dict_set bytes_eqb acc t r) <= S (length acc))%nat).
      { clear. induction acc as [|[k v] acc IHa]; simpl; [lia|].
        destruct (bytes_eqb k t); simpl; lia. }
      lia.
Qed.

Lemma dict_get_set_same (d : dict bytes Z) (k : bytes) (v : Z) :
  dict_get bytes_eqb (dict_set bytes_eqb d k v) k = Ok v.
Proof.
  induction d as [|[k' v'] d IH]; simpl.
  - now rewrite (proj2 (bytes_eqb_eq k k) eq_refl).
  - destruct (bytes_eqb k' k) eqn:E; simpl; rewrite E; [reflexivity | exact IH].
Qed.

Lemma split_empty_line (l : pystr) : is_empty l = true -> split l = [].
Proof. destruct l; [reflexivity | discriminate]. Qed.

(** X4.  Empty lines do not count: two model files with the same lines
    once the empty ones are left out load to the same result, table or
    exception. *)
Theorem X4_load_ignores_empty_lines
    (L : pylib) (fs : filesystem) (file1 file2 : path) (text1 text2 : pystr) :
  read_text fs file1 = Ok text1 ->
  read_text fs file2 = Ok text2 ->
  nonempty_lines text1 = nonempty_lines text2 ->
  load_tiktoken_bpe L fs file1 = load_tiktoken_bpe L fs file2.
Proof.
  intros H1 H2 E. rewrite !load_tiktoken_bpe_lines, H1, H2. cbn [bind].
  rewrite <- (load_lines_nonempty L (splitlines text1)).
  rewrite <- (load_lines_nonempty L (splitlines text2)).
  unfold nonempty_lines in E. now rewrite E.
Qed.

(** X4 at the sample model file and the same file without its empty
    line. *)
Lemma X4_load_ignores_empty_lines_witness :
  load_tiktoken_bpe reference_lib sample_fs_two sample_file
  = load_tiktoken_bpe reference_lib sample_fs_two sample_saved_file.
Proof.
  apply (X4_load_ignores_empty_lines reference_lib sample_fs_two sample_file
           sample_saved_file sample_model_text sample_saved_text);
    vm_compute; reflexivity.
Defined.



(** X6.  A line that is not empty and does not consist of exactly two
    fields (one field, three fields, white space only) makes the loading
    fail with ValueError, where the lines before it were read. *)
Theorem X6_load_rejects_malformed_line
    (L : pylib) (fs : filesystem) (file : path) (text : pystr)
    (before after : list pystr) (line : pystr) (read : dict bytes Z) :
  read_text fs file = Ok text ->
  splitlines text = before ++ line :: after ->
  load_lines L before (Ok []) = Ok read ->
  is_empty line = false ->
  length (split line) <> 2%nat ->
  load_tiktoken_bpe L fs file = Err ValueError.
Proof.
  intros Hread Hlines Hbefore He Hf.
  rewrite load_tiktoken_bpe_lines, Hread. cbn [bind].
  rewrite Hlines, load_lines_app, Hbefore.
  now apply load_lines_bad_line.
Qed.

(** X6 at a model file whose second line is [Yg==] alone. *)
Lemma X6_load_rejects_malformed_line_witness :
  load_tiktoken_bpe reference_lib sample_bad_fs sample_file = Err ValueError.
Proof.
  apply (X6_load_rejects_malformed_line reference_lib sample_bad_fs sample_file
           sample_bad_text [lit "YQ== 0"] [lit "PA== 2"] (lit "Yg==")
           [(["a"%char], 0)]);
    try (vm_compute; reflexivity).
  vm_compute. discriminate.
Defined.

(** X7.  The loaded table has at most as many entries as the file has
    lines that are not empty: a token that comes again adds none. *)
Theorem X7_load_table_size
    (L : pylib) (fs : filesystem) (file : path) (text : pystr)
    (ranks : dict bytes Z) :
  read_text fs file = Ok text ->
  load_tiktoken_bpe L fs file = Ok ranks ->
  len ranks <= len (nonempty_lines text).
Proof.
  intros Hread Hload.
  rewrite load_tiktoken_bpe_lines, Hread in Hload. cbn [bind] in Hload.
  apply load_lines_length in Hload. unfold len, nonempty_lines.
  apply Nat2Z.inj_le. exact Hload.
Qed.

(** X7 at the sample model file: seven entries, seven lines that are not
    empty. *)
Lemma X7_load_table_size_witness :
  len sample_ranks <= len (nonempty_lines sample_model_text).
Proof.
  apply (X7_load_table_size reference_lib sample_fs sample_file);
    vm_compute; reflexivity.
Defined.

(* ================================================================== *)
(** * More on the registry *)

Lemma dict_get_Ok_In {K V} (eqb : K -> K -> bool)
    (eqb_eq : forall x y, eqb x y = true <-> x = y)
    (d : dict K V) (k : K) (v : V) :
  dict_get eqb d k = Ok v -> In (k, v) d.
Proof.
  induction d as [|[k' v'] d IH]; simpl; [discriminate|].
  destruct (eqb k' k) eqn:E.
  - intros [= ->]. apply eqb_eq in E. subst. now left.
  - intros H. right. now apply IH.
Qed.

Lemma ALL_SPECIAL_TOKENS_length : length ALL_SPECIAL_TOKENS = 1036%nat.
Proof. vm_compute. reflexivity. Qed.

Lemma registry_In B (t : pystr) (id : Z) :
  In (t, id) (registry B) <->
  exists n, id = B + Z.of_nat n /\ nth_error ALL_SPECIAL_TOKENS n = Some t.
Proof.
  unfold registry. rewrite in_map_iff. split.
  - intros ([i t'] & [= <- <-] & Hin). apply enumerate_In in Hin.
    destruct Hin as (n & -> & Hn). now exists n.
  - intros (n & -> & Hn). exists (Z.of_nat n, t). split; [reflexivity|].
    apply enumerate_In. now exists n.
Qed.

Lemma registry_get_inv B (t : pystr) (id : Z) :
  dict_get pystr_eqb (registry B) t = Ok id ->
  exists n, id = B + Z.of_nat n /\ nth_error ALL_SPECIAL_TOKENS n = Some t
            /\ (n < 1036)%nat.
Proof.
  intros H. apply (dict_get_Ok_In pystr_eqb pystr_eqb_eq) in H.
  apply registry_In in H. destruct H as (n & -> & Hn).
  exists n. repeat split; [exact Hn|].
  rewrite <- ALL_SPECIAL_TOKENS_length. apply nth_error_Some. congruence.
Qed.

(** X8.  For a tokenizer built from a merge table of [B] entries,
    [get_token_id] returns an id exactly for the registered names and
    raises KeyError for every other name; the id of a name is [B] plus its
    position in [ALL_SPECIAL_TOKENS], so it lies in [[B, B + 1036)], and
    two names with the same id are the same name. *)
Theorem X8_get_token_id_registered_names
    (L : pylib) (ranks : dict bytes Z) (model_path : path) (tk : FishTokenizer) :
  init_registry L ranks model_path = Ok tk ->
  (forall t, In t ALL_SPECIAL_TOKENS <-> exists id, get_token_id tk t = Ok id)
  /\ (forall t, ~ In t ALL_SPECIAL_TOKENS -> get_token_id tk t = Err KeyError)
  /\ (forall t id, get_token_id tk t = Ok id ->
        len ranks <= id < len ranks + 1036
        /\ nth_error ALL_SPECIAL_TOKENS (Z.to_nat (id - len ranks)) = Some t)
  /\ (forall t t' id, get_token_id tk t = Ok id -> get_token_id tk t' = Ok id ->
        t = t').
Proof.
  intros H. apply init_registry_inv in H. destruct H as (core & _ & ->).
  assert (Hget : forall t,
            get_token_id (tokenizer_of ranks model_path core) t
            = dict_get pystr_eqb (registry (len ranks)) t) by reflexivity.
  split; [|split; [|split]].
  - intros t. split.
    + intros Hin. destruct (In_nth_error _ _ Hin) as (n & Hn).
      exists (len ranks + Z.of_nat n). rewrite Hget. now apply registry_get.
    + intros (id & Hid). rewrite Hget in Hid.
      apply registry_get_inv in Hid. destruct Hid as (n & _ & Hn & _).
      now apply nth_error_In in Hn.
  - intros t Ht. rewrite Hget. now apply registry_get_unknown.
  - intros t id Hid. rewrite Hget in Hid.
    apply registry_get_inv in Hid. destruct Hid as (n & -> & Hn & Hlt).
    split; [lia|].
    replace (Z.to_nat (len ranks + Z.of_nat n - len ranks)) with n by lia.
    exact Hn.
  - intros t t' id Ht Ht'. rewrite Hget in Ht, Ht'.
    apply registry_get_inv in Ht, Ht'.
    destruct Ht as (n & -> & Hn & _). destruct Ht' as (n' & E & Hn' & _).
    assert (n = n') by lia. subst n'. congruence.
Qed.

(** X8 at the tokenizer of the sample table. *)
Lemma X8_get_token_id_registered_names_witness :
  (forall t, In t ALL_SPECIAL_TOKENS <->
             exists id, get_token_id sample_tokenizer t = Ok id)
  /\ (forall t, ~ In t ALL_SPECIAL_TOKENS ->
                get_token_id sample_tokenizer t = Err KeyError)
  /\ (forall t id, get_token_id sample_tokenizer t = Ok id ->
        len sample_ranks <= id < len sample_ranks + 1036
        /\ nth_error ALL_SPECIAL_TOKENS (Z.to_nat (id - len sample_ranks))
           = Some t)
  /\ (forall t t' id, get_token_id sample_tokenizer t = Ok id ->
        get_token_id sample_tokenizer t' = Ok id -> t = t').
Proof.
  apply (X8_get_token_id_registered_names reference_lib sample_ranks
           sample_file sample_tokenizer).
  rewrite init_registry_unfold. reflexivity.
Defined.

Lemma enumerate_fst {A} (l : list A) :
  map fst (enumerate l) = map Z.of_nat (seq 0 (length l)).
Proof.
  unfold enumerate. generalize 0%nat as s.
  induction l as [|y l IH]; intros s; simpl; [reflexivity|].
  now rewrite IH.
Qed.

Lemma NoDup_map_of_nat (l : list nat) : NoDup l -> NoDup (map Z.of_nat l).
Proof.
  induction 1 as [|x l Hx Hl IH]; simpl; constructor; [|exact IH].
  intros Hin. apply in_map_iff in Hin. destruct Hin as (y & E & Hy).
  apply Nat2Z.inj in E. now subst y.
Qed.

Lemma Z_eqb_eq (x y : Z) : Z.eqb x y = true <-> x = y.
Proof. apply Z.eqb_eq. Qed.

Lemma semantic_ids_map B :
  semantic_ids B
  = map (fun it : Z * pystr => (fst it, B + 12 + fst it))
      (enumerate SEMANTIC_TOKENS).
Proof.
  unfold semantic_ids.
  rewrite (comprehension_distinct Z.eqb Z_eqb_eq
             (fun it : Z * pystr => fst it) (fun it => B + 12 + fst it)).
  - reflexivity.
  - cbn [dict_keys map app]. rewrite enumerate_fst.
    apply NoDup_map_of_nat, seq_NoDup.
Qed.

Lemma semantic_ids_keys B :
  dict_keys (semantic_ids B) = map Z.of_nat (seq 0 1024).
Proof.
  rewrite semantic_ids_map. unfold dict_keys. rewrite map_map.
  rewrite (map_ext _ fst) by reflexivity.
  now rewrite enumerate_fst, SEMANTIC_TOKENS_length.
Qed.

Lemma semantic_ids_get B (i : Z) :
  dict_get Z.eqb (semantic_ids B) i
  = if (0 <=? i) && (i <? 1024) then Ok (B + 12 + i) else Err KeyError.
Proof.
  destruct ((0 <=? i) && (i <? 1024)) eqn:E.
  - apply andb_true_iff in E. destruct E as [E1 E2].
    apply Z.leb_le in E1. apply Z.ltb_lt in E2.
    apply (dict_get_In Z.eqb Z_eqb_eq).
    + rewrite semantic_ids_keys.
      apply NoDup_map_of_nat, seq_NoDup.
    + rewrite semantic_ids_map. apply in_map_iff.
      exists (i, SEMANTIC_TOKEN_TEMPLATE i). split; [reflexivity|].
      apply enumerate_In. exists (Z.to_nat i). split; [lia|].
      rewrite SEMANTIC_TOKENS_nth by lia. do 2 f_equal. lia.
  - apply (dict_get_fresh Z.eqb Z_eqb_eq). rewrite semantic_ids_keys.
    intros Hin. apply in_map_iff in Hin. destruct Hin as (n & <- & Hn).
    apply in_seq in Hn.
    apply andb_false_iff in E. destruct E as [E|E];
      [apply Z.leb_gt in E | apply Z.ltb_ge in E]; lia.
Qed.

(** X9.  For a tokenizer built from a merge table, the dictionary
    [semantic_id_to_token_id] maps every [i] from 0 to 1023 to
    [semantic_begin_id + i], the id that [get_token_id] gives for the
    [i]-th semantic token, and has no other key. *)
Theorem X9_semantic_id_to_token_id
    (L : pylib) (ranks : dict bytes Z) (model_path : path) (tk : FishTokenizer) :
  init_registry L ranks model_path = Ok tk ->
  (forall i, 0 <= i < 1024 ->
      dict_get Z.eqb (semantic_id_to_token_id tk) i
      = Ok (semantic_begin_id tk + i)
      /\ dict_get Z.eqb (semantic_id_to_token_id tk) i
         = get_token_id tk (SEMANTIC_TOKEN_TEMPLATE i))
  /\ (forall i, i < 0 \/ 1024 <= i ->
        dict_get Z.eqb (semantic_id_to_token_id tk) i = Err KeyError).
Proof.
  intros H. apply init_registry_inv in H. destruct H as (core & _ & ->).
  change (semantic_id_to_token_id (tokenizer_of ranks model_path core))
    with (semantic_ids (len ranks)).
  change (semantic_begin_id (tokenizer_of ranks model_path core))
    with (len ranks + 12).
  split.
  - intros i Hi. rewrite semantic_ids_get.
    destruct (Z.leb_spec 0 i); [|lia]. destruct (Z.ltb_spec i 1024); [|lia].
    cbn [andb]. split; [reflexivity|].
    unfold get_token_id, tokenizer_of. cbn [all_special_tokens_with_ids].
    symmetry. now apply registry_get_template.
  - intros i Hi. rewrite semantic_ids_get.
    destruct (Z.leb_spec 0 i); destruct (Z.ltb_spec i 1024);
      try reflexivity; lia.
Qed.

(** X9 at the tokenizer of the sample table. *)
Lemma X9_semantic_id_to_token_id_witness :
  (forall i, 0 <= i < 1024 ->
      dict_get Z.eqb (semantic_id_to_token_id sample_tokenizer) i
      = Ok (semantic_begin_id sample_tokenizer + i)
      /\ dict_get Z.eqb (semantic_id_to_token_id sample_tokenizer) i
         = get_token_id sample_tokenizer (SEMANTIC_TOKEN_TEMPLATE i))
  /\ (forall i, i < 0 \/ 1024 <= i ->
        dict_get Z.eqb (semantic_id_to_token_id sample_tokenizer) i
        = Err KeyError).
Proof.
  apply (X9_semantic_id_to_token_id reference_lib sample_ranks sample_file
           sample_tokenizer).
  rewrite init_registry_unfold. reflexivity.
Defined.

(** X10.  Where every rank of the merge table is below the size of the
    table, no special token has the id of a merge-table entry: the special
    ids begin at the size of the table. *)
Theorem X10_special_ids_above_ranks
    (L : pylib) (ranks : dict bytes Z) (model_path : path) (tk : FishTokenizer) :
  init_registry L ranks model_path = Ok tk ->
  Forall (fun entry => snd entry < len ranks) ranks ->
  forall t id, get_token_id tk t = Ok id -> ~ In id (map snd ranks).
Proof.
  intros H Hdense t id Hid Hin.
  apply init_registry_inv in H. destruct H as (core & _ & ->).
  unfold get_token_id, tokenizer_of in Hid.
  cbn [all_special_tokens_with_ids] in Hid.
  apply registry_get_inv in Hid. destruct Hid as (n & -> & _ & _).
  apply in_map_iff in Hin. destruct Hin as (entry & E & Hentry).
  rewrite Forall_forall in Hdense. specialize (Hdense entry Hentry). lia.
Qed.

(** X10 at the sample table, whose ranks are 0 to 6, and the pad token,
    whose id is 9. *)
Lemma X10_special_ids_above_ranks_witness : ~ In 9 (map snd sample_ranks).
Proof.
  refine (X10_special_ids_above_ranks reference_lib sample_ranks sample_file
            sample_tokenizer _ _ PAD_TOKEN 9 _).
  - rewrite init_registry_unfold. reflexivity.
  - repeat constructor.
  - vm_compute. reflexivity.
Defined.

(* ================================================================== *)
(** * What [encode], the conversion and [from_pretrained] can raise *)

Lemma next_allowed_In specials allowed (s before t rest : pystr) :
  next_allowed specials allowed s = Some (before, t, rest) -> In t specials.
Proof.
  revert before t rest.
  induction s as [|c s IH]; intros before t rest;
    rewrite next_allowed_unfold; cbv zeta;
    destruct (match_literal specials _) as [t0|] eqn:E.
  - destruct (mem t0 allowed); [|discriminate].
    intros [= _ <- _]. unfold match_literal in E.
    apply find_some in E. apply E.
  - discriminate.
  - destruct (mem t0 allowed).
    + intros [= _ <- _]. unfold match_literal in E.
      apply find_some in E. apply E.
    + destruct (next_allowed specials allowed s) as [[[b1 t1] r1]|] eqn:N;
        [|discriminate].
      intros [= _ <- _]. exact (IH b1 t1 r1 eq_refl).
  - destruct (next_allowed specials allowed s) as [[[b1 t1] r1]|] eqn:N;
      [|discriminate].
    intros [= _ <- _]. exact (IH b1 t1 r1 eq_refl).
Qed.

Lemma dict_get_key {V} (d : dict pystr V) (t : pystr) :
  In t (dict_keys d) -> exists v, dict_get pystr_eqb d t = Ok v.
Proof.
  induction d as [|[k v] d IH]; simpl; [intros []|].
  intros [->|H].
  - rewrite pystr_eqb_refl. eauto.
  - destruct (pystr_eqb k t); eauto.
Qed.

Lemma reachable_native {A} (r : option A) :
  raises_only reachable_errors (native r).
Proof.
  destruct r; [apply raises_only_Ok|].
  apply raises_only_Err. simpl. tauto.
Qed.

Lemma reachable_core_encode fuel enc allowed text :
  raises_only reachable_errors (core_encode fuel enc allowed text).
Proof.
  revert text. induction fuel as [|fuel IH]; intros text; simpl;
    destruct (next_allowed _ allowed text) as [[[before t] rest]|] eqn:N;
    try apply reachable_native;
    (apply raises_only_bind; [apply reachable_native|]; intros ids;
     apply next_allowed_In in N;
     destruct (dict_get_key (_special_tokens enc) t N) as (id & ->);
     cbn [bind]).
  - apply raises_only_Err. simpl. tauto.
  - apply raises_only_bind; [apply IH|]. intros more. apply raises_only_Ok.
Qed.

Lemma reachable_load_global extra name :
  raises_only reachable_errors (load_global extra name).
Proof.
  unfold load_global. destruct (assoc name extra); [apply raises_only_Ok|].
  destruct (_ || _); [apply raises_only_Ok|].
  apply raises_only_Err. simpl. tauto.
Qed.

Lemma reachable_iterate v : raises_only reachable_errors (iterate v).
Proof.
  destruct v; simpl; try apply raises_only_Ok;
    apply raises_only_Err; simpl; tauto.
Qed.

Lemma reachable_convert extra tk tokens allowed :
  raises_only reachable_errors (convert_tokens_to_ids extra tk tokens allowed).
Proof.
  unfold convert_tokens_to_ids.
  apply raises_only_bind; [apply reachable_load_global|]. intros subs.
  apply raises_only_bind; [apply reachable_iterate|]. intros texts.
  apply raises_only_bind; [|intros; apply raises_only_Ok].
  apply raises_only_mapM. intros [| | |s| | | | | |];
    try (apply raises_only_Err; simpl; tauto).
  unfold Encoding_encode. simpl. apply reachable_core_encode.
Qed.

(** X11.  Whatever the tokenizer, the namespace and the arguments,
    [convert_tokens_to_ids] raises nothing but TypeError, NameError or a
    failure of the native core: the special token that tiktoken finds in
    a text is a key of the dictionary in which its id is looked up, so
    that no KeyError comes out, and no special token is disallowed.  The
    same holds for [encode] of a [str] or a [list]. *)
Theorem X11_conversion_raises_no_KeyError
    (extra : namespace) (optimized : bool) (tk : FishTokenizer)
    (tokens : pyval) (allowed : allowed_arg) :
  raises_only reachable_errors (convert_tokens_to_ids extra tk tokens allowed)
  /\ convert_tokens_to_ids extra tk tokens allowed <> Err KeyError
  /\ (forall text : pystr,
        raises_only reachable_errors
          (encode extra optimized tk (VStr text) allowed))
  /\ (forall texts : list pyval,
        raises_only reachable_errors
          (encode extra optimized tk (VList texts) allowed)).
Proof.
  split; [apply reachable_convert|]. split.
  - intros H. apply reachable_convert in H. simpl in H.
    destruct H as [H|[H|[H|[]]]]; discriminate H.
  - split.
    + intros text. rewrite encode_str. apply raises_only_Err. simpl. tauto.
    + intros texts. rewrite encode_list. apply reachable_convert.
Qed.

(** X12.  In the module as the file leaves it [encode] returns for no
    argument: a [str] ends in TypeError, a [list] in NameError (the name
    [subs] of line 112 is bound nowhere), anything else in AssertionError
    or, with assertions off, UnboundLocalError. *)
Theorem X12_encode_never_returns
    (optimized : bool) (tk : FishTokenizer) (text : pyval)
    (allowed : allowed_arg) :
  (forall texts : list pyval,
     encode module_globals optimized tk (VList texts) allowed = Err NameError)
  /\ exists e,
       encode module_globals optimized tk text allowed = Err e
       /\ In e [TypeError; NameError; AssertionError; UnboundLocalError].
Proof.
  split.
  - intros texts. rewrite encode_list. apply convert_module_globals.
  - destruct text as [| | |s|l| | | | |];
      try (exists (if optimized then UnboundLocalError else AssertionError);
           split; [destruct optimized; reflexivity
                  | destruct optimized; simpl; tauto]).
    + exists TypeError. split; [apply encode_str | simpl; tauto].
    + exists NameError. split; [|simpl; tauto].
      rewrite encode_list. apply convert_module_globals.
Qed.

Lemma os_attribute_error {A} (os : pyval) (a : A) (e : pyexn) :
  match os with VModule "os" => Ok a | _ => Err AttributeError end = Err e ->
  e = AttributeError.
Proof.
  intros H.
  repeat match type of H with
         | context [match ?x with _ => _ end] => destruct x
         end; congruence.
Qed.

(** X13.  [from_pretrained] returns a tokenizer in no namespace: where the
    names [Path] and [os] are bound, both branches reach the constructor,
    which raises TypeError; elsewhere the call ends in NameError or
    AttributeError. *)
Theorem X13_from_pretrained_never_returns
    (L : pylib) (extra : namespace) (fs : filesystem) (p : path) :
  (exists e, from_pretrained L extra fs p = Err e
             /\ In e [NameError; AttributeError; TypeError])
  /\ (assoc "os" extra = Some (VModule "os") ->
      from_pretrained L extra fs p = Err TypeError).
Proof.
  assert (HP : exists v, load_global extra "Path" = Ok v).
  { unfold load_global. destruct (assoc "Path" extra); [eauto|].
    exists (VObject "Path"). reflexivity. }
  destruct HP as (v & HP).
  unfold from_pretrained. rewrite HP. cbn [bind].
  split.
  - destruct (load_global extra "os") as [os|e] eqn:Hos; cbn [bind].
    + destruct (match os with
                | VModule "os" => Ok (isfile fs p)
                | _ => Err AttributeError
                end) as [b|e] eqn:M; cbn [bind].
      * exists TypeError. split; [|simpl; tauto].
        destruct b; apply FishTokenizer_new_TypeError.
      * exists e. split; [reflexivity|].
        apply os_attribute_error in M. subst e. simpl. tauto.
    + exists e. split; [reflexivity|].
      unfold load_global in Hos. destruct (assoc "os" extra); [discriminate|].
      destruct (_ || _); [discriminate|]. injection Hos as <-. simpl. tauto.
  - intros Hos. unfold load_global. rewrite Hos. cbn [bind].
    destruct (isfile fs p); apply FishTokenizer_new_TypeError.
Qed.

(** X13 at a namespace that binds [os] to the module. *)
Lemma X13_from_pretrained_never_returns_witness :
  (exists e, from_pretrained reference_lib [("os"%string, VModule "os")]
               sample_fs sample_file = Err e
             /\ In e [NameError; AttributeError; TypeError])
  /\ (assoc "os" [("os"%string, VModule "os")] = Some (VModule "os") ->
      from_pretrained reference_lib [("os"%string, VModule "os")]
        sample_fs sample_file = Err TypeError).
Proof.
  apply (X13_from_pretrained_never_returns reference_lib
           [("os"%string, VModule "os")] sample_fs sample_file).
Defined.

(* ================================================================== *)
(** * Conversion and [decode] *)

Lemma is_prefix_split (t s : pystr) :
  is_prefix t s = true -> s = t ++ skipn (length t) s.
Proof.
  revert s. induction t as [|x t IH]; intros s H; [reflexivity|].
  destruct s as [|y s]; [discriminate H|].
  cbn [is_prefix] in H. apply andb_true_iff in H. destruct H as [E H].
  apply N.eqb_eq in E. subst y. cbn [length skipn app].
  now rewrite <- (IH s H).
Qed.

Lemma next_allowed_split specials allowed (s before t rest : pystr) :
  next_allowed specials allowed s = Some (before, t, rest) ->
  s = before ++ t ++ rest.
Proof.
  assert (Hm : forall (s0 t0 : pystr),
             match_literal specials s0 = Some t0 ->
             s0 = t0 ++ skipn (length t0) s0).
  { intros s0 t0 E. unfold match_literal in E. apply find_some in E.
    now apply is_prefix_split. }
  revert before t rest.
  induction s as [|c s IH]; intros before t rest;
    rewrite next_allowed_unfold; cbv zeta;
    destruct (match_literal specials _) as [t0|] eqn:E.
  - destruct (mem t0 allowed); [|discriminate].
    intros [= <- <- <-]. exact (Hm _ _ E).
  - discriminate.
  - destruct (mem t0 allowed).
    + intros [= <- <- <-]. exact (Hm _ _ E).
    + destruct (next_allowed specials allowed s) as [[[b1 t1] r1]|] eqn:N;
        [|discriminate].
      intros [= <- <- <-]. cbn [app]. now rewrite <- (IH b1 t1 r1 eq_refl).
  - destruct (next_allowed specials allowed s) as [[[b1 t1] r1]|] eqn:N;
      [|discriminate].
    intros [= <- <- <-]. cbn [app]. now rewrite <- (IH b1 t1 r1 eq_refl).
Qed.

Lemma native_Ok_inv {A} (r : option A) (a : A) : native r = Ok a -> r = Some a.
Proof. destruct r; simpl; congruence. Qed.

Lemma convert_texts tk tokens allowed (texts : list pystr) :
  convert_tokens_to_ids (with_subs (VList (map VStr texts))) tk tokens allowed
  = (batches <-
       mapM (fun s => core_encode (length s) (tkt_model tk)
                        (allowed_set tk allowed) s) texts ;;
     Ok (concat batches)).
Proof.
  unfold convert_tokens_to_ids.
  change (load_global (with_subs (VList (map VStr texts))) "subs")
    with (Ok (VList (map VStr texts))).
  cbn [bind iterate]. unfold Encoding_encode_batch.
  rewrite mapM_map. reflexivity.
Qed.

Section RoundTrip.
Variable enc : Encoding.
Hypothesis laws : core_round_trip (_core_bpe enc).
Hypothesis special_law : forall (t : pystr) (id : Z),
dict_get pystr_eqb (_special_tokens enc) t = Ok id ->
decode_ids (_core_bpe enc) [id] = Some t.

Lemma core_encode_decode fuel allowed (text : pystr) (ids : list Z) :
core_encode fuel enc allowed text = Ok ids ->
decode_ids (_core_bpe enc) ids = Some text.
Proof.
destruct laws as (_ & Hinv & Happ).
revert text ids. induction fuel as [|fuel IH]; intros text ids;
  cbn [core_encode];
  destruct (next_allowed _ allowed text) as [[[before t] rest]|] eqn:N.
- intros H. apply bind_Ok_inv in H. destruct H as (ids0 & _ & H).
  apply bind_Ok_inv in H. destruct H as (id & _ & H). discriminate H.
- intros H. apply native_Ok_inv in H. now apply Hinv.
- intros H. apply bind_Ok_inv in H. destruct H as (ids0 & H0 & H).
  apply bind_Ok_inv in H. destruct H as (id & Hid & H).
  apply bind_Ok_inv in H. destruct H as (more & Hmore & H).
  apply Ok_inj in H. subst ids.
  apply native_Ok_inv in H0. apply Hinv in H0.
  apply special_law in Hid. apply IH in Hmore.
  rewrite (next_allowed_split _ _ _ _ _ _ N).
  apply Happ; [exact H0|].
  change (id :: more) with ([id] ++ more). now apply Happ.
- intros H. apply native_Ok_inv in H. now apply Hinv.
Qed.

Lemma batches_decode allowed (texts : list pystr) (batches : list (list Z)) :
mapM (fun s => core_encode (length s) enc allowed s) texts = Ok batches ->
decode_ids (_core_bpe enc) (concat batches) = Some (concat texts).
Proof.
destruct laws as (Hnil & _ & Happ).
revert batches. induction texts as [|s texts IH]; intros batches H.
- apply Ok_inj in H. subst batches. exact Hnil.
- cbn [mapM] in H. apply bind_Ok_inv in H. destruct H as (ids & Hs & H).
  apply bind_Ok_inv in H. destruct H as (rest & Hrest & H).
  apply Ok_inj in H. subst batches. cbn [concat].
  apply Happ; [exact (core_encode_decode _ allowed s ids Hs) | now apply IH].
Qed.
End RoundTrip.


Lemma map_option_app {A B} (f : A -> option B) (xs ys : list A) :
  map_option f (xs ++ ys)
  = match map_option f xs, map_option f ys with
    | Some a, Some b => Some (a ++ b)
    | _, _ => None
    end.
Proof.
  induction xs as [|x xs IH]; cbn [app map_option].
  - now destruct (map_option f ys).
  - rewrite IH. destruct (f x); [|reflexivity].
    destruct (map_option f xs); [|reflexivity].
    now destruct (map_option f ys).
Qed.

Lemma sample_core_char (c : codepoint) (r : Z) :
  (c < 128)%N ->
  dict_get bytes_eqb sample_ranks [ascii_of_N c] = Ok r ->
  exists b x, find (fun kv : bytes * Z => Z.eqb (snd kv) r) sample_ranks
              = Some (b, x)
              /\ map N_of_ascii b = [c].
Proof.
  intros Hc.
  assert (Hall :
    forallb (fun n : nat =>
               match dict_get bytes_eqb sample_ranks [ascii_of_N (N.of_nat n)] with
               | Ok r0 =>
                   match find (fun kv : bytes * Z => Z.eqb (snd kv) r0)
                           sample_ranks with
                   | Some (b, _) =>
                       match map N_of_ascii b with
                       | [c0] => N.eqb c0 (N.of_nat n)
                       | _ => false
                       end
                   | None => false
                   end
               | Err _ => true
               end) (seq 0 128) = true) by (vm_compute; reflexivity).
  rewrite forallb_forall in Hall.
  specialize (Hall (N.to_nat c)).
  rewrite N2Nat.id in Hall. intros Hr. rewrite Hr in Hall.
  assert (Hin : In (N.to_nat c) (seq 0 128)) by (apply in_seq; lia).
  specialize (Hall Hin).
  destruct (find _ sample_ranks) as [[b x]|]; [|discriminate Hall].
  exists b, x. split; [reflexivity|].
  destruct (map N_of_ascii b) as [|c0 [|c1 l]]; try discriminate Hall.
  apply N.eqb_eq in Hall. now subst c0.
Qed.

Lemma sample_core_round_trip (specials : dict pystr Z) :
  core_round_trip (single_byte_core sample_ranks specials).
Proof.
  split; [reflexivity|]. split.
  - cbn [encode_ordinary decode_ids single_byte_core].
    induction s as [|c s IH]; intros ids H.
    + injection H as <-. reflexivity.
    + cbn [map_option] in H.
      destruct (N.ltb_spec c 128) as [Hc|Hc]; [|discriminate H].
      destruct (dict_get bytes_eqb sample_ranks [ascii_of_N c]) as [r|e] eqn:Hr;
        [|discriminate H].
      match type of H with
      | context [map_option ?f s] =>
          destruct (map_option f s) as [ids'|] eqn:Hs; [|discriminate H]
      end.
      injection H as <-. specialize (IH ids' eq_refl).
      destruct (sample_core_char c r Hc Hr) as (b & x & Hf & Hb).
      cbn [map_option]. rewrite Hf, Hb.
      match type of IH with
      | context [map_option ?f ids'] =>
          destruct (map_option f ids') as [parts|]; [|discriminate IH]
      end.
      cbn [option_map] in IH |- *. injection IH as IH.
      cbn [concat app]. now rewrite IH.
  - cbn [decode_ids single_byte_core]. intros a b a' b' Ha Hb.
    rewrite map_option_app.
    match type of Ha with
    | context [map_option ?f a] =>
        destruct (map_option f a) as [pa|]; [|discriminate Ha];
        destruct (map_option f b) as [pb|]; [|discriminate Hb]
    end.
    cbn [option_map] in *. injection Ha as <-. injection Hb as <-.
    now rewrite concat_app.
Qed.

Lemma sample_core_special (t : pystr) (id : Z) :
  dict_get pystr_eqb (registry (len sample_ranks)) t = Ok id ->
  decode_ids (single_byte_core sample_ranks (registry (len sample_ranks))) [id]
  = Some t.
Proof.
  intros H. pose proof (registry_get_inv _ _ _ H) as (n & -> & Hn & _).
  cbn [decode_ids single_byte_core map_option].
  assert (Hr : find (fun kv : bytes * Z =>
                       Z.eqb (snd kv) (len sample_ranks + Z.of_nat n))
                 sample_ranks = None).
  { change (len sample_ranks) with 7. cbn [find sample_ranks snd].
    repeat match goal with
           | |- context [Z.eqb ?a ?b] =>
               destruct (Z.eqb_spec a b) as [E|_]; [lia|]
           end.
    reflexivity. }
  rewrite Hr.
  rewrite (find_unique _ (registry (len sample_ranks))
             (t, len sample_ranks + Z.of_nat n)).
  - cbn [option_map concat]. now rewrite app_nil_r.
  - apply registry_In. exists n. split; [reflexivity | exact Hn].
  - apply Z.eqb_refl.
  - intros [t' id'] Hin E. cbn [snd] in E. apply Z.eqb_eq in E. subst id'.
    apply registry_In in Hin. destruct Hin as (n' & E & Hn').
    assert (n' = n) by lia. subst n'. congruence.
Qed.


(* ================================================================== *)
(** * The conversion returns *)

Lemma mapM_returns {A B} (f : A -> result B) (xs : list A) :
  (forall x, In x xs -> exists y, f x = Ok y) -> exists ys, mapM f xs = Ok ys.
Proof.
  induction xs as [|x xs IH]; intros H; [now exists []|].
  destruct (H x (or_introl eq_refl)) as (y & Hy).
  destruct IH as (ys & Hys); [intros z Hz; apply H; now right|].
  exists (y :: ys). cbn [mapM]. now rewrite Hy, Hys.
Qed.

Lemma core_encode_returns enc allowed :
  (forall t : pystr, In t (dict_keys (_special_tokens enc)) -> t <> []) ->
  forall (fuel : nat) (text : pystr),
    (length text <= fuel)%nat ->
    (forall piece : pystr, incl piece text ->
       exists ids, encode_ordinary (_core_bpe enc) piece = Some ids) ->
    exists ids, core_encode fuel enc allowed text = Ok ids.
Proof.
  intros Hne. induction fuel as [|fuel IH]; intros text Hlen Henc;
    cbn [core_encode];
    destruct (next_allowed _ allowed text) as [[[before t] rest]|] eqn:N;
    try (destruct (Henc text (incl_refl text)) as (ids & ->);
         now exists ids).
  - pose proof (next_allowed_split _ _ _ _ _ _ N) as E.
    apply next_allowed_In, Hne in N.
    assert (length text = 0%nat) as E0 by lia. rewrite E in E0.
    rewrite !length_app in E0. destruct t; [now destruct N | simpl in E0; lia].
  - pose proof (next_allowed_split _ _ _ _ _ _ N) as E.
    apply next_allowed_In in N. pose proof (Hne t N) as Ht.
    destruct (Henc before) as (ids0 & ->).
    { rewrite E. apply incl_appl, incl_refl. }
    destruct (dict_get_key (_special_tokens enc) t N) as (id & ->).
    cbn [native bind].
    destruct (IH rest) as (more & ->).
    + rewrite E, !length_app in Hlen. destruct t; [now destruct Ht|].
      simpl in Hlen. lia.
    + intros piece Hp. apply Henc. rewrite E.
      apply incl_appr, incl_appr. exact Hp.
    + cbn [bind]. eauto.
Qed.

(** X15.  For a tokenizer built from a merge table, the conversion of the
    chunks of a text returns, whatever special tokens are allowed, where
    the native core encodes every string made of characters of the text:
    no special token is the empty string, so that each one found leaves
    less text, and every one found has an id. *)
Theorem X15_conversion_returns
    (L : pylib) (ranks : dict bytes Z) (model_path : path) (tk : FishTokenizer)
    (text : pystr) (tokens : pyval) (allowed : allowed_arg) :
  init_registry L ranks model_path = Ok tk ->
  (forall piece : pystr, incl piece text ->
     exists ids, encode_ordinary (_core_bpe (tkt_model tk)) piece = Some ids) ->
  exists ids,
    convert_tokens_to_ids (with_subs (VList (map VStr (tokenize text)))) tk
      tokens allowed = Ok ids.
Proof.
  intros H Henc. apply init_registry_inv in H. destruct H as (core & _ & ->).
  rewrite convert_texts.
  match goal with
  | |- context [mapM ?f ?xs] =>
      destruct (mapM_returns f xs) as (batches & ->)
  end.
  - intros chunk Hchunk. apply core_encode_returns; [|lia|].
    + cbn [tkt_model tokenizer_of _special_tokens]. rewrite registry_keys.
      intros t Ht ->. pose proof ALL_SPECIAL_TOKENS_not_empty as Hall.
      rewrite forallb_forall in Hall. specialize (Hall [] Ht).
      discriminate Hall.
    + intros piece Hp. apply Henc. intros c Hc. apply Hp in Hc.
      destruct (chunks_of_spec TIKTOKEN_MAX_ENCODE_CHARS text eq_refl)
        as [Hcat _].
      change (chunks_of TIKTOKEN_MAX_ENCODE_CHARS text) with (tokenize text)
        in Hcat.
      rewrite <- Hcat. apply in_concat. now exists chunk.
  - cbn [bind]. eauto.
Qed.

Lemma sample_core_encodes (specials : dict pystr Z) (piece : pystr) :
  incl piece (lit "ab<|pad|>") ->
  exists ids,
    encode_ordinary (single_byte_core sample_ranks specials) piece = Some ids.
Proof.
  cbn [encode_ordinary single_byte_core].
  induction piece as [|c piece IH]; intros H; [now exists []|].
  destruct IH as (ids & Hids); [intros x Hx; apply H; now right|].
  cbn [map_option]. rewrite Hids.
  assert (Hc : In c (lit "ab<|pad|>")) by (apply H; now left).
  vm_compute in Hc.
  repeat (destruct Hc as [<-|Hc]; [vm_compute; eauto|]).
  destruct Hc.
Qed.

(** X15 at the tokenizer of the sample table and the text [ab<|pad|>]. *)
Lemma X15_conversion_returns_witness :
  exists ids,
    convert_tokens_to_ids
      (with_subs (VList (map VStr (tokenize (lit "ab<|pad|>")))))
      sample_tokenizer VNone (AllowedBool true) = Ok ids.
Proof.
  apply (X15_conversion_returns reference_lib sample_ranks sample_file
           sample_tokenizer (lit "ab<|pad|>") VNone (AllowedBool true)).
  - rewrite init_registry_unfold. reflexivity.
  - apply sample_core_encodes.
Defined.

(** X16.  The conversion of the chunks of a text is the concatenation of
    the conversions of the chunks one at a time, and raises what the first
    chunk that fails raises. *)
Theorem X16_conversion_chunk_by_chunk
    (tk : FishTokenizer) (tokens : pyval) (allowed : allowed_arg)
    (text : pystr) :
  convert_tokens_to_ids (with_subs (VList (map VStr (tokenize text)))) tk
    tokens allowed
  = (parts <-
       mapM (fun chunk =>
               convert_tokens_to_ids (with_subs (VList [VStr chunk])) tk
                 tokens allowed)
         (tokenize text) ;;
     Ok (concat parts)).
Proof.
  rewrite conversion_chunk_by_chunk.
  rewrite (mapM_ext_in
             (fun chunk =>
                convert_tokens_to_ids
                  (with_subs (VList (map VStr (tokenize chunk)))) tk
                  tokens allowed)
             (fun chunk =>
                convert_tokens_to_ids (with_subs (VList [VStr chunk])) tk
                  tokens allowed)); [reflexivity|].
  intros chunk Hin. now rewrite (tokenize_chunk text chunk Hin).
Qed.

(* ================================================================== *)
(** * More on [save_pretrained] *)

Lemma path_eqb_refl (p : path) : path_eqb p p = true.
Proof. now apply path_eqb_eq. Qed.

Lemma ancestor_not_self (p q : path) :
  In q (ancestors p) -> path_eqb q p = false.
Proof.
  intros H. destruct (path_eqb q p) eqn:E; [|reflexivity].
  apply path_eqb_eq in E. subst q. unfold ancestors in H.
  apply in_map_iff in H. destruct H as (k & Hk & Hin). apply in_seq in Hin.
  apply (f_equal (@length _)) in Hk. rewrite length_firstn in Hk. lia.
Qed.

Lemma mkdir_fold_Err (p : path) (qs : list path) (e : pyexn) :
  fold_left
    (fun acc q =>
       fs' <- acc ;;
       match fs' q with
       | Some Dir => Ok fs'
       | Some (File _) =>
           Err (if path_eqb q p then FileExistsError else NotADirectoryError)
       | None => Ok (fs_put fs' q Dir)
       end) qs (Err e) = Err e.
Proof. induction qs as [|q qs IH]; [reflexivity | exact IH]. Qed.

(** [mkdir] on a way with a file on it, before the directory itself. *)
Lemma mkdir_blocked (p : path) (qs : list path) (fs : filesystem) :
  (exists q, In q qs /\ is_file_node (fs q) = true) ->
  (forall q, In q qs -> path_eqb q p = false) ->
  fold_left
    (fun acc q =>
       fs' <- acc ;;
       match fs' q with
       | Some Dir => Ok fs'
       | Some (File _) =>
           Err (if path_eqb q p then FileExistsError else NotADirectoryError)
       | None => Ok (fs_put fs' q Dir)
       end) qs (Ok fs) = Err NotADirectoryError.
Proof.
  revert fs. induction qs as [|q0 qs IH]; intros fs (q & Hin & Hf) Hne.
  - destruct Hin.
  - cbn [fold_left bind]. destruct (fs q0) as [[text|]|] eqn:E0.
    + rewrite (Hne q0) by now left. apply mkdir_fold_Err.
    + apply IH; [|intros q' Hq'; apply Hne; now right].
      exists q. split; [|exact Hf].
      destruct Hin as [<-|Hin]; [|exact Hin].
      rewrite E0 in Hf. discriminate Hf.
    + apply IH; [|intros q' Hq'; apply Hne; now right].
      exists q. destruct Hin as [<-|Hin]; [rewrite E0 in Hf; discriminate Hf|].
      split; [exact Hin|]. unfold fs_put.
      destruct (path_eqb q0 q) eqn:E; [|exact Hf].
      apply path_eqb_eq in E. subst q0. rewrite E0 in Hf. discriminate Hf.
Qed.

Lemma mkdir_parents_under_a_file fs dir :
  under_a_file fs dir = true -> mkdir_parents fs dir = Err NotADirectoryError.
Proof.
  intros H. unfold mkdir_parents. rewrite fold_left_app.
  rewrite (mkdir_blocked dir (ancestors dir) fs).
  - reflexivity.
  - unfold under_a_file in H. apply existsb_exists in H. exact H.
  - apply ancestor_not_self.
Qed.

Lemma ancestors_clear fs dir :
  under_a_file fs dir = false ->
  forall q, In q (ancestors dir) -> is_file_node (fs q) = false.
Proof.
  intros Hu q Hq. destruct (is_file_node (fs q)) eqn:E; [|reflexivity].
  rewrite <- Hu. symmetry. apply existsb_exists. now exists q.
Qed.

Lemma way_clear fs dir :
  under_a_file fs dir = false -> is_file_node (fs dir) = false ->
  forall q, In q (ancestors dir ++ [dir]) -> is_file_node (fs q) = false.
Proof.
  intros Hu Hf q Hq. apply in_app_or in Hq.
  destruct Hq as [Hq|[<-|[]]]; [now apply (ancestors_clear fs dir) | exact Hf].
Qed.

Lemma mkdir_parents_file fs dir :
  under_a_file fs dir = false -> is_file_node (fs dir) = true ->
  mkdir_parents fs dir = Err FileExistsError.
Proof.
  intros Hu Hf. unfold mkdir_parents. rewrite fold_left_app.
  destruct (mkdir_steps dir (ancestors dir) fs (ancestors_clear fs dir Hu))
    as (fs1 & E1 & _ & Hout).
  rewrite E1. cbn [fold_left bind]. rewrite Hout.
  - destruct (fs dir) as [[t|]|]; try discriminate Hf.
    now rewrite path_eqb_refl.
  - intros Hin. apply ancestor_not_self in Hin.
    rewrite path_eqb_refl in Hin. discriminate Hin.
Qed.

Lemma write_text_dir fs dir (n text : pystr) :
  (forall q, In q (ancestors dir ++ [dir]) -> fs q = Some Dir) ->
  is_dir_node (fs (dir ++ [n])) = true ->
  write_text fs (dir ++ [n]) text = Err IsADirectoryError.
Proof.
  intros Hdirs Hn. unfold write_text.
  rewrite under_a_file_false.
  - destruct (fs (dir ++ [n])) as [[t|]|]; try discriminate Hn. reflexivity.
  - intros q Hq. apply ancestors_child in Hq. now rewrite (Hdirs q Hq).
Qed.

(** What [save_pretrained] returns where it can write: the file system
    after [mkdir] with the two files put in. *)
Lemma save_pretrained_explicit tk fs dir :
  (forall q, In q (ancestors dir ++ [dir]) -> is_file_node (fs q) = false) ->
  is_dir_node (fs (model_file_of dir)) = false ->
  is_dir_node (fs (json_file_of dir)) = false ->
  exists fs1,
    (forall q, In q (ancestors dir ++ [dir]) -> fs1 q = Some Dir)
    /\ (forall q, ~ In q (ancestors dir ++ [dir]) -> fs1 q = fs q)
    /\ save_pretrained tk fs dir
       = Ok (fs_put
               (fs_put fs1 (model_file_of dir)
                  (File (concat (map model_line
                                   (_mergeable_ranks (tkt_model tk))))))
               (json_file_of dir)
               (File (json_dump_indent2 (all_special_tokens_with_ids tk)))).
Proof.
  intros Hway Hm Hj.
  destruct (mkdir_parents_ready fs dir Hway) as (fs1 & E1 & Hin & Hout).
  exists fs1. split; [exact Hin|]. split; [exact Hout|].
  set (text1 := concat (map model_line (_mergeable_ranks (tkt_model tk)))).
  set (text2 := json_dump_indent2 (all_special_tokens_with_ids tk)).
  set (fs2 := fs_put fs1 (model_file_of dir) (File text1)).
  assert (Hin2 : forall q, In q (ancestors dir ++ [dir]) -> fs2 q = Some Dir).
  { intros q Hq. unfold fs2. rewrite fs_put_other; [now apply Hin|].
    intros <-. now apply child_not_ancestor in Hq. }
  unfold save_pretrained. rewrite E1. cbn [bind].
  fold (model_file_of dir). fold (json_file_of dir). fold text1. fold text2.
  unfold model_file_of at 1.
  rewrite (write_text_child fs1 dir _ text1 Hin).
  - cbn [bind]. fold (model_file_of dir). fold fs2.
    unfold json_file_of at 1.
    rewrite (write_text_child fs2 dir _ text2 Hin2); [reflexivity|].
    fold (json_file_of dir). unfold fs2.
    rewrite fs_put_other by apply model_file_not_json_file.
    rewrite Hout by apply child_not_ancestor. exact Hj.
  - fold (model_file_of dir).
    rewrite Hout by apply child_not_ancestor. exact Hm.
Qed.

Lemma save_pretrained_target_dir tk fs dir :
  under_a_file fs dir = false -> is_file_node (fs dir) = false ->
  is_dir_node (fs (model_file_of dir)) || is_dir_node (fs (json_file_of dir))
  = true ->
  save_pretrained tk fs dir = Err IsADirectoryError.
Proof.
  intros Hu Hf Hd.
  destruct (mkdir_parents_ready fs dir (way_clear fs dir Hu Hf))
    as (fs1 & E1 & Hin & Hout).
  set (text1 := concat (map model_line (_mergeable_ranks (tkt_model tk)))).
  set (fs2 := fs_put fs1 (model_file_of dir) (File text1)).
  unfold save_pretrained. rewrite E1. cbn [bind].
  fold (model_file_of dir). fold (json_file_of dir). fold text1.
  destruct (is_dir_node (fs (model_file_of dir))) eqn:Em.
  - unfold model_file_of at 1. rewrite write_text_dir; [reflexivity|exact Hin|].
    fold (model_file_of dir). rewrite Hout by apply child_not_ancestor.
    exact Em.
  - cbn [orb] in Hd. unfold model_file_of at 1.
    rewrite (write_text_child fs1 dir _ text1 Hin).
    + cbn [bind]. fold (model_file_of dir). fold fs2.
      unfold json_file_of at 1. rewrite write_text_dir; [reflexivity| |].
      * intros q Hq. unfold fs2. rewrite fs_put_other; [now apply Hin|].
        intros <-. now apply child_not_ancestor in Hq.
      * fold (json_file_of dir). unfold fs2.
        rewrite fs_put_other by apply model_file_not_json_file.
        rewrite Hout by apply child_not_ancestor. exact Hd.
    + fold (model_file_of dir).
      rewrite Hout by apply child_not_ancestor. exact Em.
Qed.

Lemma forallb_not_existsb {A} (f : A -> bool) (l : list A) :
  forallb (fun x => negb (f x)) l = negb (existsb f l).
Proof.
  induction l as [|x l IH]; [reflexivity|]. cbn [forallb existsb].
  rewrite IH. now destruct (f x), (existsb f l).
Qed.

Lemma save_ready_cases fs dir :
  save_ready fs dir
  = negb (under_a_file fs dir) && negb (is_file_node (fs dir))
    && negb (is_dir_node (fs (model_file_of dir)))
    && negb (is_dir_node (fs (json_file_of dir))).
Proof.
  unfold save_ready, under_a_file. rewrite forallb_app, forallb_not_existsb.
  cbn [forallb]. now rewrite andb_true_r.
Qed.

Lemma save_pretrained_returns_iff tk fs dir :
  save_ready fs dir = true <-> exists fs', save_pretrained tk fs dir = Ok fs'.
Proof.
  split.
  - intros H. destruct (save_pretrained_ready tk fs dir H) as (fs' & E & _).
    now exists fs'.
  - intros (fs' & E). rewrite save_ready_cases.
    destruct (under_a_file fs dir) eqn:Hu.
    { unfold save_pretrained in E.
      rewrite (mkdir_parents_under_a_file fs dir Hu) in E. discriminate E. }
    destruct (is_file_node (fs dir)) eqn:Hf.
    { unfold save_pretrained in E.
      rewrite (mkdir_parents_file fs dir Hu Hf) in E. discriminate E. }
    destruct (is_dir_node (fs (model_file_of dir))
              || is_dir_node (fs (json_file_of dir))) eqn:Hd.
    { rewrite (save_pretrained_target_dir tk fs dir Hu Hf Hd) in E.
      discriminate E. }
    apply orb_false_iff in Hd. destruct Hd as [-> ->]. reflexivity.
Qed.

Lemma save_ready_inv fs dir :
  save_ready fs dir = true ->
  (forall q, In q (ancestors dir ++ [dir]) -> is_file_node (fs q) = false)
  /\ is_dir_node (fs (model_file_of dir)) = false
  /\ is_dir_node (fs (json_file_of dir)) = false.
Proof.
  unfold save_ready. rewrite !andb_true_iff, !negb_true_iff, forallb_forall.
  intros [[Hway Hm] Hj]. split; [|split; assumption].
  intros q Hq. apply negb_true_iff. now apply Hway.
Qed.

(** X17.  [save_pretrained] returns exactly where no file stands on the
    way to the directory or in its place and neither of the two file names
    is a directory.  Otherwise it raises: NotADirectoryError where a file
    is on the way, FileExistsError where the directory is a file,
    IsADirectoryError where one of the two file names is a directory. *)
Theorem X17_save_pretrained_outcome
    (tk : FishTokenizer) (fs : filesystem) (dir : path) :
  (save_ready fs dir = true <-> exists fs', save_pretrained tk fs dir = Ok fs')
  /\ (under_a_file fs dir = true ->
      save_pretrained tk fs dir = Err NotADirectoryError)
  /\ (under_a_file fs dir = false -> is_file_node (fs dir) = true ->
      save_pretrained tk fs dir = Err FileExistsError)
  /\ (under_a_file fs dir = false -> is_file_node (fs dir) = false ->
      is_dir_node (fs (model_file_of dir))
      || is_dir_node (fs (json_file_of dir)) = true ->
      save_pretrained tk fs dir = Err IsADirectoryError).
Proof.
  split; [apply save_pretrained_returns_iff|]. split; [|split].
  - intros Hu. unfold save_pretrained.
    now rewrite (mkdir_parents_under_a_file fs dir Hu).
  - intros Hu Hf. unfold save_pretrained.
    now rewrite (mkdir_parents_file fs dir Hu Hf).
  - apply save_pretrained_target_dir.
Qed.

(** X17 at the sample file system, the directory being the model file, and
    at a directory below the model file. *)
Lemma X17_save_pretrained_outcome_witness :
  save_pretrained sample_tokenizer sample_fs blocked_dir = Err FileExistsError
  /\ save_pretrained sample_tokenizer sample_fs (blocked_dir ++ [lit "out"])
     = Err NotADirectoryError.
Proof.
  split.
  - apply (X17_save_pretrained_outcome sample_tokenizer sample_fs blocked_dir);
      reflexivity.
  - apply (X17_save_pretrained_outcome sample_tokenizer sample_fs
             (blocked_dir ++ [lit "out"])); reflexivity.
Defined.

(** X18.  Where [save_pretrained] can write, it leaves every directory a
    directory, makes the directory and the directories on the way to it,
    and changes no other path than these and the two files. *)
Theorem X18_save_pretrained_frame
    (tk : FishTokenizer) (fs : filesystem) (dir : path) :
  save_ready fs dir = true ->
  exists fs',
    save_pretrained tk fs dir = Ok fs'
    /\ (forall q, In q (ancestors dir ++ [dir]) -> fs' q = Some Dir)
    /\ (forall q, fs q = Some Dir -> fs' q = Some Dir)
    /\ (forall q, ~ In q (ancestors dir ++ [dir]) ->
          q <> model_file_of dir -> q <> json_file_of dir -> fs' q = fs q).
Proof.
  intros H. apply save_ready_inv in H. destruct H as (Hway & Hm & Hj).
  destruct (save_pretrained_explicit tk fs dir Hway Hm Hj)
    as (fs1 & Hin & Hout & E).
  eexists. split; [exact E|].
  assert (Hchain : forall q, In q (ancestors dir ++ [dir]) ->
            fs_put
              (fs_put fs1 (model_file_of dir)
                 (File (concat (map model_line
                                  (_mergeable_ranks (tkt_model tk))))))
              (json_file_of dir)
              (File (json_dump_indent2 (all_special_tokens_with_ids tk))) q
            = Some Dir).
  { intros q Hq. rewrite !fs_put_other; [now apply Hin| |];
      intros <-; now apply child_not_ancestor in Hq. }
  assert (Hframe : forall q, ~ In q (ancestors dir ++ [dir]) ->
            q <> model_file_of dir -> q <> json_file_of dir ->
            fs_put
              (fs_put fs1 (model_file_of dir)
                 (File (concat (map model_line
                                  (_mergeable_ranks (tkt_model tk))))))
              (json_file_of dir)
              (File (json_dump_indent2 (all_special_tokens_with_ids tk))) q
            = fs q).
  { intros q Hq H1 H2. rewrite !fs_put_other by congruence. now apply Hout. }
  split; [exact Hchain|]. split; [|exact Hframe].
  intros q Hq.
  destruct (in_dec (list_eq_dec (list_eq_dec N.eq_dec)) q
              (ancestors dir ++ [dir])) as [Hi|Hn]; [now apply Hchain|].
  rewrite Hframe; [exact Hq|exact Hn| |]; intros ->.
  - rewrite Hq in Hm. discriminate Hm.
  - rewrite Hq in Hj. discriminate Hj.
Qed.

(** X18 at the sample file system and the directory [out]. *)
Lemma X18_save_pretrained_frame_witness :
  exists fs',
    save_pretrained sample_tokenizer sample_fs out_dir = Ok fs'
    /\ (forall q, In q (ancestors out_dir ++ [out_dir]) -> fs' q = Some Dir)
    /\ (forall q, sample_fs q = Some Dir -> fs' q = Some Dir)
    /\ (forall q, ~ In q (ancestors out_dir ++ [out_dir]) ->
          q <> model_file_of out_dir -> q <> json_file_of out_dir ->
          fs' q = sample_fs q).
Proof.
  apply (X18_save_pretrained_frame sample_tokenizer sample_fs out_dir).
  reflexivity.
Defined.

(** X19.  Saving again into the same directory changes nothing: the second
    call returns, and leaves every path as the first call left it. *)
Theorem X19_save_pretrained_twice
    (tk : FishTokenizer) (fs : filesystem) (dir : path) :
  save_ready fs dir = true ->
  exists fs' fs'',
    save_pretrained tk fs dir = Ok fs'
    /\ save_pretrained tk fs' dir = Ok fs''
    /\ forall q, fs'' q = fs' q.
Proof.
  intros H. apply save_ready_inv in H. destruct H as (Hway & Hm & Hj).
  destruct (save_pretrained_explicit tk fs dir Hway Hm Hj)
    as (fs1 & Hin & Hout & E).
  set (text1 := concat (map model_line (_mergeable_ranks (tkt_model tk)))) in *.
  set (text2 := json_dump_indent2 (all_special_tokens_with_ids tk)) in *.
  set (fs' := fs_put (fs_put fs1 (model_file_of dir) (File text1))
                (json_file_of dir) (File text2)) in *.
  assert (Hchain : forall q, In q (ancestors dir ++ [dir]) -> fs' q = Some Dir).
  { intros q Hq. unfold fs'. rewrite !fs_put_other; [now apply Hin| |];
      intros <-; now apply child_not_ancestor in Hq. }
  assert (Hm' : fs' (model_file_of dir) = Some (File text1)).
  { unfold fs'. rewrite fs_put_other; [apply fs_put_same|].
    intros E'. symmetry in E'. now apply model_file_not_json_file in E'. }
  assert (Hj' : fs' (json_file_of dir) = Some (File text2)).
  { unfold fs'. apply fs_put_same. }
  destruct (save_pretrained_explicit tk fs' dir) as (fs2 & Hin2 & Hout2 & E2).
  { intros q Hq. now rewrite (Hchain q Hq). }
  { now rewrite Hm'. }
  { now rewrite Hj'. }
  fold text1 text2 in E2.
  exists fs'. eexists. split; [exact E|]. split; [exact E2|].
  intros q. unfold fs_put at 1.
  destruct (path_eqb (json_file_of dir) q) eqn:Eq.
  { apply path_eqb_eq in Eq. subst q. now rewrite Hj'. }
  unfold fs_put at 1.
  destruct (path_eqb (model_file_of dir) q) eqn:Eq'.
  { apply path_eqb_eq in Eq'. subst q. now rewrite Hm'. }
  destruct (in_dec (list_eq_dec (list_eq_dec N.eq_dec)) q
              (ancestors dir ++ [dir])) as [Hi|Hn].
  - now rewrite Hin2, Hchain.
  - now apply Hout2.
Qed.

(** X19 at the sample file system and the directory [out]. *)
Lemma X19_save_pretrained_twice_witness :
  exists fs' fs'',
    save_pretrained sample_tokenizer sample_fs out_dir = Ok fs'
    /\ save_pretrained sample_tokenizer fs' out_dir = Ok fs''
    /\ forall q, fs'' q = fs' q.
Proof.
  apply (X19_save_pretrained_twice sample_tokenizer sample_fs out_dir).
  reflexivity.
Defined.

(* ================================================================== *)
(** * Tables that do not come back, and the order of the two readers *)

Lemma split_rank_alone (r : Z) :
  split (line_body ([], r)) = [str_of_int r].
Proof.
  unfold line_body. cbn [fst snd b64encode app].
  change (lit " " ++ str_of_int r) with (32%N :: str_of_int r).
  unfold split. cbn [split_from]. change (is_space 32%N) with true. cbv iota.
  rewrite <- (app_nil_r (str_of_int r)) at 1.
  rewrite split_from_no_space by apply str_of_int_no_space.
  rewrite app_nil_r. cbn [split_from].
  destruct (rev (str_of_int r)) as [|y l] eqn:E.
  - apply (f_equal (@rev _)) in E. rewrite rev_involutive in E.
    now apply str_of_int_not_empty in E.
  - now rewrite <- E, rev_involutive.
Qed.

Section Readers.
Variable L : pylib.
Hypothesis b64decode_b64encode :
forall data : bytes, data <> [] -> b64decode L (b64encode data) = Ok data.
Hypothesis int_of_str_str_of_int :
forall z : Z, int_of_str L (str_of_int z) = Ok z.

Lemma load_lines_parse (entries acc : dict bytes Z) :
Forall (fun e => fst e <> []) entries ->
exists read, load_lines L (map line_body entries) (Ok acc) = Ok read.
Proof.
revert acc. induction entries as [|[t r] es IH]; intros acc Hne.
- now exists acc.
- inversion Hne as [|? ? Ht Hes]; subst. cbn [fst] in Ht.
  cbn [map]. rewrite load_lines_cons.
  rewrite line_body_not_empty, split_line_body by exact Ht.
  cbn [fst snd].
  rewrite int_of_str_str_of_int, b64decode_b64encode by exact Ht.
  cbn [bind]. now apply IH.
Qed.
End Readers.

(** X20.  A table with an empty token does not come back: where the
    readers invert the writers, the model file that [save_pretrained]
    writes for it has a line with the rank alone, on which
    [load_tiktoken_bpe] raises ValueError. *)
Theorem X20_saved_empty_token_is_not_loaded
    (L : pylib) (tk : FishTokenizer) (fs : filesystem) (dir : path)
    (before after : dict bytes Z) (r : Z) :
  (forall data : bytes, data <> [] -> b64decode L (b64encode data) = Ok data) ->
  (forall z : Z, int_of_str L (str_of_int z) = Ok z) ->
  _mergeable_ranks (tkt_model tk) = before ++ ([], r) :: after ->
  Forall (fun e => fst e <> []) before ->
  save_ready fs dir = true ->
  exists fs',
    save_pretrained tk fs dir = Ok fs'
    /\ load_tiktoken_bpe L fs' (model_file_of dir) = Err ValueError.
Proof.
  intros Hb64 Hint Hranks Hbefore Hready.
  destruct (save_pretrained_ready tk fs dir Hready)
    as (fs' & Hsave & Hmodel & _ & Hdirs).
  exists fs'. split; [exact Hsave|].
  rewrite load_tiktoken_bpe_lines. unfold model_file_of.
  rewrite (read_text_child fs' dir _ _ Hdirs Hmodel). cbn [bind].
  rewrite splitlines_model_text, Hranks, map_app, load_lines_app.
  destruct (load_lines_parse L Hb64 Hint before [] Hbefore) as (read & Hread).
  match goal with
  | |- context [load_lines L (map line_body before) ?a] =>
      replace (load_lines L (map line_body before) a)
        with (Ok read : result (dict bytes Z)) by (symmetry; exact Hread)
  end.
  cbn [map]. apply load_lines_bad_line.
  - apply line_body_not_empty.
  - rewrite split_rank_alone. discriminate.
Qed.

(** X20 at the table [a], the empty token, [b]. *)
Lemma X20_saved_empty_token_is_not_loaded_witness :
  exists fs',
    save_pretrained sample_tokenizer_empty_token sample_fs out_dir = Ok fs'
    /\ load_tiktoken_bpe reference_lib fs' (model_file_of out_dir)
       = Err ValueError.
Proof.
  apply (X20_saved_empty_token_is_not_loaded reference_lib
           sample_tokenizer_empty_token sample_fs out_dir
           [(["a"%char], 0)] [(["b"%char], 2)] 1).
  - intros data _. apply b64decode_strict_b64encode.
  - apply int_of_str_strict_str_of_int.
  - reflexivity.
  - repeat constructor. discriminate.
  - reflexivity.
Defined.



(* ================================================================== *)
(** * The constructor's dictionaries, and texts made of special tokens *)

(** X22.  Lines 68 to 84 raise nothing of their own: the lookups of lines
    73, 76 and 77 find their keys and [SEMANTIC_TOKENS] has a first and a
    last element, so that an exception there is one of the construction
    of the native core, and the tokenizer is built with the merge table it
    was given wherever the core is. *)
Theorem X22_registry_construction_raises_nothing
    (L : pylib) (ranks : dict bytes Z) (model_path : path) :
  (forall e, init_registry L ranks model_path = Err e ->
     CoreBPE_new L FISH_TIKTOKEN_PATTERN ranks (registry (len ranks)) = Err e)
  /\ (forall core,
        CoreBPE_new L FISH_TIKTOKEN_PATTERN ranks (registry (len ranks))
        = Ok core ->
        exists tk,
          init_registry L ranks model_path = Ok tk
          /\ _core_bpe (tkt_model tk) = core
          /\ _mergeable_ranks (tkt_model tk) = ranks
          /\ _special_tokens (tkt_model tk) = all_special_tokens_with_ids tk
          /\ pat_str (tkt_model tk) = FISH_TIKTOKEN_PATTERN
          /\ name (tkt_model tk) = stem model_path).
Proof.
  rewrite init_registry_unfold. split.
  - intros e H.
    destruct (CoreBPE_new L FISH_TIKTOKEN_PATTERN ranks (registry (len ranks)))
      as [core|e']; [discriminate H|].
    cbn [bind] in H. injection H as ->. reflexivity.
  - intros core ->. cbn [bind]. eexists. split; [reflexivity|].
    repeat split.
Qed.

Lemma is_prefix_app (s rest : pystr) : is_prefix s (s ++ rest) = true.
Proof.
  induction s as [|c s IH]; [reflexivity|].
  cbn [app is_prefix]. now rewrite N.eqb_refl.
Qed.

Lemma is_prefix_same_text (a b text : pystr) :
  is_prefix a text = true -> is_prefix b text = true ->
  is_prefix a b = true \/ is_prefix b a = true.
Proof.
  revert b text. induction a as [|x a IH]; intros b text Ha Hb; [now left|].
  destruct b as [|y b]; [now right|].
  destruct text as [|c text]; [discriminate Ha|].
  cbn [is_prefix] in *. apply andb_true_iff in Ha, Hb.
  destruct Ha as [E1 Ha], Hb as [E2 Hb].
  apply N.eqb_eq in E1, E2. subst. rewrite N.eqb_refl. cbn [andb].
  now apply (IH b text).
Qed.

(** A registered name at the head of a text is the one that is found
    there. *)
Lemma match_literal_at_head (s rest : pystr) :
  In s ALL_SPECIAL_TOKENS ->
  match_literal ALL_SPECIAL_TOKENS (s ++ rest) = Some s.
Proof.
  intros Hs. unfold match_literal.
  apply find_unique; [exact Hs | apply is_prefix_app|].
  intros y Hy Hp.
  destruct (is_prefix_same_text y s (s ++ rest) Hp (is_prefix_app s rest))
    as [H|H].
  - exact (prefix_free_spec ALL_SPECIAL_TOKENS s y
             ALL_SPECIAL_TOKENS_prefix_free Hs Hy H).
  - symmetry.
    exact (prefix_free_spec ALL_SPECIAL_TOKENS y s
             ALL_SPECIAL_TOKENS_prefix_free Hy Hs H).
Qed.

Lemma next_allowed_at_head (s rest : pystr) :
  In s ALL_SPECIAL_TOKENS ->
  next_allowed ALL_SPECIAL_TOKENS ALL_SPECIAL_TOKENS (s ++ rest)
  = Some ([], s, rest).
Proof.
  intros Hs. rewrite next_allowed_unfold. cbv zeta.
  rewrite (match_literal_at_head s rest Hs).
  rewrite (proj2 (mem_In s ALL_SPECIAL_TOKENS) Hs).
  now rewrite skipn_app, skipn_all, Nat.sub_diag.
Qed.

Lemma special_tokens_in_a_row enc (names : list pystr) :
  dict_keys (_special_tokens enc) = ALL_SPECIAL_TOKENS ->
  encode_ordinary (_core_bpe enc) [] = Some [] ->
  Forall (fun s => In s ALL_SPECIAL_TOKENS) names ->
  forall fuel, (length names <= fuel)%nat ->
    core_encode fuel enc ALL_SPECIAL_TOKENS (concat names)
    = mapM (dict_get pystr_eqb (_special_tokens enc)) names.
Proof.
  intros Hkeys Hnil Hall.
  induction Hall as [|s names Hs Hnames IH]; intros fuel Hfuel.
  - cbn [concat mapM].
    assert (N : next_allowed (dict_keys (_special_tokens enc))
                  ALL_SPECIAL_TOKENS [] = None).
    { rewrite Hkeys, next_allowed_unfold. cbv zeta.
      now rewrite match_literal_at_end. }
    destruct fuel; cbn [core_encode]; rewrite N, Hnil; reflexivity.
  - cbn [concat mapM].
    assert (N : next_allowed (dict_keys (_special_tokens enc))
                  ALL_SPECIAL_TOKENS (s ++ concat names)
                = Some ([], s, concat names)).
    { rewrite Hkeys. now apply next_allowed_at_head. }
    destruct fuel as [|fuel]; [cbn [length] in Hfuel; lia|].
    cbn [core_encode]. rewrite N, Hnil. cbn [native bind].
    destruct (dict_get pystr_eqb (_special_tokens enc) s) as [id|e];
      cbn [bind]; [|reflexivity].
    rewrite IH by (cbn [length] in Hfuel; lia).
    destruct (mapM _ names); reflexivity.
Qed.

(** X23.  For a tokenizer built from a merge table, a text that consists
    of registered special tokens, one after the other, converts with
    [allowed_special=True] to the ids of these tokens in their order, as
    [get_token_id] gives them; the text of a special token is never cut
    at another one, no token being the beginning of another. *)
Theorem X23_special_tokens_in_a_row
    (L : pylib) (ranks : dict bytes Z) (model_path : path) (tk : FishTokenizer)
    (names : list pystr) (tokens : pyval) :
  init_registry L ranks model_path = Ok tk ->
  encode_ordinary (_core_bpe (tkt_model tk)) [] = Some [] ->
  Forall (fun s => In s ALL_SPECIAL_TOKENS) names ->
  exists ids,
    mapM (get_token_id tk) names = Ok ids
    /\ convert_tokens_to_ids (with_subs (VList [VStr (concat names)])) tk
         tokens (AllowedBool true) = Ok ids.
Proof.
  intros H Hnil Hall. apply init_registry_inv in H.
  destruct H as (core & _ & ->).
  destruct (mapM_returns (get_token_id (tokenizer_of ranks model_path core))
              names) as (ids & Hids).
  { intros s Hs. rewrite Forall_forall in Hall. specialize (Hall s Hs).
    destruct (In_nth_error _ _ Hall) as (n & Hn).
    exists (len ranks + Z.of_nat n). now apply get_token_id_position. }
  exists ids. split; [exact Hids|].
  rewrite convert_one_text. unfold Encoding_encode. cbn [is_empty negb].
  change (allowed_set (tokenizer_of ranks model_path core) (AllowedBool true))
    with (dict_keys (registry (len ranks))).
  rewrite registry_keys.
  rewrite (special_tokens_in_a_row
             (tkt_model (tokenizer_of ranks model_path core)) names
             (registry_keys (len ranks)) Hnil Hall).
  - change (mapM _ names) with
      (mapM (get_token_id (tokenizer_of ranks model_path core)) names).
    rewrite Hids. cbn [bind]. now rewrite app_nil_r.
  - clear - Hall. induction Hall as [|s names Hs _ IH]; [simpl; lia|].
    cbn [concat length]. rewrite length_app.
    pose proof ALL_SPECIAL_TOKENS_not_empty as Hne.
    rewrite forallb_forall in Hne. specialize (Hne s Hs).
    destruct s; [discriminate Hne | simpl; lia].
Qed.

(** X23 at the text [<|pad|><|begin_of_text|><|pad|>]. *)
Lemma X23_special_tokens_in_a_row_witness :
  exists ids,
    mapM (get_token_id sample_tokenizer) [PAD_TOKEN; BOS_TOKEN; PAD_TOKEN]
    = Ok ids
    /\ convert_tokens_to_ids
         (with_subs (VList [VStr (concat [PAD_TOKEN; BOS_TOKEN; PAD_TOKEN])]))
         sample_tokenizer VNone (AllowedBool true) = Ok ids.
Proof.
  apply (X23_special_tokens_in_a_row reference_lib sample_ranks sample_file
           sample_tokenizer [PAD_TOKEN; BOS_TOKEN; PAD_TOKEN] VNone).
  - rewrite init_registry_unfold. reflexivity.
  - reflexivity.
  - repeat (apply Forall_cons; [apply mem_In; vm_compute; reflexivity|]).
    apply Forall_nil.
Defined.

(* ================================================================== *)
(** * Texts without a special token *)

Lemma ALL_SPECIAL_TOKENS_angle (t : pystr) :
  In t ALL_SPECIAL_TOKENS -> exists t', t = 60%N :: t'.
Proof.
  assert (H : forallb (fun s : pystr =>
                         match s with
                         | c :: _ => N.eqb c 60
                         | [] => false
                         end) ALL_SPECIAL_TOKENS = true)
    by (vm_compute; reflexivity).
  rewrite forallb_forall in H. intros Hin. specialize (H t Hin).
  destruct t as [|c t']; [discriminate H|].
  apply N.eqb_eq in H. subst c. now exists t'.
Qed.

Lemma find_all_false {A} (f : A -> bool) (l : list A) :
  (forall x, In x l -> f x = false) -> find f l = None.
Proof.
  induction l as [|x l IH]; intros H; [reflexivity|].
  cbn [find]. rewrite (H x) by now left.
  apply IH. intros y Hy. apply H. now right.
Qed.

Lemma match_literal_no_angle (s : pystr) :
  no_angle s = true -> match_literal ALL_SPECIAL_TOKENS s = None.
Proof.
  intros Hs. unfold match_literal. apply find_all_false. intros t Ht.
  destruct (ALL_SPECIAL_TOKENS_angle t Ht) as (t' & ->).
  destruct s as [|c s]; [reflexivity|].
  cbn [no_angle forallb] in Hs. apply andb_true_iff in Hs.
  destruct Hs as [Hc _]. apply negb_true_iff in Hc.
  cbn [is_prefix]. rewrite N.eqb_sym, Hc. reflexivity.
Qed.

Lemma next_allowed_no_angle allowed (s : pystr) :
  no_angle s = true -> next_allowed ALL_SPECIAL_TOKENS allowed s = None.
Proof.
  induction s as [|c s IH]; intros Hs; rewrite next_allowed_unfold; cbv zeta;
    rewrite (match_literal_no_angle _ Hs); [reflexivity|].
  cbn [no_angle forallb] in Hs. apply andb_true_iff in Hs.
  destruct Hs as [_ Hs]. now rewrite (IH Hs).
Qed.

Lemma no_angle_chunk (text chunk : pystr) :
  no_angle text = true -> In chunk (tokenize text) -> no_angle chunk = true.
Proof.
  intros Ht Hin.
  destruct (chunks_of_spec TIKTOKEN_MAX_ENCODE_CHARS text eq_refl) as [Hc _].
  change (chunks_of TIKTOKEN_MAX_ENCODE_CHARS text) with (tokenize text) in Hc.
  unfold no_angle in *. rewrite forallb_forall in Ht. apply forallb_forall.
  intros c Hcin. apply Ht. rewrite <- Hc. apply in_concat. now exists chunk.
Qed.

(** X24.  Every special token begins with [<]: for a tokenizer built from
    a merge table, a text without that character is converted as ordinary
    text, chunk by chunk, and [allowed_special] has no effect on it. *)
Theorem X24_text_without_special_token
    (L : pylib) (ranks : dict bytes Z) (model_path : path) (tk : FishTokenizer)
    (text : pystr) (tokens : pyval) (allowed : allowed_arg) :
  init_registry L ranks model_path = Ok tk ->
  no_angle text = true ->
  convert_tokens_to_ids (with_subs (VList (map VStr (tokenize text)))) tk
    tokens allowed
  = (batches <-
       mapM (fun chunk =>
               native (encode_ordinary (_core_bpe (tkt_model tk)) chunk))
         (tokenize text) ;;
     Ok (concat batches)).
Proof.
  intros H Htext. apply init_registry_inv in H. destruct H as (core & _ & ->).
  rewrite convert_texts.
  match goal with
  | |- bind (mapM ?f ?xs) _ = bind (mapM ?g _) _ =>
      rewrite (mapM_ext_in f g xs); [reflexivity|]
  end.
  intros chunk Hin. pose proof (no_angle_chunk text chunk Htext Hin) as Hc.
  assert (N : next_allowed
                (dict_keys
                   (_special_tokens
                      (tkt_model (tokenizer_of ranks model_path core))))
                (allowed_set (tokenizer_of ranks model_path core) allowed)
                chunk = None).
  { cbn [tkt_model tokenizer_of _special_tokens]. rewrite registry_keys.
    now apply next_allowed_no_angle. }
  destruct (length chunk); cbn [core_encode]; rewrite N; reflexivity.
Qed.

(** X24 at the text [ab]. *)
Lemma X24_text_without_special_token_witness :
  convert_tokens_to_ids (with_subs (VList (map VStr (tokenize (lit "ab")))))
    sample_tokenizer VNone (AllowedBool true)
  = (batches <-
       mapM (fun chunk =>
               native (encode_ordinary
                         (_core_bpe (tkt_model sample_tokenizer)) chunk))
         (tokenize (lit "ab")) ;;
     Ok (concat batches)).
Proof.
  apply (X24_text_without_special_token reference_lib sample_ranks sample_file
           sample_tokenizer (lit "ab") VNone (AllowedBool true)).
  - rewrite init_registry_unfold. reflexivity.
  - reflexivity.
Defined.
